(** * git-clone-select: a shallow embedding of [bin/git-clone.js]

    The program is a single Node.js script.  Its pure helpers
    ([validateGitUrl], [extractRepoName], [validatePathWithinProjectsDir])
    become Rocq functions over strings; its effectful part (configuration
    file, prompts, subprocesses, [process.exit]) becomes a state monad over
    an explicit [world].

    Conventions of the model:
    - a JavaScript string is a [string]: a sequence of 8-bit code units;
    - the [path] module is the POSIX one ([path.sep] is a slash);
    - file modes, symbolic links and permissions are not part of the file
      system model, so the [process.on('exit')] hook that re-applies mode
      755 to the script is the identity on worlds and is left out. *)

From Stdlib Require Import Bool Arith Lia List Ascii String ZArith DecimalString.
Import ListNotations.
Local Open Scope list_scope.
Local Open Scope string_scope.

Set Implicit Arguments.
Set Warnings "-register-all".

(** ** Strings *)

Module Str.

Definition slash : ascii := "/"%char.

(** [s.startsWith(p)] *)
Definition startsWith (s p : string) : bool := String.prefix p s.

(** [s.slice(n)] for [0 <= n] *)
Fixpoint drop (n : nat) (s : string) : string :=
  match n, s with
  | O, _ => s
  | S n', String _ t => drop n' t
  | S _, EmptyString => EmptyString
  end.

(** [s.slice(0, n)] *)
Fixpoint take (n : nat) (s : string) : string :=
  match n, s with
  | O, _ => EmptyString
  | S n', String c t => String c (take n' t)
  | S _, EmptyString => EmptyString
  end.

(** [s.includes(c)] for a one-character needle *)
Fixpoint includes (c : ascii) (s : string) : bool :=
  match s with
  | EmptyString => false
  | String d t => Ascii.eqb d c || includes c t
  end.

Definition isEmpty (s : string) : bool :=
  match s with EmptyString => true | _ => false end.

Fixpoint rev_onto (s acc : string) : string :=
  match s with
  | EmptyString => acc
  | String c t => rev_onto t (String c acc)
  end.

Definition rev (s : string) : string := rev_onto s EmptyString.

(** [s.endsWith(p)] *)
Definition endsWith (s p : string) : bool := String.prefix (rev p) (rev s).

(** White space and line terminators, as [trim] sees them. *)
Definition isSpace (c : ascii) : bool :=
  let n := nat_of_ascii c in
  (((9 <=? n) && (n <=? 13)) || (n =? 32) || (n =? 160))%nat.

Fixpoint trimStart (s : string) : string :=
  match s with
  | String c t => if isSpace c then trimStart t else s
  | EmptyString => EmptyString
  end.

(** [s.trim()] *)
Definition trim (s : string) : string := rev (trimStart (rev (trimStart s))).

Definition lowerChar (c : ascii) : ascii :=
  let n := nat_of_ascii c in
  if (((65 <=? n) && (n <=? 90)) ||
      ((192 <=? n) && (n <=? 222) && negb (n =? 215)))%nat
  then ascii_of_nat (n + 32) else c.

(** [s.toLowerCase()] *)
Fixpoint toLowerCase (s : string) : string :=
  match s with
  | String c t => String (lowerChar c) (toLowerCase t)
  | EmptyString => EmptyString
  end.

Definition nl : string := String "010"%char EmptyString.
Definition cr : string := String "013"%char EmptyString.
Definition dq : string := String "034"%char EmptyString.

(** A number in a template literal. *)
Definition ofZ (z : Z) : string := NilZero.string_of_int (Z.to_int z).

Fixpoint insert (x : string) (l : list string) : list string :=
  match l with
  | [] => [x]
  | y :: l' => if String.leb x y then x :: l else y :: insert x l'
  end.

(** [names.sort()]: ascending order of code units. *)
Definition sort (l : list string) : list string := fold_right insert [] l.

End Str.

(** ** Regular expressions

    The script uses six regular-expression literals.  They are embedded as
    syntax trees and run by a backtracking matcher that returns the list of
    all ways to match, in the priority order of the ECMAScript
    specification: the first element is the match the engine reports. *)

Module Regex.

Inductive regex : Type :=
| Eps
| Chr (c : ascii)                     (* a literal character *)
| Class (p : ascii -> bool)           (* a character class *)
| Seq (r1 r2 : regex)
| Alt (r1 r2 : regex)
| Star (greedy : bool) (r : regex)    (* [r*] and [r*?] *)
| Capture (n : nat) (r : regex)       (* capture group number [n] *)
| Bol                                 (* [^] *)
| Eol.                                (* [$] *)

(** [r?], [r+], [r+?] and literal strings are derived forms. *)
Definition Opt (r : regex) : regex := Alt r Eps.
Definition Plus (greedy : bool) (r : regex) : regex := Seq r (Star greedy r).

Fixpoint lit (s : string) : regex :=
  match s with
  | EmptyString => Eps
  | String c t => Seq (Chr c) (lit t)
  end.

(** The character classes of the literals. *)
Definition isLineTerminator (c : ascii) : bool :=
  Ascii.eqb c "010"%char || Ascii.eqb c "013"%char.

(** [.] *)
Definition dot (c : ascii) : bool := negb (isLineTerminator c).

(** [\w] *)
Definition word (c : ascii) : bool :=
  let n := nat_of_ascii c in
  (((48 <=? n) && (n <=? 57)) || ((65 <=? n) && (n <=? 90)) ||
   ((97 <=? n) && (n <=? 122)) || (n =? 95))%nat.

(** [[\w\-\.]] *)
Definition wordDashDot (c : ascii) : bool :=
  word c || Ascii.eqb c "-"%char || Ascii.eqb c "."%char.

(** [[^\/]] *)
Definition notSlash (c : ascii) : bool := negb (Ascii.eqb c Str.slash).

(** A matcher state: the index reached, the input still to read, and the
    captures made so far (most recent first). *)
Record mstate : Type := MState {
  pos : nat;
  rest : string;
  caps : list (nat * string)
}.

Definition advance (st : mstate) (t : string) : mstate :=
  MState (S (pos st)) t (caps st).

Definition progress (st st' : mstate) : bool := (pos st <? pos st')%nat.

(** Iteration of a quantified atom.  An iteration that consumes nothing is
    discarded, as in ECMAScript, so [length (rest st)] iterations are
    always enough. *)
Fixpoint iter (greedy : bool) (step : mstate -> list mstate)
              (fuel : nat) (st : mstate) : list mstate :=
  match fuel with
  | O => [st]
  | S fuel' =>
      let more := flat_map (iter greedy step fuel')
                           (filter (progress st) (step st)) in
      if greedy then (more ++ [st])%list else st :: more
  end.

Definition capture (n : nat) (st st' : mstate) : mstate :=
  MState (pos st') (rest st')
         ((n, Str.take (pos st' - pos st) (rest st)) :: caps st').

Fixpoint run (r : regex) (st : mstate) : list mstate :=
  match r with
  | Eps => [st]
  | Chr c =>
      match rest st with
      | String d t => if Ascii.eqb d c then [advance st t] else []
      | EmptyString => []
      end
  | Class p =>
      match rest st with
      | String d t => if p d then [advance st t] else []
      | EmptyString => []
      end
  | Seq r1 r2 => flat_map (run r2) (run r1 st)
  | Alt r1 r2 => (run r1 st ++ run r2 st)%list
  | Star greedy r1 => iter greedy (run r1) (String.length (rest st)) st
  | Capture n r1 => map (capture n st) (run r1 st)
  | Bol => if (pos st =? 0)%nat then [st] else []
  | Eol => match rest st with EmptyString => [st] | _ => [] end
  end.

(** The result of [RegExp.prototype.exec]: where the match starts and the
    final matcher state. *)
Record result : Type := Result {
  index : nat;
  final : mstate
}.

(** Try every start position from left to right, the end of the input
    included. *)
Fixpoint search (r : regex) (start : nat) (s : string) : option result :=
  match run r (MState start s []) with
  | st :: _ => Some (Result start st)
  | [] =>
      match s with
      | String _ t => search r (S start) t
      | EmptyString => None
      end
  end.

Definition exec (r : regex) (s : string) : option result := search r 0 s.

(** [regex.test(s)] *)
Definition test (r : regex) (s : string) : bool :=
  match exec r s with Some _ => true | None => false end.

(** [match[n]] *)
Fixpoint group (n : nat) (cs : list (nat * string)) : option string :=
  match cs with
  | [] => None
  | (m, s) :: cs' => if (m =? n)%nat then Some s else group n cs'
  end.

End Regex.

Import Regex.

(** ** URL helpers (lines 193-210) *)

Definition urlPatterns : list regex :=
  [ (* /^https?:\/\/.*\.git$/ *)
    Seq Bol (Seq (lit "http") (Seq (Opt (Chr "s")) (Seq (lit "://")
      (Seq (Star true (Class dot)) (Seq (lit ".git") Eol)))));
    (* /^git@.*:.*\.git$/ *)
    Seq Bol (Seq (lit "git@") (Seq (Star true (Class dot)) (Seq (Chr ":")
      (Seq (Star true (Class dot)) (Seq (lit ".git") Eol)))));
    (* /^https?:\/\/github\.com\/[\w\-\.]+\/[\w\-\.]+/ *)
    Seq Bol (Seq (lit "http") (Seq (Opt (Chr "s")) (Seq (lit "://github.com/")
      (Seq (Plus true (Class wordDashDot)) (Seq (Chr "/")
        (Plus true (Class wordDashDot)))))));
    (* /^https?:\/\/gitlab\.com\/[\w\-\.]+\/[\w\-\.]+/ *)
    Seq Bol (Seq (lit "http") (Seq (Opt (Chr "s")) (Seq (lit "://gitlab.com/")
      (Seq (Plus true (Class wordDashDot)) (Seq (Chr "/")
        (Plus true (Class wordDashDot)))))));
    (* /^https?:\/\/bitbucket\.org\/[\w\-\.]+\/[\w\-\.]+/ *)
    Seq Bol (Seq (lit "http") (Seq (Opt (Chr "s")) (Seq (lit "://bitbucket.org/")
      (Seq (Plus true (Class wordDashDot)) (Seq (Chr "/")
        (Plus true (Class wordDashDot))))))) ].

Definition validateGitUrl (url : string) : bool :=
  existsb (fun pattern => test pattern url) urlPatterns.

(** The tail [(?:\.git)?\/?$] of the repository-name pattern. *)
Definition repoTail : regex :=
  Seq (Opt (lit ".git")) (Seq (Opt (Chr "/")) Eol).

(** /\/([^\/]+?)(?:\.git)?\/?$/ *)
Definition repoNamePattern : regex :=
  Seq (Chr "/") (Seq (Capture 1 (Plus false (Class notSlash))) repoTail).

Definition extractRepoName (url : string) : option string :=
  match exec repoNamePattern url with
  | Some m => group 1 (caps (final m))
  | None => None
  end.

(** [extractRepoName(gitUrl) || 'repository'] (line 520) *)
Definition defaultRepoName (gitUrl : string) : string :=
  match extractRepoName gitUrl with
  | Some name => if Str.isEmpty name then "repository" else name
  | None => "repository"
  end.

(** ** The [path] module (POSIX flavour)

    Modelled after the documented behaviour of Node's [path.posix]: a path
    is cut at slashes, empty and [.] segments are dropped, and a [..]
    segment removes the segment before it. *)

Module Path.

Definition sep : string := "/".

Definition isAbsolute (p : string) : bool :=
  match p with String c _ => Ascii.eqb c Str.slash | EmptyString => false end.

Definition hasTrailingSep (p : string) : bool :=
  match Str.rev p with String c _ => Ascii.eqb c Str.slash | EmptyString => false end.

(** The segments between slashes: [split "/a//b/" = [""; "a"; ""; "b"; ""]]. *)
Fixpoint split (s : string) : list string :=
  match s with
  | EmptyString => [EmptyString]
  | String c t =>
      if Ascii.eqb c Str.slash then EmptyString :: split t
      else match split t with
           | seg :: segs => String c seg :: segs
           | [] => [String c EmptyString]
           end
  end.

(** One step of [normalizeString]; [acc] is the result so far, last
    segment first. *)
Definition pushSegment (allowAboveRoot : bool) (acc : list string)
                       (seg : string) : list string :=
  if String.eqb seg "" || String.eqb seg "." then acc
  else if String.eqb seg ".." then
    match acc with
    | top :: acc' =>
        if String.eqb top ".."
        then (if allowAboveRoot then seg :: acc else acc)
        else acc'
    | [] => if allowAboveRoot then [seg] else []
    end
  else seg :: acc.

Definition normalizeSegments (allowAboveRoot : bool) (segs : list string)
  : list string :=
  List.rev (fold_left (pushSegment allowAboveRoot) segs []).

Definition normalizeString (p : string) (allowAboveRoot : bool) : string :=
  String.concat sep (normalizeSegments allowAboveRoot (split p)).

(** [path.normalize] *)
Definition normalize (p : string) : string :=
  if Str.isEmpty p then "."
  else
    let abs := isAbsolute p in
    let n := normalizeString p (negb abs) in
    if Str.isEmpty n then (if abs then "/" else if hasTrailingSep p then "./" else ".")
    else
      let n' := if hasTrailingSep p then n ++ "/" else n in
      if abs then "/" ++ n' else n'.

(** [path.join(...args)] *)
Definition join (args : list string) : string :=
  match filter (fun a => negb (Str.isEmpty a)) args with
  | [] => "."
  | parts => normalize (String.concat "/" parts)
  end.

(** The right-to-left loop of [path.resolve]: [rargs] are the arguments
    still to visit, last first; the working directory comes after them. *)
Fixpoint gather (rargs : list string) (cwd acc : string) : string * bool :=
  match rargs with
  | [] =>
      if Str.isEmpty cwd then (acc, false)
      else (cwd ++ "/" ++ acc, isAbsolute cwd)
  | p :: ps =>
      if Str.isEmpty p then gather ps cwd acc
      else if isAbsolute p then (p ++ "/" ++ acc, true)
      else gather ps cwd (p ++ "/" ++ acc)
  end.

(** [path.resolve(...args)] in a process whose working directory is [cwd] *)
Definition resolve (cwd : string) (args : list string) : string :=
  let (p, abs) := gather (List.rev args) cwd "" in
  let n := normalizeString p (negb abs) in
  if abs then "/" ++ n
  else if Str.isEmpty n then "." else n.

(** The backwards scan of [path.dirname]: [cs] holds the characters at
    indices [i], [i-1], ..., [1]. *)
Fixpoint dirnameEnd (cs : string) (i : nat) (matchedSlash : bool) : option nat :=
  match cs with
  | EmptyString => None
  | String c t =>
      if Ascii.eqb c Str.slash
      then (if matchedSlash then dirnameEnd t (i - 1) true else Some i)
      else dirnameEnd t (i - 1) false
  end.

(** [path.dirname] *)
Definition dirname (p : string) : string :=
  match p with
  | EmptyString => "."
  | String c0 t =>
      let hasRoot := Ascii.eqb c0 Str.slash in
      match dirnameEnd (Str.rev t) (String.length t) true with
      | None => if hasRoot then "/" else "."
      | Some e => if hasRoot && (e =? 1)%nat then "//" else Str.take e p
      end
  end.

(** [path.basename] without a suffix: the last non-empty segment. *)
Definition basename (p : string) : string :=
  match filter (fun seg => negb (Str.isEmpty seg)) (List.rev (split p)) with
  | seg :: _ => seg
  | [] => ""
  end.

(** The segments of an absolute normalized path: [[]] for the root. *)
Definition segments (p : string) : list string :=
  filter (fun seg => negb (Str.isEmpty seg)) (split p).

Fixpoint dropCommon (a b : list string) : list string * list string :=
  match a, b with
  | x :: a', y :: b' => if String.eqb x y then dropCommon a' b' else (a, b)
  | _, _ => (a, b)
  end.

(** [path.relative(from, to)] *)
Definition relative (cwd from to : string) : string :=
  let (up, down) := dropCommon (segments (resolve cwd [from]))
                               (segments (resolve cwd [to])) in
  String.concat "/" (map (fun _ => "..") up ++ down)%list.

End Path.

(** ** Path containment (lines 221-236)

    [None] stands for the JavaScript [false] the function returns on
    rejection. *)

Definition validatePathWithinProjectsDir (cwd targetPath projectsDir : string)
  : option string :=
  let resolved := Path.resolve cwd [targetPath] in
  let projectsResolved := Path.resolve cwd [projectsDir] in
  let normalizedTarget := resolved ++ Path.sep in
  let normalizedProjects := projectsResolved ++ Path.sep in
  if negb (Str.startsWith normalizedTarget normalizedProjects) &&
     negb (String.eqb resolved projectsResolved)
  then None
  else Some resolved.

(** ** JavaScript values

    Only what the script can observe of a parsed JSON document.  Numbers are
    kept abstract: the script only tests them for truthiness. *)

Inductive value (number : Type) : Type :=
| VUndefined
| VNull
| VBool (b : bool)
| VNumber (x : number)
| VString (s : string)
| VArray (items : list (value number))
| VObject (members : list (string * value number)).

Arguments VUndefined {number}.
Arguments VNull {number}.
Arguments VBool {number} b.
Arguments VString {number} s.

(** A thrown [Error]; the script only reads its [message]. *)
Record exn : Type := Error { message : string }.

(** ** The file system: a tree of directories and regular files *)

Module FS.

Inductive node : Type :=
| File (content : string)
| Dir (entries : list (string * node)).

Fixpoint assoc (name : string) (es : list (string * node)) : option node :=
  match es with
  | [] => None
  | (k, n) :: es' => if String.eqb k name then Some n else assoc name es'
  end.

(** Replace the entry called [name], or add it at the end. *)
Fixpoint put (name : string) (n : node) (es : list (string * node))
  : list (string * node) :=
  match es with
  | [] => [(name, n)]
  | (k, m) :: es' =>
      if String.eqb k name then (k, n) :: es' else (k, m) :: put name n es'
  end.

(** Drop every entry called [name]. *)
Definition remove (name : string) (es : list (string * node))
  : list (string * node) :=
  filter (fun e => negb (String.eqb (fst e) name)) es.

Fixpoint lookup (segs : list string) (n : node) : option node :=
  match segs with
  | [] => Some n
  | seg :: segs' =>
      match n with
      | Dir es =>
          match assoc seg es with
          | Some child => lookup segs' child
          | None => None
          end
      | File _ => None
      end
  end.

(** [mkdir -p]: [None] when a regular file is in the way. *)
Fixpoint mkdirp (segs : list string) (n : node) : option node :=
  match n with
  | File _ => None
  | Dir es =>
      match segs with
      | [] => Some n
      | seg :: segs' =>
          let child := match assoc seg es with
                       | Some c => c
                       | None => Dir []
                       end in
          match mkdirp segs' child with
          | Some child' => Some (Dir (put seg child' es))
          | None => None
          end
      end
  end.

(** Create or overwrite a regular file; its directory must exist. *)
Fixpoint write (segs : list string) (content : string) (n : node)
  : option node :=
  match n, segs with
  | Dir es, [seg] =>
      match assoc seg es with
      | Some (Dir _) => None
      | _ => Some (Dir (put seg (File content) es))
      end
  | Dir es, seg :: segs' =>
      match assoc seg es with
      | Some child =>
          match write segs' content child with
          | Some child' => Some (Dir (put seg child' es))
          | None => None
          end
      | None => None
      end
  | _, _ => None
  end.

(** Remove a regular file. *)
Fixpoint unlink (segs : list string) (n : node) : option node :=
  match n, segs with
  | Dir es, [seg] =>
      match assoc seg es with
      | Some (File _) => Some (Dir (remove seg es))
      | _ => None
      end
  | Dir es, seg :: segs' =>
      match assoc seg es with
      | Some child =>
          match unlink segs' child with
          | Some child' => Some (Dir (put seg child' es))
          | None => None
          end
      | None => None
      end
  | _, _ => None
  end.

Definition isDirectory (n : node) : bool :=
  match n with Dir _ => true | File _ => false end.

End FS.

(** ** The world the script runs in *)

Inductive level : Type := INFO | SUCCESS | ERROR | WARNING.

(** Questions put by [inquirer.prompt]. *)
Inductive question : Type :=
| AskInput (msg default : string)
| AskConfirm (msg : string) (default : bool)
| AskList (msg : string) (choices : list string).

(** What the user does at a prompt. *)
Inductive answer : Type :=
| Typed (text : string)          (* a line; the empty line takes the default *)
| YesNo (choice : option bool)   (* [None]: Enter, which takes the default *)
| Picked (i : nat)               (* the index of the highlighted choice *)
| Keypress (str : option string) (name : string) (ctrl : bool).

(** The options the script passes to [spawnSync]. *)
Record spawnOptions : Type := SpawnOptions {
  stdio : string;
  spawnCwd : option string;
  detached : bool
}.

Record spawnResult : Type := SpawnResult {
  spawnError : option exn;       (* [result.error] *)
  status : option Z              (* [result.status], [None] for [null] *)
}.

(** [spawnSync] throws only when it rejects its arguments; a command that
    cannot be started is reported through [result.error]. *)
Inductive spawnOutcome : Type :=
| Spawned (r : spawnResult)
| SpawnRefused (e : exn).

(** What the process shows or starts, in order; [Ran] is a [spawnSync]
    call with what came of it. *)
Inductive event : Type :=
| Logged (type : level) (msg : string)         (* [console.log], through [log] *)
| Wrote (text : string)                        (* [process.stdout.write] *)
| Asked (q : question)
| Rejected (msg : string)                      (* a validator's message *)
| Ran (command : string) (args : list string) (options : spawnOptions)
      (outcome : spawnOutcome).

Record world : Type := World {
  argv : list string;               (* [process.argv.slice(2)] *)
  envProjectsDir : option string;   (* [process.env.GIT_CLONE_PROJECTS_DIR] *)
  platform : string;                (* [process.platform] *)
  homedir : string;                 (* [os.homedir()] *)
  cwd : string;                     (* [process.cwd()] *)
  scriptDir : string;               (* [__dirname] *)
  now : string;                     (* [new Date().toISOString()] *)
  gitVersionWorks : bool;           (* [git --version] exits with 0 *)
  spawn : string -> list string -> spawnOptions -> FS.node ->
          spawnOutcome * FS.node;   (* what starting a command does *)
  files : FS.node;
  input : list answer;
  trace : list event
}.

Definition setFiles (f : FS.node) (w : world) : world :=
  World (argv w) (envProjectsDir w) (platform w) (homedir w) (cwd w)
        (scriptDir w) (now w) (gitVersionWorks w) (spawn w) f (input w) (trace w).

Definition setInput (i : list answer) (w : world) : world :=
  World (argv w) (envProjectsDir w) (platform w) (homedir w) (cwd w)
        (scriptDir w) (now w) (gitVersionWorks w) (spawn w) (files w) i (trace w).

Definition emit (e : event) (w : world) : world :=
  World (argv w) (envProjectsDir w) (platform w) (homedir w) (cwd w)
        (scriptDir w) (now w) (gitVersionWorks w) (spawn w) (files w) (input w)
        (trace w ++ [e])%list.

(** ** The monad of the script *)

Inductive outcome (A : Type) : Type :=
| Ret (a : A)            (* normal completion *)
| Throw (e : exn)        (* an exception on its way up *)
| Exit (code : Z)        (* [process.exit(code)] *)
| Hang.                  (* waiting for input that does not come *)

Arguments Throw {A} e.
Arguments Exit {A} code.
Arguments Hang {A}.

Definition M (A : Type) : Type := world -> outcome A * world.

Definition ret {A} (a : A) : M A := fun w => (Ret a, w).

Definition bind {A B} (m : M A) (k : A -> M B) : M B :=
  fun w =>
    match m w with
    | (Ret a, w') => k a w'
    | (Throw e, w') => (Throw e, w')
    | (Exit c, w') => (Exit c, w')
    | (Hang, w') => (Hang, w')
    end.

Notation "x <- m ;; k" := (bind m (fun x => k))
  (at level 61, m at next level, right associativity).
Notation "' pat <- m ;; k" :=
  (bind m (fun x => match x with pat => k end))
  (at level 61, pat pattern, m at next level, right associativity).
Notation "m ;; k" := (bind m (fun _ => k))
  (at level 61, right associativity).

Definition throw {A} (e : exn) : M A := fun w => (Throw e, w).

(** [process.exit(code)] *)
Definition exit {A} (code : Z) : M A := fun w => (Exit code, w).

(** [try { body } catch (err) { handler }]: an exit is not an exception. *)
Definition tryCatch {A} (body : M A) (handler : exn -> M A) : M A :=
  fun w =>
    match body w with
    | (Throw e, w') => handler e w'
    | r => r
    end.

Definition get {A} (f : world -> A) : M A := fun w => (Ret (f w), w).

Definition when (b : bool) (m : M unit) : M unit := if b then m else ret tt.

(** ** The script *)

Section Script.

(** JavaScript numbers and [JSON.parse] belong to the runtime, not to the
    script: they are parameters of the model.  [JSON_parse] gives the
    parsed document or the [SyntaxError] it throws. *)
Variable number : Type.
Variable numberIsTruthy : number -> bool.
Variable numberToString : number -> string.
Variable JSON_parse : string -> exn + value number.

Abbreviation jsvalue := (value number).

(** [if (v)] *)
Definition truthy (v : jsvalue) : bool :=
  match v with
  | VUndefined | VNull => false
  | VBool b => b
  | VNumber x => numberIsTruthy x
  | VString s => negb (Str.isEmpty s)
  | VArray _ | VObject _ => true
  end.

(** [`${v}`] *)
Fixpoint toString (v : jsvalue) : string :=
  match v with
  | VUndefined => "undefined"
  | VNull => "null"
  | VBool b => if b then "true" else "false"
  | VNumber x => numberToString x
  | VString s => s
  | VArray items =>
      String.concat ","
        (map (fun item => match item with
                          | VUndefined | VNull => ""
                          | _ => toString item
                          end) items)
  | VObject _ => "[object Object]"
  end.

(** The own property [name] of a parsed object: with a repeated key the
    last member wins. *)
Fixpoint member (name : string) (ms : list (string * jsvalue)) : jsvalue :=
  match ms with
  | [] => VUndefined
  | (k, v) :: ms' =>
      match member name ms' with
      | VUndefined => if String.eqb k name then v else VUndefined
      | later => later
      end
  end.

(** [v.name] for a value that came out of [JSON.parse] *)
Definition getProperty (v : jsvalue) (name : string) : M jsvalue :=
  match v with
  | VUndefined | VNull =>
      throw (Error ("Cannot read properties of " ++ toString v ++
                    " (reading '" ++ name ++ "')"))
  | VObject ms => ret (member name ms)
  | _ => ret VUndefined
  end.

Definition parseJSON (text : string) : M jsvalue :=
  match JSON_parse text with
  | inl e => throw e
  | inr v => ret v
  end.

(** *** Output (lines 155-172) *)

Definition log (msg : string) (type : level) : M unit :=
  fun w => (Ret tt, emit (Logged type msg) w).

Definition error {A} (msg : string) : M A :=
  log msg ERROR ;; exit 1%Z.

Definition success (msg : string) : M unit := log msg SUCCESS.

(** *** [fs] and [child_process] *)

Definition segmentsOf (w : world) (p : string) : list string :=
  Path.segments (Path.resolve (cwd w) [p]).

Definition fsError (what syscall p : string) : exn :=
  Error (what ++ ", " ++ syscall ++ " '" ++ p ++ "'").

Definition existsSync (p : string) : M bool :=
  fun w =>
    (Ret (match FS.lookup (segmentsOf w p) (files w) with
          | Some _ => true
          | None => false
          end), w).

(** [fs.mkdirSync(p, { recursive: true })] *)
Definition mkdirSync (p : string) : M unit :=
  fun w =>
    match FS.mkdirp (segmentsOf w p) (files w) with
    | Some f => (Ret tt, setFiles f w)
    | None => (Throw (fsError "ENOTDIR: not a directory" "mkdir" p), w)
    end.

(** [fs.readFileSync(p, 'utf8')] *)
Definition readFileSync (p : string) : M string :=
  fun w =>
    match FS.lookup (segmentsOf w p) (files w) with
    | Some (FS.File content) => (Ret content, w)
    | Some (FS.Dir _) =>
        (Throw (Error "EISDIR: illegal operation on a directory, read"), w)
    | None => (Throw (fsError "ENOENT: no such file or directory" "open" p), w)
    end.

(** [fs.writeFileSync(p, data, 'utf8')] *)
Definition writeFileSync (p data : string) : M unit :=
  fun w =>
    match FS.write (segmentsOf w p) data (files w) with
    | Some f => (Ret tt, setFiles f w)
    | None => (Throw (fsError "ENOENT: no such file or directory" "open" p), w)
    end.

Definition unlinkSync (p : string) : M unit :=
  fun w =>
    match FS.unlink (segmentsOf w p) (files w) with
    | Some f => (Ret tt, setFiles f w)
    | None => (Throw (fsError "EPERM: operation not permitted" "unlink" p), w)
    end.

(** [fs.readdirSync(p, { withFileTypes: true })]: names with
    [isDirectory()] *)
Definition readdirSync (p : string) : M (list (string * bool)) :=
  fun w =>
    match FS.lookup (segmentsOf w p) (files w) with
    | Some (FS.Dir es) =>
        (Ret (map (fun e => (fst e, FS.isDirectory (snd e))) es), w)
    | Some (FS.File _) =>
        (Throw (fsError "ENOTDIR: not a directory" "scandir" p), w)
    | None =>
        (Throw (fsError "ENOENT: no such file or directory" "scandir" p), w)
    end.

Definition spawnSync (command : string) (args : list string)
                     (options : spawnOptions) : M spawnResult :=
  fun w =>
    let (outcome, f) := spawn w command args options (files w) in
    let w1 := setFiles f (emit (Ran command args options outcome) w) in
    match outcome with
    | Spawned r => (Ret r, w1)
    | SpawnRefused e => (Throw e, w1)
    end.

(** *** [inquirer] and [readline] *)

(** An [input] prompt asks again until its validator accepts; [None] is
    the validator's [true]. *)
Fixpoint inputLoop (default : string)
                   (validate : string -> world -> option string)
                   (answers : list answer) (w : world)
  : outcome string * world :=
  match answers with
  | Typed text :: answers' =>
      let v := if Str.isEmpty text then default else text in
      match validate v w with
      | None => (Ret v, setInput answers' w)
      | Some msg => inputLoop default validate answers' (emit (Rejected msg) w)
      end
  | _ => (Hang, setInput answers w)
  end.

Definition promptInput (msg default : string)
                       (validate : string -> world -> option string)
  : M string :=
  fun w => inputLoop default validate (input w)
                     (emit (Asked (AskInput msg default)) w).

Definition promptConfirm (msg : string) (default : bool) : M bool :=
  fun w =>
    let w1 := emit (Asked (AskConfirm msg default)) w in
    match input w with
    | YesNo choice :: answers' =>
        (Ret (match choice with Some b => b | None => default end),
         setInput answers' w1)
    | _ => (Hang, w1)
    end.

(** A [list] prompt: [choices] pairs what is shown with the value the
    prompt returns. *)
Definition promptList (msg : string) (choices : list (string * string))
  : M string :=
  fun w =>
    let w1 := emit (Asked (AskList msg (map fst choices))) w in
    match input w with
    | Picked i :: answers' =>
        match nth_error choices i with
        | Some (_, v) => (Ret v, setInput answers' w1)
        | None => (Hang, w1)
        end
    | _ => (Hang, w1)
    end.

Definition stdoutWrite (text : string) : M unit :=
  fun w => (Ret tt, emit (Wrote text) w).

(** *** Configuration management (lines 12-143) *)

Definition getConfigPath : M (string * string) :=
  homeDir <- get homedir ;;
  let configDir := Path.join [homeDir; ".config"; "git-clone"] in
  let configFile := Path.join [configDir; "config.json"] in
  ret (configDir, configFile).

Definition getDefaultProjectsDir : M string :=
  homeDir <- get homedir ;;
  os <- get platform ;;
  if String.eqb os "win32" then ret (Path.join [homeDir; "Projects"])
  else
    let developerProjects := Path.join [homeDir; "Developer"; "Projects"] in
    hasDeveloper <- existsSync (Path.join [homeDir; "Developer"]) ;;
    if hasDeveloper then ret developerProjects
    else ret (Path.join [homeDir; "Projects"]).

(** [process.env.GIT_CLONE_PROJECTS_DIR] as a value *)
Definition envValue (w : world) : jsvalue :=
  match envProjectsDir w with
  | Some dir => VString dir
  | None => VUndefined
  end.

(** [null] is [VNull]. *)
Definition loadConfig : M jsvalue :=
  env <- get envValue ;;
  if truthy env then ret env
  else
    '(_, configFile) <- getConfigPath ;;
    present <- existsSync configFile ;;
    if present then
      tryCatch
        (text <- readFileSync configFile ;;
         config <- parseJSON text ;;
         projectsDir <- getProperty config "projectsDir" ;;
         if truthy projectsDir then ret projectsDir else ret VNull)
        (fun err =>
           log ("Warning: Could not read config file: " ++ message err) WARNING ;;
           ret VNull)
    else ret VNull.

(** [JSON.stringify(s)] for a string *)
Definition hexDigit (n : nat) : ascii :=
  ascii_of_nat (if (n <? 10)%nat then 48 + n else 87 + n).

Definition jsonEscape (c : ascii) : string :=
  let n := nat_of_ascii c in
  if (n =? 34)%nat then "\" ++ Str.dq
  else if (n =? 92)%nat then "\\"
  else if (n =? 8)%nat then "\b"
  else if (n =? 12)%nat then "\f"
  else if (n =? 10)%nat then "\n"
  else if (n =? 13)%nat then "\r"
  else if (n =? 9)%nat then "\t"
  else if (n <? 32)%nat
       then "\u00" ++ String (hexDigit (n / 16)) (String (hexDigit (n mod 16)) "")
       else String c "".

Fixpoint jsonEscapeAll (s : string) : string :=
  match s with
  | String c t => jsonEscape c ++ jsonEscapeAll t
  | EmptyString => EmptyString
  end.

Definition jsonQuote (s : string) : string :=
  Str.dq ++ jsonEscapeAll s ++ Str.dq.

(** [JSON.stringify({ projectsDir, createdAt }, null, 2)] *)
Definition stringifyConfig (projectsDir createdAt : string) : string :=
  "{" ++ Str.nl ++
  "  " ++ jsonQuote "projectsDir" ++ ": " ++ jsonQuote projectsDir ++ "," ++ Str.nl ++
  "  " ++ jsonQuote "createdAt" ++ ": " ++ jsonQuote createdAt ++ Str.nl ++
  "}".

Definition saveConfig (projectsDir : string) : M bool :=
  '(configDir, configFile) <- getConfigPath ;;
  tryCatch
    (present <- existsSync configDir ;;
     when (negb present) (mkdirSync configDir) ;;
     createdAt <- get now ;;
     writeFileSync configFile (stringifyConfig projectsDir createdAt) ;;
     ret true)
    (fun err =>
       log ("Error saving config: " ++ message err) ERROR ;;
       ret false).

(** [path.resolve(p)] in the current process *)
Definition resolve (p : string) : M string :=
  fun w => (Ret (Path.resolve (cwd w) [p]), w).

(** The validator of the set-up prompt (lines 90-104). *)
Definition validateProjectsDir (input : string) (w : world) : option string :=
  if Str.isEmpty input || Str.isEmpty (Str.trim input)
  then Some "Projects directory cannot be empty"
  else
    let resolved := Path.resolve (cwd w) [Str.trim input] in
    if negb (Str.startsWith resolved (homedir w))
    then Some "Projects directory must be within your home directory"
    else None.

(** The offer to create a missing directory (lines 111-131 and 366-386). *)
Definition offerToCreate (dir : string) : M unit :=
  present <- existsSync dir ;;
  when (negb present)
    (create <- promptConfirm
                 ("Directory " ++ Str.dq ++ dir ++ Str.dq ++
                  " doesn't exist. Create it?") true ;;
     if create then
       tryCatch
         (mkdirSync dir ;;
          success ("Created directory: " ++ dir))
         (fun err => error ("Failed to create directory: " ++ message err))
     else error "Cannot proceed without a valid projects directory.").

Definition setupConfig : M string :=
  defaultDir <- getDefaultProjectsDir ;;
  log (Str.nl ++ "Welcome to git-clone!") INFO ;;
  log "Let's set up your projects directory." INFO ;;
  projectsDir <- promptInput
                   "Where would you like to store your cloned repositories?"
                   defaultDir validateProjectsDir ;;
  resolvedDir <- resolve (Str.trim projectsDir) ;;
  offerToCreate resolvedDir ;;
  saved <- saveConfig resolvedDir ;;
  if saved then
    success ("Configuration saved! Projects directory: " ++ resolvedDir) ;;
    ret resolvedDir
  else error "Failed to save configuration.".

Definition getProjectsDir : M jsvalue := loadConfig.

(** *** Helpers of the clone flow (lines 174-337) *)

Definition getExistingFolders (projectsDir : string) : M (list string) :=
  tryCatch
    (present <- existsSync projectsDir ;;
     if negb present then
       mkdirSync projectsDir ;;
       ret []
     else
       items <- readdirSync projectsDir ;;
       ret (Str.sort
              (filter (fun name => negb (Str.startsWith name "."))
                      (map fst (filter snd items)))))
    (fun err =>
       log ("Warning: Could not read projects directory: " ++ message err) WARNING ;;
       ret []).

(** [execSync('git --version')] throws when the command fails. *)
Definition checkGitInstalled : M bool := get gitVersionWorks.

(** [`${result.status}`] *)
Definition showStatus (st : option Z) : string :=
  match st with
  | Some z => Str.ofZ z
  | None => "null"
  end.

Definition cloneRepository (url targetDir projectsDir : string) : M string :=
  tryCatch
    (let parentDir := Path.dirname targetDir in
     present <- existsSync parentDir ;;
     when (negb present) (mkdirSync parentDir) ;;
     log ("Cloning " ++ url ++ "...") INFO ;;
     result <- spawnSync "git" ["clone"; url; targetDir]
                         (SpawnOptions "inherit" (Some projectsDir) false) ;;
     match spawnError result with
     | Some e => throw e
     | None =>
         if negb (match status result with
                  | Some z => Z.eqb z 0
                  | None => false
                  end)
         then throw (Error ("Git clone failed with exit code " ++
                            showStatus (status result)))
         else
           success (Str.nl ++ "✓ Successfully cloned to " ++ targetDir) ;;
           ret targetDir
     end)
    (fun err => error (Str.nl ++ "✗ Failed to clone repository: " ++ message err)).

Definition openInCursor (targetDir : string) : M unit :=
  tryCatch
    (spawnSync "cursor" [targetDir] (SpawnOptions "ignore" None true) ;;
     success "Opening in Cursor...")
    (fun err =>
       tryCatch
         (spawnSync "code" [targetDir] (SpawnOptions "ignore" None true) ;;
          success "Opening in editor...")
         (fun err2 =>
            log "Could not open in Cursor automatically. Please open manually."
                WARNING)).

(** The listener registered with [process.stdin.once('keypress', ...)]: only
    the first key press is looked at.  An exception inside a listener is
    uncaught, so the process dies with status 1. *)
Definition onKeypress : M bool :=
  fun w =>
    match input w with
    | Keypress str name ctrl :: answers' =>
        let w1 := setInput answers' w in
        if ctrl && String.eqb name "c" then (Exit 0%Z, w1)
        else
          match str with
          | None => (Exit 1%Z, w1)
          | Some s =>
              let key := Str.toLowerCase s in
              if String.eqb key "y" || String.eqb key Str.cr ||
                 String.eqb key Str.nl || String.eqb name "return"
              then (stdoutWrite Str.nl ;; ret true) w1
              else if String.eqb key "n" || String.eqb key "q"
              then (stdoutWrite Str.nl ;; ret false) w1
              else (Hang, w1)
          end
    | _ => (Hang, w)
    end.

Definition promptOpenInCursor (targetDir : string) : M bool :=
  let projectName := Path.basename targetDir in
  stdoutWrite ("Open " ++ Str.dq ++ projectName ++ Str.dq ++
               " in Cursor? (Press Enter to open, Q to skip): ") ;;
  onKeypress.

(** *** Configuration commands (lines 339-417) *)

Definition showConfig : M unit :=
  projectsDir <- getProjectsDir ;;
  '(_, configFile) <- getConfigPath ;;
  if truthy projectsDir then
    log (Str.nl ++ "Current Configuration:") INFO ;;
    log ("Projects Directory: " ++ toString projectsDir) SUCCESS ;;
    log ("Config File: " ++ configFile) INFO ;;
    env <- get envValue ;;
    when (truthy env)
      (log "Note: Using GIT_CLONE_PROJECTS_DIR environment variable" WARNING)
  else log "No configuration found. Run git-clone to set up." WARNING.

Definition setConfig (newPath : string) : M unit :=
  resolved <- resolve newPath ;;
  homeDir <- get homedir ;;
  when (negb (Str.startsWith resolved homeDir))
    (error "Projects directory must be within your home directory") ;;
  offerToCreate resolved ;;
  saved <- saveConfig resolved ;;
  if saved then
    success ("Configuration updated! Projects directory: " ++ resolved)
  else error "Failed to save configuration.".

Definition showVersion : M unit :=
  tryCatch
    (dir <- get scriptDir ;;
     let packageJsonPath := Path.join [dir; ".."; "package.json"] in
     text <- readFileSync packageJsonPath ;;
     packageJson <- parseJSON text ;;
     version <- getProperty packageJson "version" ;;
     log ("git-clone v" ++ toString version) INFO)
    (fun err => log "git-clone (version unknown)" INFO).

Definition showHelp : M unit :=
  log (Str.nl ++ "Usage: git-clone [options] <git-url>") INFO ;;
  log (Str.nl ++ "Options:") INFO ;;
  log "  -c, --config              Show current configuration" INFO ;;
  log "  --set-config <path>       Set projects directory" INFO ;;
  log "  --reset-config            Reset configuration and run setup" INFO ;;
  log "  -v, --version             Show version number" INFO ;;
  log "  -h, --help                Show this help message" INFO ;;
  log (Str.nl ++ "Examples:") INFO ;;
  log "  git-clone https://github.com/user/repo.git" INFO ;;
  log "  git-clone --config" INFO ;;
  log "  git-clone --set-config ~/MyProjects" INFO.

(** *** [main] (lines 419-749)

    The body of [main] is cut into the blocks its comments announce; each
    block is one definition, and [main] chains them in source order. *)

Definition argIs (arg : option string) (flag : string) : bool :=
  match arg with
  | Some a => String.eqb a flag
  | None => false
  end.

Definition isNil {A} (l : list A) : bool :=
  match l with [] => true | _ => false end.

(** Lines 439-445 *)
Definition setConfigCommand (args : list string) : M unit :=
  match nth_error args 1 with
  | Some newPath =>
      if Str.isEmpty newPath then error "Usage: git-clone --set-config <path>"
      else
        setConfig newPath ;;
        exit 0%Z
  | None => error "Usage: git-clone --set-config <path>"
  end.

(** Lines 447-459 *)
Definition resetConfigCommand : M unit :=
  '(_, configFile) <- getConfigPath ;;
  present <- existsSync configFile ;;
  when present
    (tryCatch
       (unlinkSync configFile ;;
        success "Configuration reset.")
       (fun err => error ("Failed to reset config: " ++ message err))) ;;
  log "Run git-clone to set up configuration." INFO ;;
  exit 0%Z.

(** [fs.existsSync] and [fs.mkdirSync] on a value that need not be a string:
    the first answers [false], the second throws a [TypeError]. *)
Definition existsSyncValue (v : jsvalue) : M bool :=
  match v with
  | VString p => existsSync p
  | _ => ret false
  end.

Definition mkdirSyncValue (v : jsvalue) : M unit :=
  match v with
  | VString p => mkdirSync p
  | _ => throw (Error ("The " ++ Str.dq ++ "path" ++ Str.dq ++
                       " argument must be of type string or an instance of" ++
                       " Buffer or URL."))
  end.

(** Lines 473-494 *)
Definition ensureProjectsDir (PROJECTS_DIR : jsvalue) : M unit :=
  present <- existsSyncValue PROJECTS_DIR ;;
  when (negb present)
    (create <- promptConfirm
                 ("Projects directory " ++ Str.dq ++ toString PROJECTS_DIR ++
                  Str.dq ++ " doesn't exist. Create it?") true ;;
     if create then
       tryCatch
         (mkdirSyncValue PROJECTS_DIR ;;
          success ("Created directory: " ++ toString PROJECTS_DIR))
         (fun err => error ("Failed to create directory: " ++ message err))
     else error "Cannot proceed without a valid projects directory.").

(** Lines 503-516 *)
Definition urlGate (gitUrl : string) : M unit :=
  when (negb (validateGitUrl gitUrl))
    (log ("Warning: " ++ Str.dq ++ gitUrl ++ Str.dq ++
          " doesn't look like a valid git URL") WARNING ;;
     proceed <- promptConfirm "Do you want to proceed anyway?" false ;;
     when (negb proceed) (exit 0%Z)).

(** The validators of the folder-name prompts (lines 534-542, 596-618). *)
Definition validateFolderName (input : string) (w : world) : option string :=
  if Str.isEmpty input || Str.isEmpty (Str.trim input)
  then Some "Folder name cannot be empty"
  else if Str.includes "/" input || Str.includes "\" input
  then Some "Folder name cannot contain slashes"
  else None.

Definition fileExists (w : world) (p : string) : bool :=
  match FS.lookup (segmentsOf w p) (files w) with
  | Some _ => true
  | None => false
  end.

Definition validateNewFolderName (PROJECTS_DIR parentLocation : string)
                                 (input : string) (w : world) : option string :=
  match validateFolderName input w with
  | Some msg => Some msg
  | None =>
      let checkPath :=
        if String.eqb parentLocation "root"
        then Path.join [PROJECTS_DIR; Str.trim input]
        else Path.join [PROJECTS_DIR; parentLocation; Str.trim input] in
      if fileExists w checkPath then
        let locationText :=
          if String.eqb parentLocation "root" then "Projects root"
          else Str.dq ++ parentLocation ++ Str.dq in
        Some ("Folder " ++ Str.dq ++ Str.trim input ++ Str.dq ++
              " already exists in " ++ locationText ++
              ". Choose a different name.")
      else None
  end.

(** Lines 522-630: the folder to clone into, and whether it lies inside an
    existing folder. *)
Definition chooseTargetFolder (PROJECTS_DIR : string)
                              (existingFolders : list string)
                              (defaultRepoName : string) : M (string * bool) :=
  if isNil existingFolders then
    folderName <- promptInput "Enter folder name for the cloned repository:"
                              defaultRepoName validateFolderName ;;
    ret (Str.trim folderName, false)
  else
    action <- promptList "Choose an option:"
                         [("Create a new folder", "new");
                          ("Use an existing folder", "existing")] ;;
    if String.eqb action "existing" then
      folderName <- promptList "Select an existing folder:"
                               (map (fun f => (f, f)) existingFolders) ;;
      ret (folderName, true)
    else
      parentLocation <-
        promptList "Where would you like to create the new folder?"
                   (("📁 Projects root directory", "root") ::
                    map (fun folder => ("📂 " ++ folder ++ "/", folder))
                        existingFolders) ;;
      folderName <- promptInput "Enter folder name for the cloned repository:"
                                defaultRepoName
                                (validateNewFolderName PROJECTS_DIR parentLocation) ;;
      if String.eqb parentLocation "root" then ret (Str.trim folderName, false)
      else ret (Path.join [parentLocation; Str.trim folderName], true).

(** The check repeated at lines 643-659, 666-682, 690-706 and 717-733: an
    existing, non-empty directory needs the user's consent. *)
Definition confirmIfNotEmpty (dir msg : string) : M unit :=
  present <- existsSync dir ;;
  when present
    (contents <- readdirSync dir ;;
     when (negb (isNil contents))
       (overwrite <- promptConfirm msg false ;;
        when (negb overwrite)
          (log "Operation cancelled." INFO ;;
           exit 0%Z))).

(** Lines 632-707 *)
Definition determineTargetDir (PROJECTS_DIR targetFolder : string)
                              (isExistingFolder : bool)
                              (defaultRepoName : string) : M string :=
  if isExistingFolder then
    if Str.includes Str.slash targetFolder then
      let targetDir := Path.join [PROJECTS_DIR; targetFolder] in
      confirmIfNotEmpty targetDir
        ("Folder " ++ Str.dq ++ targetFolder ++ Str.dq ++
         " already exists and is not empty. Continue anyway?") ;;
      ret targetDir
    else
      let parentDir := Path.join [PROJECTS_DIR; targetFolder] in
      let repoSubfolder := Path.join [parentDir; defaultRepoName] in
      confirmIfNotEmpty repoSubfolder
        ("Repository folder " ++ Str.dq ++ defaultRepoName ++ Str.dq ++
         " already exists in " ++ Str.dq ++ targetFolder ++ Str.dq ++
         ". Continue anyway?") ;;
      ret repoSubfolder
  else
    let targetDir := Path.join [PROJECTS_DIR; targetFolder] in
    confirmIfNotEmpty targetDir
      ("Folder " ++ Str.dq ++ targetFolder ++ Str.dq ++
       " already exists and is not empty. Continue anyway?") ;;
    ret targetDir.

(** Lines 709-714; the JavaScript [false] and the empty string are the
    falsy results. *)
Definition checkedTarget (targetDir PROJECTS_DIR : string) : M string :=
  wd <- get cwd ;;
  match validatePathWithinProjectsDir wd targetDir PROJECTS_DIR with
  | Some validatedPath =>
      if Str.isEmpty validatedPath
      then error ("Invalid path: target directory is outside Projects folder." ++
                  " This is not allowed.")
      else ret validatedPath
  | None => error ("Invalid path: target directory is outside Projects folder." ++
                   " This is not allowed.")
  end.

(** Lines 735-748 *)
Definition cloneAndOpen (gitUrl targetDir PROJECTS_DIR : string) : M unit :=
  clonedPath <- cloneRepository gitUrl targetDir PROJECTS_DIR ;;
  when (negb (Str.isEmpty clonedPath))
    (shouldOpen <- promptOpenInCursor clonedPath ;;
     if shouldOpen then openInCursor clonedPath
     else log ("You can open it later with: cursor " ++ Str.dq ++ clonedPath ++
               Str.dq) INFO).

(** Lines 518-748, once the projects directory and the URL are known. *)
Definition cloneFlow (gitUrl PROJECTS_DIR : string) : M unit :=
  existingFolders <- getExistingFolders PROJECTS_DIR ;;
  let defaultRepoName := defaultRepoName gitUrl in
  '(targetFolder, isExistingFolder) <-
    chooseTargetFolder PROJECTS_DIR existingFolders defaultRepoName ;;
  targetDir <- determineTargetDir PROJECTS_DIR targetFolder isExistingFolder
                                  defaultRepoName ;;
  targetDir <- checkedTarget targetDir PROJECTS_DIR ;;
  wd <- get cwd ;;
  confirmIfNotEmpty targetDir
    ("Folder " ++ Str.dq ++ Path.relative wd PROJECTS_DIR targetDir ++ Str.dq ++
     " already exists and is not empty. Continue anyway?") ;;
  cloneAndOpen gitUrl targetDir PROJECTS_DIR.

(** Lines 496-516 and the rest of [main], for a projects directory that is
    a string. *)
Definition cloneCommand (args : list string) (PROJECTS_DIR : string) : M unit :=
  match nth_error args 0 with
  | Some gitUrl =>
      if Str.isEmpty gitUrl
      then error ("Usage: git-clone <git-url>" ++ Str.nl ++
                  "Example: git-clone https://github.com/user/repo.git")
      else
        urlGate gitUrl ;;
        cloneFlow gitUrl PROJECTS_DIR
  | None => error ("Usage: git-clone <git-url>" ++ Str.nl ++
                   "Example: git-clone https://github.com/user/repo.git")
  end.

Definition main : M unit :=
  args <- get argv ;;
  let arg0 := nth_error args 0 in
  when (isNil args || argIs arg0 "--help" || argIs arg0 "-h")
    (showHelp ;; exit 0%Z) ;;
  when (argIs arg0 "--version" || argIs arg0 "-v")
    (showVersion ;; exit 0%Z) ;;
  when (argIs arg0 "--config" || argIs arg0 "-c")
    (showConfig ;; exit 0%Z) ;;
  when (argIs arg0 "--set-config") (setConfigCommand args) ;;
  when (argIs arg0 "--reset-config") resetConfigCommand ;;
  gitInstalled <- checkGitInstalled ;;
  when (negb gitInstalled)
    (error "Git is not installed or not found in PATH. Please install Git first.") ;;
  loaded <- getProjectsDir ;;
  PROJECTS_DIR <- (if negb (truthy loaded)
                   then (dir <- setupConfig ;; ret (VString dir))
                   else ret loaded) ;;
  ensureProjectsDir PROJECTS_DIR ;;
  match PROJECTS_DIR with
  | VString root => cloneCommand args root
  | _ =>
      (* not reached: a projects directory that is not a string neither
         exists nor can be created, so [ensureProjectsDir] has exited *)
      throw (Error "The projects directory is not a string.")
  end.

(** [main().catch(...)] (lines 752-754) *)
Definition script : M unit :=
  tryCatch main (fun err => error ("Unexpected error: " ++ message err)).

(** The status the process ends with: an uncaught exception ends it with 1,
    a normal end of the script with 0. *)
Definition exitStatus {A} (r : outcome A) : option Z :=
  match r with
  | Ret _ => Some 0%Z
  | Exit code => Some code
  | Throw _ => Some 1%Z
  | Hang => None
  end.

End Script.

(** * Definitions used by the proofs *)

(** What [(?:\.git)?\/?$] accepts. *)
Definition tailOk (s : string) : bool :=
  String.eqb s "" || String.eqb s ".git" || String.eqb s "/" ||
  String.eqb s ".git/".

(** The states the lazy [[^\/]+?] offers, shortest first. *)
Fixpoint lazyPrefixes (p : nat) (r : string) (c : list (nat * string))
  : list mstate :=
  match r with
  | String a t =>
      if notSlash a then MState (S p) t c :: lazyPrefixes (S p) t c else []
  | EmptyString => []
  end.

(** The length of the name the pattern captures in the text after a slash:
    the shortest non-empty run of non-slash characters that is followed by
    an accepted tail. *)
Fixpoint scanName (r : string) : option nat :=
  match r with
  | String a t =>
      if notSlash a
      then (if tailOk t then Some 1 else option_map S (scanName t))
      else None
  | EmptyString => None
  end.

(** Two matcher states of one run: the index and the unread input move
    together. *)
Definition inStep (st st' : mstate) : Prop :=
  pos st' + String.length (rest st') = pos st + String.length (rest st).

(** A repository name as it stands in a URL: a non-empty path segment that
    does not itself end in [.git]. *)
Definition cleanName (name : string) : bool :=
  negb (Str.isEmpty name) && negb (Str.includes Str.slash name) &&
  negb (Str.endsWith name ".git").

(** ** Containment, as a relation between paths *)

Fixpoint isPrefixOf (a b : list string) : bool :=
  match a, b with
  | [], _ => true
  | x :: a', y :: b' => String.eqb x y && isPrefixOf a' b'
  | _ :: _, [] => false
  end.

(** [target] is [root] or lies below it: the segments of the resolved root
    are the first segments of the resolved target. *)
Definition isWithin (cwd target root : string) : bool :=
  isPrefixOf (Path.segments (Path.resolve cwd [root]))
             (Path.segments (Path.resolve cwd [target])).

(** ** The persisted configuration *)

Definition configFileOf (w : world) : string :=
  Path.join [Path.join [homedir w; ".config"; "git-clone"]; "config.json"].

Definition configNode (w : world) : option FS.node :=
  FS.lookup (segmentsOf w (configFileOf w)) (files w).

(** The environment variable counts as set when it holds a non-empty
    string. *)
Definition envSet (w : world) : bool :=
  match envProjectsDir w with
  | Some dir => negb (Str.isEmpty dir)
  | None => false
  end.

Section Spec.

Variable number : Type.
Variable numberIsTruthy : number -> bool.
Variable numberToString : number -> string.
Variable JSON_parse : string -> exn + value number.

(** The [projectsDir] field of the persisted configuration, [VNull] when
    there is none. *)
Definition persistedRoot (w : world) : value number :=
  match configNode w with
  | Some (FS.File text) =>
      match JSON_parse text with
      | inr (VObject ms) =>
          if truthy numberIsTruthy (member "projectsDir" ms)
          then member "projectsDir" ms
          else VNull
      | _ => VNull
      end
  | _ => VNull
  end.

(** The effective root in the words of the specification: the environment
    variable when set, else the persisted [projectsDir], else absent. *)
Definition effectiveRoot (w : world) : value number :=
  match envProjectsDir w with
  | Some dir => if envSet w then VString dir else persistedRoot w
  | None => persistedRoot w
  end.

(** What goes wrong when the configuration file is read, if anything. *)
Definition configFailure (w : world) : option string :=
  match configNode w with
  | Some (FS.File text) =>
      match JSON_parse text with
      | inl e => Some (message e)
      | inr VNull =>
          Some "Cannot read properties of null (reading 'projectsDir')"
      | inr VUndefined =>
          Some "Cannot read properties of undefined (reading 'projectsDir')"
      | inr _ => None
      end
  | Some (FS.Dir _) => Some "EISDIR: illegal operation on a directory, read"
  | None => None
  end.

(** The world after [loadConfig]: a warning is logged when the file was
    consulted and could not be used. *)
Definition afterLoad (w : world) : world :=
  if envSet w then w
  else match configFailure w with
       | Some m =>
           emit (Logged WARNING ("Warning: Could not read config file: " ++ m)) w
       | None => w
       end.

End Spec.

(** ** Sample worlds *)

Definition sampleStamp : string := "2024-01-01T00:00:00.000Z".

Definition sampleConfigText : string :=
  stringifyConfig "/home/u/Projects" sampleStamp.

(** A stand-in for [JSON.parse] that knows the sample configuration. *)
Definition sampleParse (text : string) : exn + value Z :=
  if String.eqb text sampleConfigText
  then inr (VObject [("projectsDir", VString "/home/u/Projects");
                     ("createdAt", VString sampleStamp)])
  else inl (Error "Unexpected token in JSON at position 0").

Definition zIsTruthy (z : Z) : bool := negb (Z.eqb z 0).

Definition sampleTree (config : list (string * FS.node)) : FS.node :=
  FS.Dir [("home", FS.Dir [("u", FS.Dir
            [(".config", FS.Dir [("git-clone", FS.Dir config)]);
             ("Projects", FS.Dir [("work", FS.Dir [])])])]);
          ("tmp", FS.Dir [])].

Definition sampleFiles : FS.node :=
  sampleTree [("config.json", FS.File sampleConfigText)].

(** Every command starts and ends with status 0. *)
Definition allSucceed (command : string) (args : list string)
                      (options : spawnOptions) (f : FS.node)
  : spawnOutcome * FS.node :=
  (Spawned (SpawnResult None (Some 0%Z)), f).

(** No editor is installed; [git clone] ends with [gitStatus]. *)
Definition noEditor (gitStatus : Z) (command : string) (args : list string)
                    (options : spawnOptions) (f : FS.node)
  : spawnOutcome * FS.node :=
  if String.eqb command "git"
  then (Spawned (SpawnResult None (Some gitStatus)), f)
  else (Spawned (SpawnResult
                   (Some (Error ("spawnSync " ++ command ++ " ENOENT"))) None), f).

Definition sampleWorld (args : list string) (env : option string)
                       (files : FS.node) (answers : list answer) : world :=
  World args env "linux" "/home/u" "/home/u"
        "/usr/lib/node_modules/git-clone-select/bin" sampleStamp true
        allSucceed files answers [].

(** ** The guidance [--reset-config] ends with *)

Definition guidance : event :=
  Logged INFO "Run git-clone to set up configuration.".

(** ** Tactics *)

(** Case analysis on the leading characters of a string, as far as the
    goal looks at them. *)
Ltac crunch :=
  repeat (simpl;
          match goal with
          | |- context [Ascii.eqb ?a ?c] =>
              is_var a; destruct (Ascii.eqb_spec a c); subst
          | |- context [match ?r with EmptyString => _ | String _ _ => _ end] =>
              is_var r; destruct r
          end).

(** The same, also opening strings that stand in front of an append. *)
Ltac crunch_app :=
  repeat (simpl;
          match goal with
          | |- context [Ascii.eqb ?a ?c] =>
              is_var a; destruct (Ascii.eqb_spec a c); subst
          | |- context [match ?r with EmptyString => _ | String _ _ => _ end] =>
              is_var r; destruct r
          | |- context [(?r ++ _)%string] => is_var r; destruct r
          end).

(** Unfold the monadic skeleton of a run. *)
Ltac run_monad :=
  cbv beta iota zeta delta
    [bind ret get throw exit tryCatch when log error success
     existsSync readFileSync writeFileSync unlinkSync mkdirSync readdirSync
     parseJSON getProperty getConfigPath resolve stdoutWrite fst snd].

(** Open the first [bind] of a run [H] that ended with a result; [E] names
    the run of its first part. *)
Ltac step H E :=
  unfold bind at 1 in H;
  match type of H with
  | context [match ?m ?w with _ => _ end] =>
      destruct (m w) as [[?a|?e|?c|] ?w1] eqn:E; try discriminate H
  end.

(** The same, naming the result and the world in between. *)
Ltac step_as H E x wx :=
  unfold bind at 1 in H;
  match type of H with
  | context [match ?m ?w with _ => _ end] =>
      destruct (m w) as [[x|?e|?c|] wx] eqn:E; try discriminate H
  end.

(** ** Traces *)

(** Events that neither start a process nor write to the terminal
    directly. *)
Definition isDialog (e : event) : bool :=
  match e with
  | Logged _ _ | Asked _ | Rejected _ => true
  | Wrote _ | Ran _ _ _ _ => false
  end.

(** A computation that only logs and asks. *)
Definition quiet {A} (m : M A) : Prop :=
  forall w o w', m w = (o, w') ->
    exists shown, trace w' = (trace w ++ shown)%list /\
                  forallb isDialog shown = true.

(** A [git clone] that did not end with status 0. *)
Definition cloneFailed (o : spawnOutcome) : bool :=
  match o with
  | Spawned r =>
      match spawnError r with
      | Some _ => true
      | None => match status r with
                | Some z => negb (Z.eqb z 0)
                | None => true
                end
      end
  | SpawnRefused _ => true
  end.

Definition isWrote (e : event) : bool :=
  match e with Wrote _ => true | _ => false end.

Definition isGitRun (e : event) : bool :=
  match e with Ran command _ _ _ => String.eqb command "git" | _ => false end.

Definition isFailedGitRun (e : event) : bool :=
  match e with
  | Ran command _ _ o => String.eqb command "git" && cloneFailed o
  | _ => false
  end.

Definition isGoodGitRun (e : event) : bool :=
  match e with
  | Ran command _ _ o => String.eqb command "git" && negb (cloneFailed o)
  | _ => false
  end.

(** The question of [promptOpenInCursor]. *)
Definition editorQuestion (targetDir : string) : event :=
  Wrote ("Open " ++ Str.dq ++ Path.basename targetDir ++ Str.dq ++
         " in Cursor? (Press Enter to open, Q to skip): ").

Definition isErrorReport (e : event) : bool :=
  match e with
  | Logged ERROR msg =>
      String.prefix (Str.nl ++ "✗ Failed to clone repository: ") msg
  | _ => false
  end.

(** Case analysis on the innermost test a run [H] is waiting for. *)
Ltac has_test x :=
  match x with
  | context [match ?y with _ => _ end] => idtac
  | context [if ?y then _ else _] => idtac
  | context [let (_, _) := ?y in _] => idtac
  end.

Ltac split_on H x :=
  tryif has_test x then fail
  else (destruct x eqn:?; cbv beta iota zeta in H).

Ltac split_run H :=
  match type of H with
  | context [match ?x with _ => _ end] => split_on H x
  | context [if ?x then _ else _] => split_on H x
  | context [let (_, _) := ?x in _] => split_on H x
  end.

(** A file system primitive leaves the trace alone. *)
Ltac quiet_fs :=
  let w := fresh "w" in let o := fresh "o" in let w' := fresh "w'" in
  let H := fresh "H" in
  intros w o w' H; exists []; rewrite app_nil_r; split; [|reflexivity];
  cbv beta delta [existsSync mkdirSync readFileSync writeFileSync unlinkSync
                  readdirSync resolve] in H;
  repeat match type of H with
         | context [match ?x with _ => _ end] => destruct x
         end;
  injection H as <- <-; reflexivity.


(** A run that has only logged and asked, or has done so up to the clone
    step and then ended as the clone step does. *)
Definition endsInClone (m : M unit) : Prop :=
  forall w o w', m w = (o, w') ->
    (exists shown, trace w' = (trace w ++ shown)%list /\
                   forallb isDialog shown = true) \/
    (exists w1 shown url target root,
       trace w1 = (trace w ++ shown)%list /\
       forallb isDialog shown = true /\
       cloneAndOpen url target root w1 = (o, w')).

(** ** The URL gate *)

(** The first argument is one of the options [main] handles itself. *)
Definition isOption (arg : string) : bool :=
  existsb (String.eqb arg)
          ["--help"; "-h"; "--version"; "-v"; "--config"; "-c";
           "--set-config"; "--reset-config"].



(** ** More sample worlds *)

(** A machine without an editor on which [git clone] ends with
    [gitStatus]. *)
Definition editorlessWorld (gitStatus : Z) (args : list string)
                           (env : option string) (files : FS.node)
                           (answers : list answer) : world :=
  World args env "linux" "/home/u" "/home/u"
        "/usr/lib/node_modules/git-clone-select/bin" sampleStamp true
        (noEditor gitStatus) files answers [].

Definition detachedIgnore : spawnOptions := SpawnOptions "ignore" None true.

Definition enoent (command : string) : spawnOutcome :=
  Spawned (SpawnResult (Some (Error ("spawnSync " ++ command ++ " ENOENT")))
                       None).

(** [git clone] fails with status 128 after the user asks for a new folder
    in the projects root and accepts the default name. *)
Definition failingCloneWorld : world :=
  editorlessWorld 128 ["https://github.com/user/repo.git"]
                  (Some "/home/u/Projects") sampleFiles
                  [Picked 0; Picked 0; Typed ""].


(** ** Path segments *)

Definition noSlash (s : string) : bool := negb (Str.includes Str.slash s).

(** A segment that names something: not empty, no slash, neither [.] nor
    [..]. *)
Definition plain (s : string) : bool :=
  negb (Str.isEmpty s) && noSlash s &&
  negb (String.eqb s ".") && negb (String.eqb s "..").

(** The absolute path with the given segments. *)
Definition absPath (segs : list string) : string :=
  "/" ++ String.concat "/" segs.

(** Every segment preceded by a slash. *)
Fixpoint render (segs : list string) : string :=
  match segs with
  | [] => ""
  | seg :: segs' => "/" ++ seg ++ render segs'
  end.

(** ** URL shapes *)

(** Every character of [s] satisfies [f]. *)
Fixpoint allChars (f : ascii -> bool) (s : string) : bool :=
  match s with
  | String c t => f c && allChars f t
  | EmptyString => true
  end.

(** The hosts the last three patterns of [validateGitUrl] name, with both
    schemes. *)
Definition hostedPrefixes : list string :=
  ["http://github.com/"; "https://github.com/";
   "http://gitlab.com/"; "https://gitlab.com/";
   "http://bitbucket.org/"; "https://bitbucket.org/"].

(** An owner or repository name as the hosted patterns read it: one or more
    characters of [[\w\-\.]]. *)
Definition isName (s : string) : bool :=
  negb (Str.isEmpty s) && allChars wordDashDot s.

(** ** What a run cannot change *)

(** Two worlds of one process: only the file system, the answers still to
    come and what has been shown may differ. *)
Definition sameProcess (w w' : world) : Prop :=
  argv w' = argv w /\ envProjectsDir w' = envProjectsDir w /\
  platform w' = platform w /\ homedir w' = homedir w /\ cwd w' = cwd w /\
  scriptDir w' = scriptDir w /\ now w' = now w /\
  gitVersionWorks w' = gitVersionWorks w /\ spawn w' = spawn w.

Definition steady {A} (m : M A) : Prop :=
  forall w o w', m w = (o, w') -> sameProcess w w'.

(** ** The processes a run starts *)

Definition isRan (e : event) : bool :=
  match e with Ran _ _ _ _ => true | _ => false end.

(** The options [cloneRepository] passes to [spawnSync]. *)
Definition gitOptions (root : string) : spawnOptions :=
  SpawnOptions "inherit" (Some root) false.

Definition gitClone (url target root : string) (out : spawnOutcome) : event :=
  Ran "git" ["clone"; url; target] (gitOptions root) out.

Definition editorRun (command target : string) (out : spawnOutcome) : event :=
  Ran command [target] detachedIgnore out.



(** ** Folder lists *)



(** ** The informational options *)




Definition gitMissing : event :=
  Logged ERROR
    "Git is not installed or not found in PATH. Please install Git first.".

Definition setConfigUsage : event :=
  Logged ERROR "Usage: git-clone --set-config <path>".

(** ** Folder names *)

(** What the folder-name prompts accept before they look at the file
    system: something other than white space, without slash or
    backslash. *)
Definition validName (typed : string) : bool :=
  negb (Str.isEmpty (Str.trim typed)) &&
  negb (Str.includes "/" typed) && negb (Str.includes "\" typed).

(** ** Sample runs *)

(** A machine on which [git --version] fails. *)
Definition gitlessWorld : world :=
  World ["https://github.com/user/repo.git"] None "linux" "/home/u" "/home/u"
        "/usr/lib/node_modules/git-clone-select/bin" sampleStamp false
        allSucceed sampleFiles [] [].

(** A clone into the existing folder [work], the editor declined. *)
Definition cloneIntoWork : world :=
  sampleWorld ["https://github.com/user/repo.git"] (Some "/home/u/Projects")
              sampleFiles [Picked 1; Picked 0; Keypress (Some "q") "q" false].


(** ** How a run ends *)


(** ** Cancelling *)

Definition cancelled : event := Logged INFO "Operation cancelled.".





Unset Implicit Arguments.

(** * Strings *)

Lemma append_nil_r (s : string) : s ++ "" = s.
Proof. induction s as [|c s IH]; simpl; [reflexivity | now rewrite IH]. Qed.

Lemma append_assoc (a b c : string) : (a ++ b) ++ c = a ++ (b ++ c).
Proof. induction a as [|x a IH]; simpl; [reflexivity | now rewrite IH]. Qed.

Lemma length_append (a b : string) :
  String.length (a ++ b) = String.length a + String.length b.
Proof. induction a as [|x a IH]; simpl; [reflexivity | now rewrite IH]. Qed.

Lemma prefix_nil (s : string) : String.prefix "" s = true.
Proof. now destruct s. Qed.

Lemma prefix_cons (c d : ascii) (p s : string) :
  String.prefix (String c p) (String d s) = Ascii.eqb c d && String.prefix p s.
Proof.
  cbn [String.prefix]. destruct (ascii_dec c d) as [->|H].
  - now rewrite Ascii.eqb_refl.
  - apply Ascii.eqb_neq in H. now rewrite H.
Qed.

Lemma prefix_append (p s : string) : String.prefix p (p ++ s) = true.
Proof.
  induction p as [|c p IH]; simpl.
  - now destruct s.
  - destruct (ascii_dec c c); [exact IH | congruence].
Qed.

Lemma prefix_split (p s : string) :
  String.prefix p s = true -> exists t, s = p ++ t.
Proof.
  revert s; induction p as [|c p IH]; intros s H.
  - now exists s.
  - destruct s as [|d s]; simpl in H; [discriminate|].
    destruct (ascii_dec c d); [subst d | discriminate].
    destruct (IH _ H) as [t ->]. now exists t.
Qed.

Lemma prefix_refl (s : string) : String.prefix s s = true.
Proof. rewrite <- (append_nil_r s) at 2. apply prefix_append. Qed.

Lemma take_append (a b : string) : Str.take (String.length a) (a ++ b) = a.
Proof. induction a as [|x a IH]; simpl; [now destruct b | now rewrite IH]. Qed.

Lemma rev_onto_append (s acc : string) :
  Str.rev_onto s acc = Str.rev s ++ acc.
Proof.
  unfold Str.rev. revert acc.
  induction s as [|c s IH]; intros acc; simpl; [reflexivity|].
  rewrite IH, (IH (String c "")), append_assoc. reflexivity.
Qed.

Lemma rev_append (a b : string) : Str.rev (a ++ b) = Str.rev b ++ Str.rev a.
Proof.
  induction a as [|x a IH]; simpl.
  - now rewrite append_nil_r.
  - unfold Str.rev in *; simpl.
    rewrite (rev_onto_append (a ++ b)), (rev_onto_append a).
    unfold Str.rev. rewrite IH, append_assoc. reflexivity.
Qed.

Lemma endsWith_append (a p : string) : Str.endsWith (a ++ p) p = true.
Proof. unfold Str.endsWith. rewrite rev_append. apply prefix_append. Qed.

Lemma includes_append (c : ascii) (a b : string) :
  Str.includes c (a ++ b) = Str.includes c a || Str.includes c b.
Proof.
  induction a as [|x a IH]; simpl; [reflexivity|].
  rewrite IH, orb_assoc. reflexivity.
Qed.

(** * The repository-name pattern *)


Lemma run_repoTail (st : mstate) :
  run repoTail st =
  if tailOk (rest st)
  then [MState (pos st + String.length (rest st)) "" (caps st)]
  else [].
Proof.
  destruct st as [p r c]. unfold repoTail, tailOk, Opt.
  crunch; try reflexivity; unfold advance; simpl; repeat f_equal; lia.
Qed.

Lemma iter_lazy_notSlash (n p : nat) (r : string) (c : list (nat * string)) :
  String.length r <= n ->
  iter false (run (Class notSlash)) n (MState p r c) =
  MState p r c :: lazyPrefixes p r c.
Proof.
  revert p r; induction n as [|n IH]; intros p r Hn.
  - destruct r; simpl in *; [reflexivity | lia].
  - simpl. destruct r as [|a t]; simpl; [reflexivity|].
    destruct (notSlash a); simpl; [|reflexivity].
    unfold progress; simpl.
    replace (p <? S p)%nat with true by (symmetry; apply Nat.ltb_lt; lia). simpl.
    rewrite app_nil_r. unfold advance; simpl.
    rewrite IH by (simpl in Hn; lia). reflexivity.
Qed.

Lemma run_lazy_plus (p : nat) (r : string) (c : list (nat * string)) :
  run (Plus false (Class notSlash)) (MState p r c) = lazyPrefixes p r c.
Proof.
  unfold Plus. simpl. destruct r as [|a t]; simpl; [reflexivity|].
  destruct (notSlash a); simpl; [|reflexivity].
  rewrite app_nil_r. unfold advance; simpl.
  rewrite iter_lazy_notSlash by lia. reflexivity.
Qed.

(** After [j] characters of the name have been read, the first match of
    the rest of the pattern is what [scanName] computes. *)
Lemma scan_lazyPrefixes (st0 : mstate) (j : nat) (r : string) :
  hd_error
    (flat_map (run repoTail)
              (map (capture 1 st0) (lazyPrefixes (pos st0 + j) r (caps st0)))) =
  match scanName r with
  | Some k => Some (MState (pos st0 + j + String.length r) ""
                           ((1, Str.take (j + k) (rest st0)) :: caps st0))
  | None => None
  end.
Proof.
  revert j; induction r as [|a t IH]; intros j;
    cbn [lazyPrefixes scanName map flat_map]; [reflexivity|].
  destruct (notSlash a); cbn [map flat_map]; [|reflexivity].
  rewrite run_repoTail. cbn [capture rest pos caps String.length].
  replace (pos st0 + j + S (String.length t))
    with (pos st0 + S j + String.length t) by lia.
  replace (j + 1) with (S j) by lia.
  destruct (tailOk t); cbn [app hd_error].
  - replace (S (pos st0 + j) - pos st0) with (S j) by lia.
    replace (S (pos st0 + j)) with (pos st0 + S j) by lia.
    replace (j + 1) with (S j) by lia. reflexivity.
  - replace (S (pos st0 + j)) with (pos st0 + S j) by lia.
    rewrite IH. destruct (scanName t) as [k|]; cbn [option_map]; [|reflexivity].
    replace (S j + k) with (j + S k) by lia. reflexivity.
Qed.

Lemma run_repoNamePattern (p : nat) (s : string) :
  hd_error (run repoNamePattern (MState p s [])) =
  match s with
  | String a body =>
      if Ascii.eqb a Str.slash then
        match scanName body with
        | Some k => Some (MState (S p + String.length body) ""
                                 [(1, Str.take k body)])
        | None => None
        end
      else None
  | EmptyString => None
  end.
Proof.
  unfold repoNamePattern.
  change (run (Seq (Chr "/") (Seq (Capture 1 (Plus false (Class notSlash))) repoTail))
              (MState p s []))
    with (flat_map (fun st => flat_map (run repoTail)
                      (map (capture 1 st) (run (Plus false (Class notSlash)) st)))
                   (run (Chr "/") (MState p s []))).
  destruct s as [|a body]; [reflexivity|].
  cbn [run rest]. unfold Str.slash.
  destruct (Ascii.eqb a "/"); [|reflexivity].
  cbn [flat_map]. rewrite app_nil_r. unfold advance. cbn [pos caps].
  rewrite run_lazy_plus.
  pose proof (scan_lazyPrefixes (MState (S p) body []) 0 body) as H.
  cbn [pos caps rest] in H. rewrite Nat.add_0_r in H. rewrite H.
  destruct (scanName body); reflexivity.
Qed.

Lemma search_head (r : regex) (p : nat) (s : string) :
  search r p s =
  match hd_error (run r (MState p s [])) with
  | Some st => Some (Result p st)
  | None =>
      match s with
      | String _ t => search r (S p) t
      | EmptyString => None
      end
  end.
Proof. destruct s; simpl; destruct (run r _); reflexivity. Qed.

(** A prefix in which the pattern matches nowhere is skipped. *)
Lemma search_skip (r : regex) (x s : string) (p : nat) :
  (forall x1 a x2 q, x = x1 ++ String a x2 ->
     run r (MState q (String a x2 ++ s) []) = []) ->
  search r p (x ++ s) = search r (p + String.length x) s.
Proof.
  revert p; induction x as [|a x IH]; intros p H.
  - simpl. now rewrite Nat.add_0_r.
  - rewrite search_head. cbn [append].
    change (String a (x ++ s)) with (String a x ++ s).
    rewrite (H "" a x p eq_refl). cbn [hd_error append].
    rewrite IH.
    + f_equal. simpl. lia.
    + intros x1 b x2 q ->. apply (H (String a x1) b x2 q). reflexivity.
Qed.

(** ** The iteration bound

    Every way to match keeps the index and the unread input in step, so an
    iteration that makes progress shortens the input: iterating at most
    [length (rest st)] times loses no match. *)

Lemma flat_map_inStep (f : mstate -> list mstate) (l : list mstate)
      (st : mstate) :
  Forall (inStep st) l ->
  (forall st1, inStep st st1 -> Forall (inStep st) (f st1)) ->
  Forall (inStep st) (flat_map f l).
Proof.
  intros Hl Hf. induction Hl as [|x l Hx Hl IH]; cbn; [constructor|].
  apply Forall_app. split; [apply Hf, Hx | exact IH].
Qed.

Lemma iter_inStep (greedy : bool) (step : mstate -> list mstate) (n : nat) :
  (forall st, Forall (inStep st) (step st)) ->
  forall st, Forall (inStep st) (iter greedy step n st).
Proof.
  intros Hstep. induction n as [|n IH]; intros st.
  - repeat constructor.
  - cbn [iter].
    assert (Hmore : Forall (inStep st)
              (flat_map (iter greedy step n) (filter (progress st) (step st)))).
    { apply flat_map_inStep.
      - apply Forall_forall. intros x Hx. apply filter_In in Hx.
        destruct Hx as [Hx _]. revert x Hx. apply Forall_forall, Hstep.
      - intros st1 H1. eapply Forall_impl; [|apply IH].
        intros st2 H2. unfold inStep in *. lia. }
    destruct greedy.
    + apply Forall_app. split; [exact Hmore | repeat constructor].
    + constructor; [reflexivity | exact Hmore].
Qed.

Lemma run_inStep (r : regex) (st : mstate) : Forall (inStep st) (run r st).
Proof.
  revert st. induction r as [|c|p|r1 IH1 r2 IH2|r1 IH1 r2 IH2|g r IH|n r IH| |];
    intros st; cbn [run].
  - repeat constructor.
  - destruct (rest st) as [|d t] eqn:E; [constructor|].
    destruct (Ascii.eqb d c); repeat constructor.
    unfold inStep, advance. cbn. rewrite E. cbn. lia.
  - destruct (rest st) as [|d t] eqn:E; [constructor|].
    destruct (p d); repeat constructor.
    unfold inStep, advance. cbn. rewrite E. cbn. lia.
  - apply flat_map_inStep; [apply IH1|].
    intros st1 H1. eapply Forall_impl; [|apply IH2].
    intros st2 H2. unfold inStep in *. lia.
  - apply Forall_app. split; [apply IH1 | apply IH2].
  - apply iter_inStep, IH.
  - apply Forall_forall. intros x Hx. apply in_map_iff in Hx.
    destruct Hx as (y & <- & Hy).
    pose proof (proj1 (Forall_forall _ _) (IH st) y Hy) as H.
    unfold inStep, capture in *. cbn. exact H.
  - destruct (pos st =? 0)%nat; repeat constructor.
  - destruct (rest st); repeat constructor.
Qed.

Lemma flat_map_agree (f g : mstate -> list mstate) (l : list mstate) :
  (forall x, In x l -> f x = g x) -> flat_map f l = flat_map g l.
Proof.
  induction l as [|x l IH]; intros H; [reflexivity|].
  cbn. rewrite (H x (or_introl eq_refl)), IH; [reflexivity|].
  intros y Hy. apply H. now right.
Qed.

(** More iterations than the unread input is long change nothing. *)
Lemma iter_enough (greedy : bool) (r : regex) (n : nat) (st : mstate) :
  String.length (rest st) <= n ->
  iter greedy (run r) (S n) st = iter greedy (run r) n st.
Proof.
  revert st. induction n as [|n IH]; intros st Hn.
  - cbn [iter].
    assert (Hnone : filter (progress st) (run r st) = []).
    { pose proof (run_inStep r st) as Hall.
      induction Hall as [|x l Hx Hl IHl]; [reflexivity|].
      cbn [filter]. unfold inStep in Hx.
      replace (progress st x) with false; [exact IHl|].
      symmetry. unfold progress. apply Nat.ltb_ge. lia. }
    rewrite Hnone. cbn. now destruct greedy.
  - change (iter greedy (run r) (S (S n)) st)
      with (let more := flat_map (iter greedy (run r) (S n))
                                 (filter (progress st) (run r st)) in
            if greedy then (more ++ [st])%list else st :: more).
    change (iter greedy (run r) (S n) st)
      with (let more := flat_map (iter greedy (run r) n)
                                 (filter (progress st) (run r st)) in
            if greedy then (more ++ [st])%list else st :: more).
    cbv zeta.
    assert (Hsame : flat_map (iter greedy (run r) (S n))
                             (filter (progress st) (run r st)) =
                    flat_map (iter greedy (run r) n)
                             (filter (progress st) (run r st))).
    { apply flat_map_agree. intros x Hx. apply filter_In in Hx.
      destruct Hx as [Hx Hp]. apply IH.
      pose proof (proj1 (Forall_forall _ _) (run_inStep r st) x Hx) as H.
      unfold inStep in H. unfold progress in Hp. apply Nat.ltb_lt in Hp. lia. }
    now rewrite Hsame.
Qed.

(** ** What the pattern captures *)


Lemma tailOk_slash_mid (x y : string) (a : ascii) :
  tailOk (x ++ String "/" (String a y)) = false.
Proof. unfold tailOk. crunch_app; reflexivity. Qed.

Lemma scanName_none (x y : string) (a : ascii) :
  scanName (x ++ String "/" (String a y)) = None.
Proof.
  induction x as [|b x IH]; [reflexivity|].
  cbn [append scanName]. rewrite tailOk_slash_mid, IH.
  now destruct (notSlash b).
Qed.

Lemma tailOk_inside_plain (b : ascii) (t : string) :
  Str.includes Str.slash (String b t) = false ->
  String b t <> ".git" ->
  tailOk (String b t ++ "") = false /\ tailOk (String b t ++ "/") = false.
Proof.
  unfold tailOk, Str.slash. revert b.
  split; revert H H0; crunch_app; intros; try reflexivity;
    try discriminate; congruence.
Qed.

Lemma tailOk_inside_git (b : ascii) (t : string) :
  tailOk (String b t ++ ".git") = false /\
  tailOk (String b t ++ ".git/") = false.
Proof. unfold tailOk. split; crunch_app; reflexivity. Qed.

Lemma tailOk_cases (s : string) :
  tailOk s = true -> s = "" \/ s = ".git" \/ s = "/" \/ s = ".git/".
Proof.
  unfold tailOk. rewrite !orb_true_iff, !String.eqb_eq. tauto.
Qed.

Lemma rev_cons (a : ascii) (t : string) :
  Str.rev (String a t) = Str.rev t ++ String a "".
Proof. unfold Str.rev at 1. simpl. apply rev_onto_append. Qed.

Lemma endsWith_cons (a : ascii) (t p : string) :
  Str.endsWith t p = true -> Str.endsWith (String a t) p = true.
Proof.
  unfold Str.endsWith. intros H. destruct (prefix_split _ _ H) as [z Hz].
  rewrite rev_cons, Hz, append_assoc. apply prefix_append.
Qed.

Lemma scanName_cons (suf t : string) (a : ascii) :
  Str.includes Str.slash (String a t) = false ->
  Str.endsWith (String a t) ".git" = false ->
  tailOk suf = true ->
  scanName (String a t ++ suf) = Some (S (String.length t)).
Proof.
  intros Hslash Hgit Hsuf. revert a Hslash Hgit.
  induction t as [|b t IH]; intros a Hslash Hgit.
  - cbn [append scanName]. cbn in Hslash. rewrite orb_false_r in Hslash.
    unfold notSlash. rewrite Hslash, Hsuf. reflexivity.
  - assert (Hb : Str.includes Str.slash (String b t) = false).
    { cbn in Hslash |- *. apply orb_false_iff in Hslash. tauto. }
    assert (Hbgit : Str.endsWith (String b t) ".git" = false).
    { destruct (Str.endsWith (String b t) ".git") eqn:E; [|reflexivity].
      now rewrite (endsWith_cons a _ _ E) in Hgit. }
    assert (Hne : String b t <> ".git").
    { intros E. rewrite E in Hbgit. discriminate. }
    assert (Hin : tailOk (String b t ++ suf) = false).
    { destruct (tailOk_cases _ Hsuf) as [-> | [-> | [-> | ->]]].
      - apply tailOk_inside_plain; assumption.
      - apply tailOk_inside_git.
      - apply tailOk_inside_plain; assumption.
      - apply tailOk_inside_git. }
    change (String a (String b t) ++ suf) with (String a (String b t ++ suf)).
    cbn [scanName]. rewrite Hin, (IH b Hb Hbgit).
    cbn in Hslash. apply orb_false_iff in Hslash. unfold notSlash.
    destruct Hslash as [-> _]. reflexivity.
Qed.

Lemma scanName_name (name suf : string) :
  cleanName name = true -> tailOk suf = true ->
  scanName (name ++ suf) = Some (String.length name).
Proof.
  unfold cleanName. rewrite !andb_true_iff, !negb_true_iff.
  intros [[Hne Hslash] Hgit] Hsuf.
  destruct name as [|a t]; [discriminate|].
  now apply scanName_cons.
Qed.

Lemma hd_error_nil {A} (l : list A) : hd_error l = None -> l = [].
Proof. destruct l; [reflexivity | discriminate]. Qed.

(** The pattern finds the last segment of [pre/name] and drops an accepted
    tail after it. *)
Lemma extractRepoName_segment (pre name suf : string) :
  cleanName name = true -> tailOk suf = true ->
  extractRepoName (pre ++ "/" ++ name ++ suf) = Some name.
Proof.
  intros Hname Hsuf.
  assert (Hne : exists c rest, name ++ suf = String c rest).
  { destruct name as [|c t]; [discriminate|]. now exists c, (t ++ suf). }
  destruct Hne as (c & rest & Hc).
  unfold extractRepoName, exec.
  rewrite search_skip.
  - rewrite search_head, run_repoNamePattern.
    cbn [append]. unfold Str.slash. cbn [Ascii.eqb Bool.eqb].
    rewrite (scanName_name _ _ Hname Hsuf), take_append. reflexivity.
  - intros x1 a x2 q _. apply hd_error_nil.
    rewrite run_repoNamePattern.
    change (String a x2 ++ "/" ++ name ++ suf)
      with (String a (x2 ++ String "/" (name ++ suf))).
    cbv iota. rewrite Hc, scanName_none.
    now destruct (Ascii.eqb a Str.slash).
Qed.

Lemma search_no_slash (url : string) (p : nat) :
  Str.includes Str.slash url = false -> search repoNamePattern p url = None.
Proof.
  revert p. induction url as [|a url IH]; intros p H.
  - reflexivity.
  - cbn in H. apply orb_false_iff in H. destruct H as [Ha Hurl].
    rewrite search_head, run_repoNamePattern, Ha. apply IH, Hurl.
Qed.

Lemma extractRepoName_no_slash (url : string) :
  Str.includes Str.slash url = false -> extractRepoName url = None.
Proof.
  intros H. unfold extractRepoName, exec. now rewrite search_no_slash.
Qed.

(** * The file system *)

Lemma assoc_put (name : string) (n : FS.node) (es : list (string * FS.node)) :
  FS.assoc name (FS.put name n es) = Some n.
Proof.
  induction es as [|[k m] es IH]; simpl.
  - now rewrite String.eqb_refl.
  - destruct (String.eqb k name) eqn:E; simpl; rewrite E; [reflexivity | exact IH].
Qed.

Lemma assoc_remove (name : string) (es : list (string * FS.node)) :
  FS.assoc name (FS.remove name es) = None.
Proof.
  unfold FS.remove.
  induction es as [|[k m] es IH]; simpl; [reflexivity|].
  destruct (String.eqb k name) eqn:E; simpl; [exact IH | now rewrite E].
Qed.

Lemma unlink_deeper (seg seg2 : string) (segs : list string)
                     (es : list (string * FS.node)) :
  FS.unlink (seg :: seg2 :: segs) (FS.Dir es) =
  match FS.assoc seg es with
  | Some child =>
      match FS.unlink (seg2 :: segs) child with
      | Some child' => Some (FS.Dir (FS.put seg child' es))
      | None => None
      end
  | None => None
  end.
Proof. reflexivity. Qed.

(** Once a file is unlinked, nothing is found at its path. *)
Lemma lookup_unlink (segs : list string) (n n' : FS.node) :
  FS.unlink segs n = Some n' -> FS.lookup segs n' = None.
Proof.
  revert n n'. induction segs as [|seg segs IH]; intros n n' H.
  - destruct n; simpl in H; discriminate.
  - destruct n as [content|es]; [simpl in H; discriminate|].
    destruct segs as [|seg2 segs].
    + simpl in H. destruct (FS.assoc seg es) as [[content|es']|]; try discriminate.
      injection H as <-. simpl. now rewrite assoc_remove.
    + rewrite unlink_deeper in H.
      destruct (FS.assoc seg es) as [child|]; [|discriminate].
      destruct (FS.unlink (seg2 :: segs) child) as [child'|] eqn:E; [|discriminate].
      injection H as <-. cbn [FS.lookup]. rewrite assoc_put.
      exact (IH _ _ E).
Qed.

(** A regular file below a directory can be unlinked. *)
Lemma unlink_file (segs : list string) (n : FS.node) (content : string) :
  FS.isDirectory n = true ->
  FS.lookup segs n = Some (FS.File content) ->
  exists n', FS.unlink segs n = Some n'.
Proof.
  revert n. induction segs as [|seg segs IH]; intros n Hdir H.
  - simpl in H. injection H as ->. discriminate.
  - destruct n as [c|es]; [discriminate|].
    cbn [FS.lookup] in H.
    destruct (FS.assoc seg es) as [child|] eqn:E; [|discriminate].
    destruct segs as [|seg2 segs].
    + simpl in H. injection H as ->. simpl. rewrite E. eauto.
    + rewrite unlink_deeper, E.
      destruct child as [c|es']; [discriminate|].
      destruct (IH (FS.Dir es') eq_refl H) as [n' ->]. eauto.
Qed.

(** * Paths *)

Lemma split_not_nil (s : string) : exists h t, Path.split s = h :: t.
Proof.
  induction s as [|c s (h & t & IH)]; simpl; [eauto|].
  destruct (Ascii.eqb c Str.slash); [eauto|]. rewrite IH. eauto.
Qed.

Lemma split_app (a b : string) :
  Path.split (a ++ String "/" b) = (Path.split a ++ Path.split b)%list.
Proof.
  induction a as [|c a IH]; [reflexivity|].
  cbn [append Path.split]. rewrite IH.
  destruct (Ascii.eqb c Str.slash); [reflexivity|].
  destruct (split_not_nil a) as (h & t & ->). reflexivity.
Qed.

Lemma split_noSlash (s : string) : noSlash s = true -> Path.split s = [s].
Proof.
  unfold noSlash. induction s as [|c s IH]; [reflexivity|].
  cbn. intros H. apply negb_true_iff, orb_false_iff in H. destruct H as [Hc Hs].
  rewrite Hc, IH; [reflexivity|]. now rewrite Hs.
Qed.

Lemma split_all_noSlash (s : string) :
  forallb noSlash (Path.split s) = true.
Proof.
  induction s as [|c s IH]; [reflexivity|]. cbn [Path.split].
  destruct (Ascii.eqb c Str.slash) eqn:E; [exact IH|].
  destruct (Path.split s) as [|h t]; cbn in *.
  - unfold noSlash. cbn. now rewrite E.
  - apply andb_true_iff in IH. destruct IH as [Hh Ht].
    rewrite Ht, andb_true_r. unfold noSlash in *. cbn. now rewrite E.
Qed.

Lemma plain_noSlash (s : string) : plain s = true -> noSlash s = true.
Proof. unfold plain. rewrite !andb_true_iff. tauto. Qed.

Lemma pushSegment_plain (allow : bool) (acc : list string) (seg : string) :
  plain seg = true -> Path.pushSegment allow acc seg = seg :: acc.
Proof.
  unfold plain, Path.pushSegment. rewrite !andb_true_iff, !negb_true_iff.
  intros [[[He _] Hd] Hdd].
  destruct seg as [|c seg]; [discriminate|].
  rewrite Hd, Hdd. reflexivity.
Qed.

Lemma fold_pushSegment_plain (allow : bool) (segs acc : list string) :
  forallb plain segs = true ->
  fold_left (Path.pushSegment allow) segs acc = (List.rev segs ++ acc)%list.
Proof.
  revert acc. induction segs as [|s segs IH]; intros acc H; [reflexivity|].
  cbn in H. apply andb_true_iff in H. destruct H as [Hs Hsegs].
  cbn [fold_left List.rev]. rewrite (pushSegment_plain _ _ _ Hs), IH by exact Hsegs.
  now rewrite <- app_assoc.
Qed.

(** With [allowAboveRoot] off, [normalizeString] keeps plain segments only. *)
Lemma pushSegment_keeps_plain (acc : list string) (seg : string) :
  forallb plain acc = true -> noSlash seg = true ->
  forallb plain (Path.pushSegment false acc seg) = true.
Proof.
  intros Hacc Hseg. unfold Path.pushSegment.
  destruct (String.eqb seg "") eqn:E1; [exact Hacc|].
  destruct (String.eqb seg ".") eqn:E2; [exact Hacc|].
  cbn [orb].
  destruct (String.eqb seg "..") eqn:E3.
  - destruct acc as [|top acc]; [reflexivity|].
    cbn in Hacc. apply andb_true_iff in Hacc. destruct Hacc as [Htop Hacc].
    destruct (String.eqb top ".."); [cbn; now rewrite Htop, Hacc | exact Hacc].
  - cbn. rewrite Hacc, andb_true_r. unfold plain.
    rewrite Hseg, E2, E3. destruct seg; [discriminate | reflexivity].
Qed.

Lemma fold_pushSegment_keeps_plain (segs acc : list string) :
  forallb plain acc = true -> forallb noSlash segs = true ->
  forallb plain (fold_left (Path.pushSegment false) segs acc) = true.
Proof.
  revert acc. induction segs as [|s segs IH]; intros acc Hacc H; [exact Hacc|].
  cbn in H. apply andb_true_iff in H. destruct H as [Hs Hsegs].
  cbn [fold_left]. apply IH; [|exact Hsegs].
  now apply pushSegment_keeps_plain.
Qed.

Lemma forallb_rev {A} (f : A -> bool) (l : list A) :
  forallb f (List.rev l) = forallb f l.
Proof.
  induction l as [|x l IH]; [reflexivity|].
  cbn. rewrite forallb_app, IH. cbn. rewrite andb_true_r. apply andb_comm.
Qed.

Lemma normalizeSegments_plain (p : string) :
  forallb plain (Path.normalizeSegments false (Path.split p)) = true.
Proof.
  unfold Path.normalizeSegments. rewrite forallb_rev.
  apply fold_pushSegment_keeps_plain; [reflexivity | apply split_all_noSlash].
Qed.

Lemma absPath_render (seg : string) (segs : list string) :
  absPath (seg :: segs) = render (seg :: segs).
Proof.
  unfold absPath. revert seg. induction segs as [|s segs IH]; intros seg.
  - cbn. now rewrite append_nil_r.
  - specialize (IH s). cbn [String.concat render] in *.
    cbn [append] in *. injection IH as IH. now rewrite IH.
Qed.

Lemma split_seg_render (seg : string) (segs : list string) :
  noSlash seg = true -> forallb noSlash segs = true ->
  Path.split (seg ++ render segs) = seg :: segs.
Proof.
  revert seg. induction segs as [|s segs IH]; intros seg Hseg H.
  - cbn. rewrite append_nil_r. now apply split_noSlash.
  - cbn in H. apply andb_true_iff in H. destruct H as [Hs Hsegs].
    cbn [render append]. rewrite split_app, (split_noSlash _ Hseg).
    now rewrite (IH s Hs Hsegs).
Qed.

Lemma forallb_plain_noSlash (segs : list string) :
  forallb plain segs = true -> forallb noSlash segs = true.
Proof.
  induction segs as [|s segs IH]; [reflexivity|]. cbn.
  intros H. apply andb_true_iff in H. destruct H as [Hs Hsegs].
  now rewrite (plain_noSlash _ Hs), IH.
Qed.

Lemma filter_plain_nonempty (segs : list string) :
  forallb plain segs = true ->
  filter (fun seg => negb (Str.isEmpty seg)) segs = segs.
Proof.
  induction segs as [|s segs IH]; [reflexivity|]. cbn.
  intros H. apply andb_true_iff in H. destruct H as [Hs Hsegs].
  rewrite (IH Hsegs). unfold plain in Hs. rewrite !andb_true_iff in Hs.
  destruct Hs as [[[-> _] _] _]. reflexivity.
Qed.

Lemma segments_absPath (segs : list string) :
  forallb plain segs = true -> Path.segments (absPath segs) = segs.
Proof.
  intros H. destruct segs as [|s segs]; [reflexivity|].
  rewrite absPath_render. unfold Path.segments.
  change (render (s :: segs)) with ("" ++ render (s :: segs)).
  rewrite split_seg_render by (auto using forallb_plain_noSlash).
  exact (filter_plain_nonempty _ H).
Qed.

(** In a process with an absolute working directory, [path.resolve] gives
    an absolute path made of plain segments. *)
Lemma resolve_absPath (cwd p : string) :
  Path.isAbsolute cwd = true ->
  exists segs, forallb plain segs = true /\
               Path.resolve cwd [p] = absPath segs.
Proof.
  intros Hcwd. unfold Path.resolve. cbn [List.rev app Path.gather].
  assert (Hne : Str.isEmpty cwd = false) by (now destruct cwd).
  destruct (Str.isEmpty p); [|destruct (Path.isAbsolute p)];
    rewrite ?Hne, ?Hcwd; cbn [negb];
    (eexists; split; [apply normalizeSegments_plain | reflexivity]).
Qed.

Lemma render_slash (segs : list string) :
  exists z, render segs ++ "/" = String "/" z.
Proof. destruct segs; cbn; eauto. Qed.

Lemma prefix_seg (a b x y : string) :
  noSlash a = true -> noSlash b = true ->
  String.prefix (b ++ String "/" x) (a ++ String "/" y) =
  String.eqb b a && String.prefix (String "/" x) (String "/" y).
Proof.
  unfold noSlash. revert a. induction b as [|d b IH]; intros a Ha Hb.
  - destruct a as [|c a]; [reflexivity|].
    cbn in Ha. apply negb_true_iff, orb_false_iff in Ha. destruct Ha as [Hc _].
    cbn [append String.eqb andb]. rewrite prefix_cons.
    rewrite Ascii.eqb_sym. unfold Str.slash in Hc. now rewrite Hc.
  - cbn in Hb. apply negb_true_iff, orb_false_iff in Hb. destruct Hb as [Hd Hb].
    destruct a as [|c a].
    + cbn [append String.eqb andb]. rewrite prefix_cons.
      unfold Str.slash in Hd. now rewrite Hd.
    + cbn in Ha. apply negb_true_iff, orb_false_iff in Ha. destruct Ha as [_ Ha].
      cbn [append String.eqb]. rewrite prefix_cons.
      rewrite IH by (now apply negb_true_iff). now rewrite andb_assoc.
Qed.

(** On rendered paths, the prefix test with a separator boundary is the
    prefix relation on segments. *)
Lemma prefix_render (root target : list string) :
  forallb plain root = true -> forallb plain target = true ->
  String.prefix (render root ++ "/") (render target ++ "/") =
  isPrefixOf root target.
Proof.
  revert target. induction root as [|b root IH]; intros target Hr Ht.
  - destruct (render_slash target) as [z ->].
    cbn [render append]. now rewrite prefix_cons, prefix_nil.
  - cbn in Hr. apply andb_true_iff in Hr. destruct Hr as [Hb Hr].
    destruct target as [|a target].
    + cbn [render append isPrefixOf]. rewrite prefix_cons.
      destruct b; [discriminate | reflexivity].
    + cbn in Ht. apply andb_true_iff in Ht. destruct Ht as [Ha Ht].
      cbn [render isPrefixOf]. rewrite !append_assoc.
      destruct (render_slash root) as [x Hx].
      destruct (render_slash target) as [y Hy].
      cbn [append]. rewrite prefix_cons. cbn [Ascii.eqb Bool.eqb andb].
      rewrite Hx, Hy, prefix_seg by (now apply plain_noSlash).
      rewrite <- Hx, <- Hy, IH by assumption. reflexivity.
Qed.

(** ** The containment check on resolved paths *)

(** What the check tests, on strings: equality, or the root followed by a
    separator as a prefix. *)
Lemma validatePath_string (cwd target root : string) :
  validatePathWithinProjectsDir cwd target root =
  if String.eqb (Path.resolve cwd [target]) (Path.resolve cwd [root]) ||
     String.prefix (Path.resolve cwd [root] ++ "/") (Path.resolve cwd [target] ++ "/")
  then Some (Path.resolve cwd [target])
  else None.
Proof.
  unfold validatePathWithinProjectsDir, Str.startsWith, Path.sep.
  destruct (String.eqb _ _); destruct (String.prefix _ _); reflexivity.
Qed.

(** Below any root other than the root directory, the check accepts exactly
    the root and its descendants. *)
Lemma validatePath_within (cwd target root : string) :
  Path.isAbsolute cwd = true ->
  Path.resolve cwd [root] <> "/" ->
  validatePathWithinProjectsDir cwd target root =
  if isWithin cwd target root then Some (Path.resolve cwd [target]) else None.
Proof.
  intros Hcwd Hroot. rewrite validatePath_string. unfold isWithin.
  destruct (@resolve_absPath cwd target Hcwd) as (A & HA & ->).
  destruct (@resolve_absPath cwd root Hcwd) as (B & HB & EB).
  rewrite EB in *. rewrite !segments_absPath by assumption.
  destruct B as [|b B]; [now elim Hroot|].
  rewrite (absPath_render b B).
  destruct A as [|a A].
  - (* the target is the root directory *)
    cbn in HB. apply andb_true_iff in HB. destruct HB as [Hb _].
    destruct b as [|c b]; [discriminate|].
    assert (Hc : Ascii.eqb c "/" = false).
    { pose proof (plain_noSlash _ Hb) as Hn. unfold noSlash in Hn.
      cbn in Hn. apply negb_true_iff, orb_false_iff in Hn. tauto. }
    cbn [absPath String.concat render append String.eqb Ascii.eqb Bool.eqb
         andb isPrefixOf orb].
    rewrite !prefix_cons, Hc. reflexivity.
  - rewrite (absPath_render a A), prefix_render by assumption.
    destruct (isPrefixOf (b :: B) (a :: A)) eqn:Hp;
      [now rewrite orb_true_r|].
    rewrite orb_false_r.
    destruct (String.eqb_spec (render (a :: A)) (render (b :: B))) as [E|];
      [|reflexivity].
    rewrite <- (prefix_render (b :: B) (a :: A)), E, prefix_refl in Hp
      by assumption.
    discriminate.
Qed.

(** ** Joining plain names onto an absolute path *)

Lemma concat_snoc (segs : list string) (s : string) :
  segs <> [] ->
  String.concat "/" (segs ++ [s]) = String.concat "/" segs ++ "/" ++ s.
Proof.
  induction segs as [|x segs IH]; [congruence|]. intros _.
  destruct segs as [|y segs]; [reflexivity|].
  change ((x :: y :: segs) ++ [s])%list with (x :: ((y :: segs) ++ [s]))%list.
  change (String.concat "/" (x :: (y :: segs) ++ [s]))
    with (x ++ "/" ++ String.concat "/" ((y :: segs) ++ [s])).
  rewrite IH by discriminate.
  change (String.concat "/" (x :: y :: segs))
    with (x ++ "/" ++ String.concat "/" (y :: segs)).
  now rewrite !append_assoc.
Qed.

Lemma absPath_snoc (segs : list string) (s : string) :
  segs <> [] -> absPath (segs ++ [s]) = absPath segs ++ "/" ++ s.
Proof.
  intros H. unfold absPath. rewrite concat_snoc by exact H.
  now rewrite !append_assoc.
Qed.

Lemma hasTrailingSep_plain (x s : string) :
  plain s = true -> Path.hasTrailingSep (x ++ s) = false.
Proof.
  intros H. pose proof (plain_noSlash _ H) as Hn. unfold noSlash in Hn.
  apply negb_true_iff in Hn.
  assert (Hne : s <> "") by (destruct s; [discriminate | congruence]).
  clear H. unfold Path.hasTrailingSep. rewrite rev_append.
  revert Hn Hne. induction s as [|c s IH]; intros Hn Hne; [congruence|].
  cbn in Hn. apply orb_false_iff in Hn. destruct Hn as [Hc Hs].
  rewrite rev_cons, append_assoc.
  destruct s as [|d s].
  - cbn. exact Hc.
  - specialize (IH Hs ltac:(discriminate)).
    destruct (Str.rev (String d s)) as [|e r] eqn:E.
    + exfalso. rewrite rev_cons in E. destruct (Str.rev s); discriminate.
    + exact IH.
Qed.

Lemma concat_not_empty (segs : list string) (s : string) :
  plain s = true -> Str.isEmpty (String.concat "/" (segs ++ [s])) = false.
Proof.
  intros H. assert (Hs : exists c t, s = String c t).
  { destruct s as [|c t]; [discriminate | eauto]. }
  destruct Hs as (c & t & ->).
  induction segs as [|x segs IH]; [reflexivity|].
  destruct segs as [|y segs]; cbn [app String.concat] in *.
  - destruct x; reflexivity.
  - destruct x; [reflexivity | reflexivity].
Qed.

Lemma normalize_split_snoc (root s : string) :
  plain s = true ->
  Path.normalizeSegments false (Path.split (root ++ "/" ++ s)) =
  (Path.normalizeSegments false (Path.split root) ++ [s])%list.
Proof.
  intros H. unfold Path.normalizeSegments.
  change (root ++ "/" ++ s) with (root ++ String "/" s).
  rewrite split_app, (split_noSlash _ (plain_noSlash _ H)), fold_left_app.
  cbn [fold_left]. now rewrite (pushSegment_plain _ _ _ H).
Qed.

(** [path.join(root, name)] for an absolute root and a plain name. *)
Lemma join_abs_plain (root s : string) :
  Path.isAbsolute root = true -> plain s = true ->
  Path.join [root; s] =
  absPath (Path.normalizeSegments false (Path.split root) ++ [s]).
Proof.
  intros Hroot Hs. unfold Path.join.
  assert (Hr : Str.isEmpty root = false) by (now destruct root).
  assert (Hse : Str.isEmpty s = false) by (now destruct s).
  cbn [filter]. rewrite Hr, Hse. cbn [negb String.concat].
  unfold Path.normalize.
  assert (Hc : Str.isEmpty (root ++ "/" ++ s) = false) by (now destruct root).
  assert (Ha : Path.isAbsolute (root ++ "/" ++ s) = true)
    by (destruct root; [discriminate | exact Hroot]).
  rewrite Hc, Ha. cbn [negb]. unfold Path.normalizeString, Path.sep.
  rewrite normalize_split_snoc, concat_not_empty by exact Hs.
  rewrite <- append_assoc, hasTrailingSep_plain by exact Hs. reflexivity.
Qed.

Lemma normalize_absPath (segs : list string) :
  forallb plain segs = true ->
  Path.normalizeSegments false (Path.split (absPath segs)) = segs.
Proof.
  intros H. destruct segs as [|s segs]; [reflexivity|].
  rewrite absPath_render.
  change (render (s :: segs)) with ("" ++ render (s :: segs)).
  rewrite split_seg_render by (auto using forallb_plain_noSlash).
  unfold Path.normalizeSegments.
  change (fold_left (Path.pushSegment false) ("" :: s :: segs) [])
    with (fold_left (Path.pushSegment false) (s :: segs) []).
  rewrite fold_pushSegment_plain by exact H.
  now rewrite app_nil_r, rev_involutive.
Qed.

(** The target computed for an existing folder [folder] and a repository
    name [repo], both plain: [repo] nested inside [folder]. *)
Lemma join_nested (root folder repo : string) :
  Path.isAbsolute root = true -> plain folder = true -> plain repo = true ->
  Path.join [Path.join [root; folder]; repo] =
  Path.join [root; folder] ++ "/" ++ repo.
Proof.
  intros Hroot Hf Hr. rewrite (@join_abs_plain root folder Hroot Hf).
  set (R := Path.normalizeSegments false (Path.split root)).
  assert (HR : forallb plain (R ++ [folder]) = true).
  { rewrite forallb_app. unfold R. rewrite normalizeSegments_plain.
    cbn. now rewrite Hf. }
  rewrite join_abs_plain by (reflexivity || exact Hr).
  rewrite normalize_absPath by exact HR.
  apply absPath_snoc. now destruct R.
Qed.

(** ** The shape of repository names *)

Lemma scanName_take (r : string) (k : nat) :
  scanName r = Some k ->
  Str.isEmpty (Str.take k r) = false /\ noSlash (Str.take k r) = true.
Proof.
  unfold noSlash. revert k. induction r as [|a t IH]; intros k H; [discriminate|].
  cbn [scanName] in H. unfold notSlash in H.
  destruct (Ascii.eqb a Str.slash) eqn:Ha; [discriminate|]. cbn [negb] in H.
  destruct (tailOk t).
  - injection H as <-. cbn. now rewrite Ha.
  - destruct (scanName t) as [k'|]; [|discriminate].
    injection H as <-. destruct (IH k' eq_refl) as [_ Hn].
    cbn. rewrite Ha. split; [reflexivity | exact Hn].
Qed.

Lemma search_repo_caps (s : string) (p : nat) (m : result) :
  search repoNamePattern p s = Some m ->
  exists body k, scanName body = Some k /\
                 caps (final m) = [(1, Str.take k body)].
Proof.
  revert p. induction s as [|a s IH]; intros p H;
    rewrite search_head, run_repoNamePattern in H.
  - discriminate.
  - destruct (Ascii.eqb a Str.slash); [|exact (IH _ H)].
    destruct (scanName s) as [k|] eqn:E; [|exact (IH _ H)].
    injection H as <-. exists s, k. now split.
Qed.

(** What the pattern captures is a non-empty text without a slash. *)
Lemma extractRepoName_shape (url name : string) :
  extractRepoName url = Some name ->
  Str.isEmpty name = false /\ noSlash name = true.
Proof.
  unfold extractRepoName, exec.
  destruct (search repoNamePattern 0 url) as [m|] eqn:E; [|discriminate].
  destruct (search_repo_caps _ _ _ E) as (body & k & Hk & ->).
  cbn. intros H. injection H as <-. now apply scanName_take.
Qed.

Lemma defaultRepoName_shape (url : string) :
  Str.isEmpty (defaultRepoName url) = false /\
  noSlash (defaultRepoName url) = true.
Proof.
  unfold defaultRepoName.
  destruct (extractRepoName url) as [name|] eqn:E; [|now split].
  destruct (extractRepoName_shape _ _ E) as [He Hn]. rewrite He. now split.
Qed.

(** A default name is plain unless it is a dot segment. *)
Lemma defaultRepoName_plain (url : string) :
  defaultRepoName url <> "." -> defaultRepoName url <> ".." ->
  plain (defaultRepoName url) = true.
Proof.
  intros H1 H2. destruct (defaultRepoName_shape url) as [He Hn].
  unfold plain. rewrite He, Hn.
  apply String.eqb_neq in H1, H2. now rewrite H1, H2.
Qed.

(** ** Creating directories and writing files *)

Lemma assoc_put_other (name k : string) (n : FS.node)
      (es : list (string * FS.node)) :
  String.eqb name k = false ->
  FS.assoc k (FS.put name n es) = FS.assoc k es.
Proof.
  intros Hk. induction es as [|[k' m] es IH]; simpl.
  - now rewrite Hk.
  - destruct (String.eqb k' name) eqn:E; simpl.
    + apply String.eqb_eq in E. subst k'. now rewrite Hk.
    + now rewrite IH.
Qed.

Lemma lookup_put (seg s : string) (p : list string) (child : FS.node)
      (es : list (string * FS.node)) :
  FS.lookup (s :: p) (FS.Dir (FS.put seg child es)) =
  if String.eqb seg s then FS.lookup p child
  else FS.lookup (s :: p) (FS.Dir es).
Proof.
  cbn [FS.lookup]. destruct (String.eqb_spec seg s) as [->|N].
  - now rewrite assoc_put.
  - rewrite assoc_put_other; [reflexivity|]. now apply String.eqb_neq.
Qed.

Lemma write_deeper (seg seg2 : string) (segs : list string) (content : string)
      (es : list (string * FS.node)) :
  FS.write (seg :: seg2 :: segs) content (FS.Dir es) =
  match FS.assoc seg es with
  | Some child =>
      match FS.write (seg2 :: segs) content child with
      | Some child' => Some (FS.Dir (FS.put seg child' es))
      | None => None
      end
  | None => None
  end.
Proof. reflexivity. Qed.

Lemma write_last (seg content : string) (es : list (string * FS.node)) :
  FS.write [seg] content (FS.Dir es) =
  match FS.assoc seg es with
  | Some (FS.Dir _) => None
  | _ => Some (FS.Dir (FS.put seg (FS.File content) es))
  end.
Proof. reflexivity. Qed.

(** What was written is what is read back. *)
Lemma lookup_write (segs : list string) (content : string) (n n' : FS.node) :
  FS.write segs content n = Some n' ->
  FS.lookup segs n' = Some (FS.File content).
Proof.
  revert n n'. induction segs as [|seg segs IH]; intros n n' H.
  - destruct n; discriminate.
  - destruct n as [c|es]; [discriminate|].
    destruct segs as [|seg2 segs].
    + rewrite write_last in H.
      destruct (FS.assoc seg es) as [[c|es']|]; try discriminate;
        injection H as <-; rewrite lookup_put, String.eqb_refl; reflexivity.
    + rewrite write_deeper in H.
      destruct (FS.assoc seg es) as [child|]; [|discriminate].
      destruct (FS.write (seg2 :: segs) content child) as [child'|] eqn:E;
        [|discriminate].
      injection H as <-. rewrite lookup_put, String.eqb_refl. eauto.
Qed.

(** Writing a file makes nothing disappear. *)
Lemma write_keeps (segs : list string) (content : string) (n n' : FS.node)
      (p : list string) (x : FS.node) :
  FS.write segs content n = Some n' ->
  FS.lookup p n = Some x ->
  exists y, FS.lookup p n' = Some y.
Proof.
  revert n n' p x. induction segs as [|seg segs IH]; intros n n' p x H L.
  - destruct n; discriminate.
  - destruct n as [c|es]; [discriminate|].
    destruct p as [|s p]; [cbn; eauto|].
    destruct segs as [|seg2 segs].
    + rewrite write_last in H.
      assert (Hn : n' = FS.Dir (FS.put seg (FS.File content) es) /\
                   forall es', FS.assoc seg es <> Some (FS.Dir es')).
      { destruct (FS.assoc seg es) as [[c|es']|]; try discriminate;
          injection H as <-; split; congruence. }
      destruct Hn as [-> Hnd]. rewrite lookup_put.
      destruct (String.eqb_spec seg s) as [->|N]; [|eauto].
      cbn [FS.lookup] in L.
      destruct (FS.assoc s es) as [[c|es']|] eqn:A; try discriminate.
      destruct p; [cbn; eauto | discriminate].
    + rewrite write_deeper in H.
      destruct (FS.assoc seg es) as [child|] eqn:A; [|discriminate].
      destruct (FS.write (seg2 :: segs) content child) as [child'|] eqn:E;
        [|discriminate].
      injection H as <-. rewrite lookup_put.
      destruct (String.eqb_spec seg s) as [->|N]; [|eauto].
      cbn [FS.lookup] in L. rewrite A in L. eauto.
Qed.

(** After [mkdir -p] there is a directory at the path. *)
Lemma lookup_mkdirp (segs : list string) (n n' : FS.node) :
  FS.mkdirp segs n = Some n' ->
  exists es, FS.lookup segs n' = Some (FS.Dir es).
Proof.
  revert n n'. induction segs as [|seg segs IH]; intros n n' H.
  - destruct n as [c|es]; [discriminate|]. injection H as <-. cbn. eauto.
  - destruct n as [c|es]; [discriminate|]. cbn [FS.mkdirp] in H.
    destruct (FS.mkdirp segs _) as [child'|] eqn:E; [|discriminate].
    injection H as <-. rewrite lookup_put, String.eqb_refl. eauto.
Qed.

(** [mkdir -p] makes nothing disappear, and changes no regular file. *)
Lemma mkdirp_keeps (segs : list string) (n n' : FS.node) (p : list string)
      (x : FS.node) :
  FS.mkdirp segs n = Some n' ->
  FS.lookup p n = Some x ->
  exists y, FS.lookup p n' = Some y /\
            FS.isDirectory y = FS.isDirectory x.
Proof.
  revert n n' p x. induction segs as [|seg segs IH]; intros n n' p x H L.
  - destruct n as [c|es]; [discriminate|]. injection H as <-. eauto.
  - destruct n as [c|es]; [discriminate|]. cbn [FS.mkdirp] in H.
    destruct (FS.mkdirp segs _) as [child'|] eqn:E; [|discriminate].
    injection H as <-.
    destruct p as [|s p]; [cbn in *; injection L as <-; eauto|].
    rewrite lookup_put.
    destruct (String.eqb_spec seg s) as [->|N]; [|eauto].
    cbn [FS.lookup] in L.
    destruct (FS.assoc s es) as [child|] eqn:A; [|discriminate].
    eauto.
Qed.

(** [mkdir -p] succeeds on a directory that is there. *)
Lemma mkdirp_present (segs : list string) (n : FS.node)
      (es : list (string * FS.node)) :
  FS.isDirectory n = true ->
  FS.lookup segs n = Some (FS.Dir es) ->
  exists n', FS.mkdirp segs n = Some n'.
Proof.
  revert n. induction segs as [|seg segs IH]; intros n Hn L.
  - destruct n; [discriminate|]. cbn. eauto.
  - destruct n as [c|es0]; [discriminate|]. cbn [FS.lookup FS.mkdirp] in *.
    destruct (FS.assoc seg es0) as [child|]; [|discriminate].
    assert (Hc : FS.isDirectory child = true).
    { destruct child; [|reflexivity]. destruct segs; discriminate. }
    destruct (IH child Hc L) as [n' ->]. eauto.
Qed.

(** ** Repository names *)

(** A name that ends in [.git] loses that suffix, as the pattern is
    written: such names are not clean. *)
Example extractRepoName_strips_inner_git :
  extractRepoName "https://host/owner/a.git" = Some "a" /\
  extractRepoName "https://host/owner/a.git.git" = Some "a.git".
Proof. split; reflexivity. Qed.

(** A URL with a host and nothing else yields the host. *)
Example extractRepoName_host_only :
  extractRepoName "https://github.com" = Some "github.com".
Proof. reflexivity. Qed.

(** C2, as stated, fails for a name that itself ends in [.git]: the two
    URLs built from the name [a.git] do not both give [a.git]. *)
Lemma extractRepoName_git_name_counterexample :
  ~ (extractRepoName ("https://" ++ "host" ++ "/" ++ "owner" ++ "/" ++ "a.git" ++ ".git")
       = Some "a.git" /\
     extractRepoName ("https://" ++ "host" ++ "/" ++ "owner" ++ "/" ++ "a.git")
       = Some "a.git").
Proof. intros [_ H]. vm_compute in H. discriminate. Qed.

(** C2, amended: extraction drops a trailing [.git] and a trailing slash and
    returns the last path segment, so for every host, every owner and every
    clean name (not empty, no slash, not itself ending in [.git]) the URLs
    [https://host/owner/name.git] and [https://host/owner/name] both give
    [name], which then is the default folder name; when extraction fails,
    as it does for a URL without any slash, the default is the literal
    [repository]. *)
Theorem extractRepoName_same_name (host owner name : string) :
  cleanName name = true ->
  extractRepoName ("https://" ++ host ++ "/" ++ owner ++ "/" ++ name ++ ".git")
    = Some name /\
  extractRepoName ("https://" ++ host ++ "/" ++ owner ++ "/" ++ name)
    = Some name /\
  extractRepoName ("https://" ++ host ++ "/" ++ owner ++ "/" ++ name ++ ".git/")
    = Some name /\
  extractRepoName ("https://" ++ host ++ "/" ++ owner ++ "/" ++ name ++ "/")
    = Some name /\
  defaultRepoName ("https://" ++ host ++ "/" ++ owner ++ "/" ++ name ++ ".git")
    = name /\
  defaultRepoName ("https://" ++ host ++ "/" ++ owner ++ "/" ++ name)
    = name /\
  (forall url, extractRepoName url = None ->
               defaultRepoName url = "repository") /\
  (forall url, Str.includes Str.slash url = false ->
               defaultRepoName url = "repository").
Proof.
  intros Hname.
  assert (H : forall suf, tailOk suf = true ->
            extractRepoName ("https://" ++ host ++ "/" ++ owner ++ "/" ++
                             name ++ suf) = Some name).
  { intros suf Hsuf.
    pose proof (extractRepoName_segment ("https://" ++ host ++ "/" ++ owner)
                                        name suf Hname Hsuf) as E.
    rewrite !append_assoc in E. exact E. }
  assert (Hne : Str.isEmpty name = false).
  { unfold cleanName in Hname. rewrite !andb_true_iff, !negb_true_iff in Hname.
    tauto. }
  pose proof (H ".git" eq_refl) as H1.
  pose proof (H "" eq_refl) as H2. rewrite append_nil_r in H2.
  repeat split.
  - exact H1.
  - exact H2.
  - exact (H ".git/" eq_refl).
  - exact (H "/" eq_refl).
  - unfold defaultRepoName. now rewrite H1, Hne.
  - unfold defaultRepoName. now rewrite H2, Hne.
  - intros url E. unfold defaultRepoName. now rewrite E.
  - intros url E. unfold defaultRepoName.
    now rewrite (extractRepoName_no_slash url E).
Qed.

Lemma extractRepoName_same_name_witness :
  cleanName "repo" = true /\
  extractRepoName "https://github.com/user/repo.git" = Some "repo" /\
  extractRepoName "https://github.com/user/repo" = Some "repo".
Proof.
  split; [reflexivity|].
  pose proof (extractRepoName_same_name "github.com" "user" "repo" eq_refl)
    as (H1 & H2 & _).
  split; [exact H1 | exact H2].
Defined.

(** ** The clone target inside an existing folder *)

(** For a plain folder name and a plain repository name, whenever the
    block that determines the target returns, it returns the folder with
    the repository name nested inside: one segment more than the folder. *)
Lemma determineTargetDir_nested (root folder repo : string) (w w' : world)
      (target : string) :
  Path.isAbsolute root = true -> plain folder = true -> plain repo = true ->
  determineTargetDir root folder true repo w = (Ret target, w') ->
  target = Path.join [root; folder] ++ "/" ++ repo /\
  target <> Path.join [root; folder] /\
  files w' = files w.
Proof.
  intros Hroot Hf Hr. unfold determineTargetDir.
  pose proof (plain_noSlash _ Hf) as Hn. unfold noSlash in Hn.
  apply negb_true_iff in Hn. rewrite Hn.
  rewrite (join_nested root folder repo Hroot Hf Hr).
  unfold confirmIfNotEmpty, promptConfirm. run_monad.
  intros H. repeat split_run H.
  all: try discriminate H.
  all: injection H as <- <-.
  all: (split; [reflexivity|]); (split; [|reflexivity]).
  all: intros E; apply (f_equal String.length) in E;
       rewrite !length_append in E; cbn in E; lia.
Qed.

(** * The URL patterns *)

(** ** Ways to match *)

Lemma run_lit (s t : string) (p : nat) (c : list (nat * string)) :
  run (lit s) (MState p (s ++ t) c) = [MState (p + String.length s) t c].
Proof.
  revert p. induction s as [|a s IH]; intros p; cbn [lit run].
  - cbn. now rewrite Nat.add_0_r.
  - cbn. rewrite Ascii.eqb_refl. cbn. unfold advance. cbn.
    rewrite IH, app_nil_r.
    replace (S p + String.length s) with (p + S (String.length s)) by lia.
    reflexivity.
Qed.

Lemma in_run_lit (s : string) (st st' : mstate) :
  In st' (run (lit s) st) -> rest st = s ++ rest st'.
Proof.
  revert st. induction s as [|a s IH]; intros st H; cbn [lit run] in H.
  - destruct H as [<-|[]]. reflexivity.
  - apply in_flat_map in H. destruct H as (st1 & H1 & H2).
    cbn in H1. destruct (rest st) as [|d t] eqn:E; [destruct H1|].
    destruct (Ascii.eqb_spec d a) as [->|]; [|destruct H1].
    destruct H1 as [<-|[]]. apply IH in H2. cbn in H2. now rewrite H2.
Qed.

Lemma in_seq (r1 r2 : regex) (st st1 st2 : mstate) :
  In st1 (run r1 st) -> In st2 (run r2 st1) -> In st2 (run (Seq r1 r2) st).
Proof. intros H1 H2. cbn [run]. apply in_flat_map. eauto. Qed.

Lemma in_seq_inv (r1 r2 : regex) (st st2 : mstate) :
  In st2 (run (Seq r1 r2) st) ->
  exists st1, In st1 (run r1 st) /\ In st2 (run r2 st1).
Proof. cbn [run]. intros H. now apply in_flat_map in H. Qed.

Lemma in_iter_self (g : bool) (step : mstate -> list mstate) (n : nat)
      (st : mstate) :
  In st (iter g step n st).
Proof.
  destruct n; cbn [iter]; [now left|].
  destruct g; [apply in_or_app; right|]; now left.
Qed.

(** A quantified class can take any run of characters of the class. *)
Lemma in_iter_class (g : bool) (f : ascii -> bool) (a b : string) (n p : nat)
      (c : list (nat * string)) :
  allChars f a = true -> String.length a <= n ->
  In (MState (p + String.length a) b c)
     (iter g (run (Class f)) n (MState p (a ++ b) c)).
Proof.
  revert n p. induction a as [|x a IH]; intros n p Hf Hn.
  - cbn. rewrite Nat.add_0_r. apply in_iter_self.
  - cbn in Hf. apply andb_true_iff in Hf. destruct Hf as [Hx Ha].
    destruct n as [|n]; [cbn in Hn; lia|].
    assert (Hstep : run (Class f) (MState p (String x a ++ b) c) =
                    [MState (S p) (a ++ b) c])
      by (cbn; rewrite Hx; reflexivity).
    cbn [iter]. rewrite Hstep. cbn [filter]. unfold progress. cbn [pos].
    replace (p <? S p)%nat with true by (symmetry; apply Nat.ltb_lt; lia).
    cbn [flat_map]. rewrite app_nil_r.
    assert (H : In (MState (p + String.length (String x a)) b c)
                   (iter g (run (Class f)) n (MState (S p) (a ++ b) c))).
    { replace (p + String.length (String x a)) with (S p + String.length a)
        by (cbn; lia).
      apply IH; [exact Ha | cbn in Hn; lia]. }
    destruct g; [apply in_or_app; left | right]; exact H.
Qed.

Lemma in_star_class (g : bool) (f : ascii -> bool) (a b : string) (p : nat)
      (c : list (nat * string)) :
  allChars f a = true ->
  In (MState (p + String.length a) b c)
     (run (Star g (Class f)) (MState p (a ++ b) c)).
Proof.
  intros Hf. cbn [run rest]. apply in_iter_class; [exact Hf|].
  rewrite length_append. lia.
Qed.

Lemma in_plus_class (g : bool) (f : ascii -> bool) (x : ascii) (a b : string)
      (p : nat) (c : list (nat * string)) :
  f x = true -> allChars f a = true ->
  In (MState (S p + String.length a) b c)
     (run (Plus g (Class f)) (MState p (String x a ++ b) c)).
Proof.
  intros Hx Ha. unfold Plus. eapply in_seq.
  - cbn. rewrite Hx. left. reflexivity.
  - unfold advance. cbn [pos caps]. apply in_star_class. exact Ha.
Qed.

(** ** What a match has read *)

(** Whatever way a pattern matches, what is left to read is an end of
    what there was. *)
Lemma iter_reads (g : bool) (step : mstate -> list mstate) (n : nat) :
  (forall st st', In st' (step st) -> exists x, rest st = x ++ rest st') ->
  forall st st', In st' (iter g step n st) -> exists x, rest st = x ++ rest st'.
Proof.
  intros Hstep. induction n as [|n IH]; intros st st' H.
  - destruct H as [<-|[]]. now exists "".
  - cbn [iter] in H.
    assert (Hmore : In st' (flat_map (iter g step n)
                                     (filter (progress st) (step st))) ->
                    exists x, rest st = x ++ rest st').
    { intros Hin. apply in_flat_map in Hin. destruct Hin as (st1 & H1 & H2).
      apply filter_In in H1. destruct H1 as [H1 _].
      apply Hstep in H1. destruct H1 as [x1 E1].
      apply IH in H2. destruct H2 as [x2 E2].
      exists (x1 ++ x2). now rewrite E1, E2, append_assoc. }
    destruct g.
    + apply in_app_or in H. destruct H as [H|[<-|[]]]; [auto | now exists ""].
    + destruct H as [<-|H]; [now exists "" | auto].
Qed.

Lemma run_reads (r : regex) (st st' : mstate) :
  In st' (run r st) -> exists x, rest st = x ++ rest st'.
Proof.
  revert st st'.
  induction r as [|c|f|r1 IH1 r2 IH2|r1 IH1 r2 IH2|g r IH|n r IH| |];
    intros st st' H; cbn [run] in H.
  - destruct H as [<-|[]]. now exists "".
  - destruct (rest st) as [|d t] eqn:E; [destruct H|].
    destruct (Ascii.eqb d c); [|destruct H].
    destruct H as [<-|[]]. now exists (String d "").
  - destruct (rest st) as [|d t] eqn:E; [destruct H|].
    destruct (f d); [|destruct H].
    destruct H as [<-|[]]. now exists (String d "").
  - apply in_flat_map in H. destruct H as (st1 & H1 & H2).
    apply IH1 in H1. apply IH2 in H2.
    destruct H1 as [x1 E1]. destruct H2 as [x2 E2].
    exists (x1 ++ x2). now rewrite E1, E2, append_assoc.
  - apply in_app_or in H. destruct H; auto.
  - revert H. apply iter_reads. exact IH.
  - apply in_map_iff in H. destruct H as (st1 & <- & H1).
    apply IH in H1. exact H1.
  - destruct (pos st =? 0)%nat; [|destruct H].
    destruct H as [<-|[]]. now exists "".
  - destruct (rest st) eqn:E; [|destruct H].
    destruct H as [<-|[]]. exists "". now rewrite E.
Qed.

Lemma in_eol (st st' : mstate) : In st' (run Eol st) -> rest st = "".
Proof. cbn. destruct (rest st); [reflexivity | intros []]. Qed.

(** ** Anchored patterns *)

Lemma search_bol_later (r : regex) (p : nat) (s : string) :
  search (Seq Bol r) (S p) s = None.
Proof.
  revert p. induction s as [|a s IH]; intros p; cbn; [reflexivity|apply IH].
Qed.

Lemma test_anchored (r : regex) (s : string) :
  test (Seq Bol r) s = negb (isNil (run r (MState 0 s []))).
Proof.
  unfold test, exec. rewrite search_head. cbn [run pos Nat.eqb flat_map].
  rewrite app_nil_r.
  destruct (run r (MState 0 s [])) as [|st l]; cbn; [|reflexivity].
  destruct s; [reflexivity|]. now rewrite search_bol_later.
Qed.

Lemma test_anchored_in (r : regex) (s : string) (st : mstate) :
  In st (run r (MState 0 s [])) -> test (Seq Bol r) s = true.
Proof.
  intros H. rewrite test_anchored.
  destruct (run r (MState 0 s [])); [destruct H | reflexivity].
Qed.

Lemma test_anchored_inv (r : regex) (s : string) :
  test (Seq Bol r) s = true -> exists st, In st (run r (MState 0 s [])).
Proof.
  rewrite test_anchored.
  destruct (run r (MState 0 s [])) as [|st l]; [discriminate|].
  intros _. exists st. now left.
Qed.

Lemma in_opt_skip (r : regex) (st : mstate) : In st (run (Opt r) st).
Proof. unfold Opt. cbn [run]. apply in_or_app. right. now left. Qed.

Lemma in_opt_take (r : regex) (st st' : mstate) :
  In st' (run r st) -> In st' (run (Opt r) st).
Proof. intros H. unfold Opt. cbn [run]. apply in_or_app. now left. Qed.

Lemma in_lit (s t : string) (p : nat) (c : list (nat * string)) :
  In (MState (p + String.length s) t c) (run (lit s) (MState p (s ++ t) c)).
Proof. rewrite run_lit. now left. Qed.

Lemma in_chr (a : ascii) (t : string) (p : nat) (c : list (nat * string)) :
  In (MState (S p) t c) (run (Chr a) (MState p (String a t) c)).
Proof. cbn. rewrite Ascii.eqb_refl. now left. Qed.

Lemma in_name (s t : string) (p : nat) (c : list (nat * string)) :
  isName s = true ->
  In (MState (p + String.length s) t c)
     (run (Plus true (Class wordDashDot)) (MState p (s ++ t) c)).
Proof.
  unfold isName. destruct s as [|x a]; [discriminate|]. cbn [Str.isEmpty negb andb allChars].
  intros H. apply andb_true_iff in H. destruct H as [Hx Ha].
  replace (p + String.length (String x a)) with (S p + String.length a)
    by (cbn; lia).
  now apply in_plus_class.
Qed.

(** The scheme [https?:\/\/] in front of [t]. *)
Lemma in_scheme (secure : bool) (t : string) (r : regex) (st : mstate) :
  In st (run r (MState (if secure then 5 else 4) t [])) ->
  In st (run (Seq (lit "http") (Seq (Opt (Chr "s")) r))
             (MState 0 ("http" ++ (if secure then "s" else "") ++ t) [])).
Proof.
  intros H.
  eapply in_seq; [apply (in_lit "http" _ 0 [])|].
  destruct secure.
  - eapply in_seq; [apply in_opt_take, in_chr|]. exact H.
  - eapply in_seq; [apply in_opt_skip|]. exact H.
Qed.


Lemma test_hosted (secure : bool) (host owner name tail : string) :
  isName owner = true -> isName name = true ->
  test (Seq Bol (Seq (lit "http") (Seq (Opt (Chr "s")) (Seq (lit host)
         (Seq (Plus true (Class wordDashDot)) (Seq (Chr "/")
           (Plus true (Class wordDashDot))))))))
       ("http" ++ (if secure then "s" else "") ++ host ++ owner ++ "/" ++ name ++ tail)
  = true.
Proof.
  intros Ho Hn.
  eapply test_anchored_in, in_scheme.
  eapply in_seq; [apply (in_lit host)|].
  eapply in_seq; [apply (in_name owner), Ho|].
  eapply in_seq; [apply in_chr|].
  apply (in_name name), Hn.
Qed.

(** ** Accepted URLs *)



(** X3: a URL on one of the three hosts is accepted as soon as it names an
    owner and a repository; whatever follows is not looked at. *)
Theorem validateGitUrl_accepts_hosted (owner name tail : string) :
  isName owner = true -> isName name = true ->
  forallb (fun prefix => validateGitUrl (prefix ++ owner ++ "/" ++ name ++ tail))
          hostedPrefixes = true.
Proof.
  intros Ho Hn. unfold hostedPrefixes, validateGitUrl, urlPatterns.
  cbn [forallb existsb].
  pose proof (test_hosted false "://github.com/" owner name tail Ho Hn) as T1.
  pose proof (test_hosted true "://github.com/" owner name tail Ho Hn) as T2.
  pose proof (test_hosted false "://gitlab.com/" owner name tail Ho Hn) as T3.
  pose proof (test_hosted true "://gitlab.com/" owner name tail Ho Hn) as T4.
  pose proof (test_hosted false "://bitbucket.org/" owner name tail Ho Hn) as T5.
  pose proof (test_hosted true "://bitbucket.org/" owner name tail Ho Hn) as T6.
  cbn [append] in *.
  rewrite T1, T2, T3, T4, T5, T6.
  now rewrite !orb_true_r.
Qed.

(** ** What every accepted URL looks like *)

Lemma in_opt_chr_inv (a : ascii) (st st' : mstate) :
  In st' (run (Opt (Chr a)) st) ->
  rest st = String a (rest st') \/ rest st = rest st'.
Proof.
  unfold Opt. cbn [run]. intros H. apply in_app_or in H. destruct H as [H|H].
  - left. destruct (rest st) as [|d t]; [destruct H|].
    destruct (Ascii.eqb_spec d a) as [->|]; [|destruct H].
    destruct H as [<-|[]]. reflexivity.
  - right. destruct H as [<-|[]]. reflexivity.
Qed.

Lemma in_scheme_inv (sep : string) (r : regex) (url : string) (st : mstate) :
  In st (run (Seq (lit "http") (Seq (Opt (Chr "s")) (Seq (lit sep) r)))
             (MState 0 url [])) ->
  exists (secure : bool) (st1 : mstate),
    url = "http" ++ (if secure then "s" else "") ++ sep ++ rest st1 /\
    In st (run r st1).
Proof.
  intros H.
  apply in_seq_inv in H. destruct H as (s1 & H1 & H).
  apply in_seq_inv in H. destruct H as (s2 & H2 & H).
  apply in_seq_inv in H. destruct H as (s3 & H3 & H).
  apply in_run_lit in H1. apply in_opt_chr_inv in H2. apply in_run_lit in H3.
  cbn [rest] in H1.
  destruct H2 as [H2|H2].
  - exists true, s3. split; [|exact H]. now rewrite H1, H2, H3.
  - exists false, s3. split; [|exact H]. now rewrite H1, H2, H3.
Qed.

(** What [.*\.git$] has read ends in [.git]. *)
Lemma in_dot_git_inv (st st' : mstate) :
  In st' (run (Seq (Star true (Class dot)) (Seq (lit ".git") Eol)) st) ->
  exists x, rest st = x ++ ".git".
Proof.
  intros H.
  apply in_seq_inv in H. destruct H as (s1 & H1 & H).
  apply in_seq_inv in H. destruct H as (s2 & H2 & H).
  apply run_reads in H1. destruct H1 as [x E1].
  apply in_run_lit in H2. apply in_eol in H.
  exists x. now rewrite E1, H2, H.
Qed.

Lemma endsWith_tail (a b p : string) :
  Str.endsWith b p = true -> Str.endsWith (a ++ b) p = true.
Proof.
  induction a as [|c a IH]; intros H; [exact H|].
  cbn [append]. apply endsWith_cons. auto.
Qed.

Lemma hosted_prefix (secure : bool) (host t : string) :
  Str.startsWith ("http" ++ (if secure then "s" else "") ++ host ++ t)
                 ("http" ++ (if secure then "s" else "") ++ host) = true.
Proof.
  unfold Str.startsWith.
  replace ("http" ++ (if secure then "s" else "") ++ host ++ t)
    with (("http" ++ (if secure then "s" else "") ++ host) ++ t)
    by (now rewrite !append_assoc).
  apply prefix_append.
Qed.

(** X4: an accepted URL ends in [.git] behind one of the prefixes [http://],
    [https://] and [git@], or starts with one of the three hosts: nothing
    else passes without a question. *)
Theorem validateGitUrl_shape (url : string) :
  validateGitUrl url = true ->
  Str.endsWith url ".git" &&
    (Str.startsWith url "http://" || Str.startsWith url "https://" ||
     Str.startsWith url "git@") ||
  existsb (Str.startsWith url) hostedPrefixes = true.
Proof.
  unfold validateGitUrl, urlPatterns. cbn [existsb]. intros H.
  repeat (apply orb_true_iff in H; destruct H as [H|H]); try discriminate.
  - apply test_anchored_inv in H. destruct H as [st H].
    apply in_scheme_inv in H. destruct H as (secure & st1 & -> & H).
    apply in_dot_git_inv in H. destruct H as [x ->].
    apply orb_true_iff. left. apply andb_true_iff. split.
    + apply (endsWith_tail "http"), endsWith_tail, endsWith_tail,
        endsWith_append.
    + destruct secure; cbn;
        rewrite ?prefix_nil; reflexivity.
  - apply test_anchored_inv in H. destruct H as [st H].
    apply in_seq_inv in H. destruct H as (s1 & H1 & H).
    apply in_seq_inv in H. destruct H as (s2 & H2 & H).
    apply in_seq_inv in H. destruct H as (s3 & H3 & H).
    apply in_dot_git_inv in H. destruct H as [x E].
    apply in_run_lit in H1. apply run_reads in H2. apply run_reads in H3.
    destruct H2 as [x2 E2]. destruct H3 as [x3 E3].
    cbn [rest] in H1. subst url.
    apply orb_true_iff. left. apply andb_true_iff. split.
    + rewrite E2, E3, E.
      now apply (endsWith_tail "git@"), endsWith_tail, endsWith_tail,
        endsWith_append.
    + cbn. rewrite prefix_nil. reflexivity.
  - apply test_anchored_inv in H. destruct H as [st H].
    apply in_scheme_inv in H. destruct H as (secure & st1 & -> & _).
    apply orb_true_iff. right. unfold hostedPrefixes. cbn [existsb].
    pose proof (hosted_prefix secure "://github.com/" (rest st1)) as P.
    destruct secure; cbn [append] in P |- *; rewrite P;
      now rewrite ?orb_true_r.
  - apply test_anchored_inv in H. destruct H as [st H].
    apply in_scheme_inv in H. destruct H as (secure & st1 & -> & _).
    apply orb_true_iff. right. unfold hostedPrefixes. cbn [existsb].
    pose proof (hosted_prefix secure "://gitlab.com/" (rest st1)) as P.
    destruct secure; cbn [append] in P |- *; rewrite P;
      now rewrite ?orb_true_r.
  - apply test_anchored_inv in H. destruct H as [st H].
    apply in_scheme_inv in H. destruct H as (secure & st1 & -> & _).
    apply orb_true_iff. right. unfold hostedPrefixes. cbn [existsb].
    pose proof (hosted_prefix secure "://bitbucket.org/" (rest st1)) as P.
    destruct secure; cbn [append] in P |- *; rewrite P;
      now rewrite ?orb_true_r.
Qed.

(** * The containment check *)

Lemma normalizeSegments_trailing (segs : list string) :
  Path.normalizeSegments false (segs ++ [""]) =
  Path.normalizeSegments false segs.
Proof.
  unfold Path.normalizeSegments. now rewrite fold_left_app.
Qed.

(** [path.resolve] leaves the paths it returns as they are. *)
Lemma resolve_resolve (cwd p : string) :
  Path.isAbsolute cwd = true ->
  Path.resolve cwd [Path.resolve cwd [p]] = Path.resolve cwd [p].
Proof.
  intros Hcwd. destruct (resolve_absPath cwd p Hcwd) as (segs & Hs & ->).
  unfold Path.resolve. cbn [List.rev app Path.gather].
  change (Str.isEmpty (absPath segs)) with false.
  change (Path.isAbsolute (absPath segs)) with true.
  cbv beta iota. cbn [negb]. unfold Path.normalizeString.
  change (absPath segs ++ "/" ++ "") with (absPath segs ++ String "/" "").
  rewrite split_app. cbn [Path.split].
  now rewrite normalizeSegments_trailing, normalize_absPath.
Qed.

Lemma resolve_isAbsolute (cwd p : string) :
  Path.isAbsolute cwd = true -> Path.isAbsolute (Path.resolve cwd [p]) = true.
Proof.
  intros Hcwd. now destruct (resolve_absPath cwd p Hcwd) as (segs & _ & ->).
Qed.

Lemma validatePath_accepted (cwd target root validated : string) :
  Path.isAbsolute cwd = true ->
  validatePathWithinProjectsDir cwd target root = Some validated ->
  validated = Path.resolve cwd [target] /\
  isWithin cwd target root = true.
Proof.
  intros Hcwd H.
  assert (Hv : validated = Path.resolve cwd [target]).
  { rewrite validatePath_string in H.
    destruct (_ || _); [now injection H as <- | discriminate]. }
  split; [exact Hv|].
  destruct (String.eqb_spec (Path.resolve cwd [root]) "/") as [E|N].
  - unfold isWithin. now rewrite E.
  - rewrite validatePath_within in H by assumption.
    now destruct (isWithin cwd target root).
Qed.

(** X5: the check never lets a path through that is not the root or below it,
    whatever the root: what it returns is the resolved target, an absolute
    path whose segments start with those of the resolved root. *)
Theorem validatePath_sound (cwd target root validated : string) :
  Path.isAbsolute cwd = true ->
  validatePathWithinProjectsDir cwd target root = Some validated ->
  validated = Path.resolve cwd [target] /\
  Path.isAbsolute validated = true /\
  isWithin cwd target root = true.
Proof.
  intros Hcwd H.
  destruct (validatePath_accepted _ _ _ _ Hcwd H) as [Hv Hw].
  split; [exact Hv|]. split; [|exact Hw].
  subst. now apply resolve_isAbsolute.
Qed.

(** X6: for every projects directory other than the root directory the check
    is exact: it accepts the root and what lies below it, and nothing
    else. *)
Theorem validatePath_exact (cwd target root : string) :
  Path.isAbsolute cwd = true ->
  Path.resolve cwd [root] <> "/" ->
  (isWithin cwd target root = true ->
   validatePathWithinProjectsDir cwd target root =
     Some (Path.resolve cwd [target])) /\
  (isWithin cwd target root = false ->
   validatePathWithinProjectsDir cwd target root = None).
Proof.
  intros Hcwd Hroot. rewrite validatePath_within by assumption.
  split; intros ->; reflexivity.
Qed.

(** X7: checking again what the check returned gives the same path: a
    validated target stays validated. *)
Theorem validatePath_stable (cwd target root validated : string) :
  Path.isAbsolute cwd = true ->
  validatePathWithinProjectsDir cwd target root = Some validated ->
  validatePathWithinProjectsDir cwd validated root = Some validated.
Proof.
  intros Hcwd H. rewrite validatePath_string in H |- *.
  destruct (_ || _) eqn:E in H; [|discriminate].
  injection H as <-. now rewrite resolve_resolve, E.
Qed.

(** ** Paths below the home directory *)

Lemma resolve_abs (cwd : string) (segs : list string) :
  forallb plain segs = true ->
  Path.resolve cwd [absPath segs] = absPath segs.
Proof.
  intros Hs. unfold Path.resolve. cbn [List.rev app Path.gather].
  change (Str.isEmpty (absPath segs)) with false.
  change (Path.isAbsolute (absPath segs)) with true.
  cbv beta iota. cbn [negb]. unfold Path.normalizeString.
  change (absPath segs ++ "/" ++ "") with (absPath segs ++ String "/" "").
  rewrite split_app. cbn [Path.split].
  now rewrite normalizeSegments_trailing, normalize_absPath.
Qed.

Lemma join_abs_plain2 (root a b : string) :
  Path.isAbsolute root = true -> plain a = true -> plain b = true ->
  Path.join [root; a; b] =
  absPath (Path.normalizeSegments false (Path.split root) ++ [a; b]).
Proof.
  intros Hroot Ha Hb. unfold Path.join.
  assert (Hr : Str.isEmpty root = false) by (now destruct root).
  assert (Hae : Str.isEmpty a = false) by (now destruct a).
  assert (Hbe : Str.isEmpty b = false) by (now destruct b).
  cbn [filter]. rewrite Hr, Hae, Hbe. cbn [negb String.concat].
  unfold Path.normalize.
  assert (Hc : Str.isEmpty (root ++ "/" ++ a ++ "/" ++ b) = false)
    by (now destruct root).
  assert (Habs : Path.isAbsolute (root ++ "/" ++ a ++ "/" ++ b) = true)
    by (destruct root; [discriminate | exact Hroot]).
  rewrite Hc, Habs. cbn [negb]. unfold Path.normalizeString, Path.sep.
  replace (root ++ "/" ++ a ++ "/" ++ b) with ((root ++ "/" ++ a) ++ "/" ++ b)
    by (now rewrite !append_assoc).
  rewrite (normalize_split_snoc (root ++ "/" ++ a) b Hb),
    (normalize_split_snoc root a Ha).
  rewrite <- app_assoc. cbn [app].
  replace (Path.normalizeSegments false (Path.split root) ++ [a; b])%list
    with ((Path.normalizeSegments false (Path.split root) ++ [a]) ++ [b])%list
    by (now rewrite <- app_assoc).
  rewrite concat_not_empty by exact Hb.
  rewrite <- (append_assoc (root ++ "/" ++ a) "/" b),
    (hasTrailingSep_plain _ b Hb). reflexivity.
Qed.

Lemma forallb_plain_app (a b : list string) :
  forallb plain a = true -> forallb plain b = true ->
  forallb plain (a ++ b) = true.
Proof. intros Ha Hb. now rewrite forallb_app, Ha, Hb. Qed.

(** A path with more segments starts with the path it extends. *)
Lemma absPath_prefix (segs more : list string) :
  Str.startsWith (absPath (segs ++ more)) (absPath segs) = true.
Proof.
  unfold Str.startsWith.
  destruct segs as [|s segs];
    [unfold absPath; cbn [app append String.concat]; now rewrite prefix_cons, prefix_nil|].
  induction more as [|m more IH] using rev_ind.
  - rewrite app_nil_r. apply prefix_refl.
  - rewrite app_assoc, absPath_snoc by (now destruct segs).
    destruct (prefix_split _ _ IH) as [t ->].
    rewrite append_assoc. apply prefix_append.
Qed.

Lemma rev_rev (s : string) : Str.rev (Str.rev s) = s.
Proof.
  induction s as [|c s IH]; [reflexivity|].
  rewrite rev_cons, rev_append, IH. reflexivity.
Qed.

(** [trim] leaves a string alone that neither starts nor ends with white
    space. *)
Lemma trim_keeps (a b : ascii) (x y : string) :
  Str.isSpace a = false -> Str.isSpace b = false ->
  Str.rev (String a x) = String b y ->
  Str.trim (String a x) = String a x.
Proof.
  intros Ha Hb E. unfold Str.trim. cbn [Str.trimStart]. rewrite Ha, E.
  cbn [Str.trimStart]. rewrite Hb, <- E. apply rev_rev.
Qed.

Lemma trim_absPath_snoc (segs : list string) (s t : string) :
  Str.rev s = String "s" t ->
  Str.trim (absPath (segs ++ [s])) = absPath (segs ++ [s]).
Proof.
  intros E.
  assert (Hr : exists y, Str.rev (absPath (segs ++ [s])) = String "s" y).
  { unfold absPath. destruct segs as [|x segs].
    - cbn [app String.concat]. rewrite rev_append, E. cbn. eauto.
    - rewrite concat_snoc by discriminate.
      rewrite !rev_append, E. cbn. eauto. }
  destruct Hr as [y Hy].
  unfold absPath in *. cbn [append] in *.
  now apply (trim_keeps "/" "s" _ y).
Qed.

(** * The default folder name *)

Lemma includes_trimStart (c : ascii) (s : string) :
  Str.includes c s = false -> Str.includes c (Str.trimStart s) = false.
Proof.
  induction s as [|a s IH]; [trivial|]. cbn [Str.trimStart].
  destruct (Str.isSpace a); [|trivial].
  cbn [Str.includes]. intros H. apply orb_false_iff in H. now apply IH.
Qed.

Lemma includes_rev (c : ascii) (s : string) :
  Str.includes c (Str.rev s) = Str.includes c s.
Proof.
  induction s as [|a s IH]; [reflexivity|].
  rewrite rev_cons, includes_append, IH. cbn [Str.includes].
  rewrite orb_false_r. apply orb_comm.
Qed.

(** Trimming brings in no character that was not there. *)
Lemma includes_trim (c : ascii) (s : string) :
  Str.includes c s = false -> Str.includes c (Str.trim s) = false.
Proof.
  intros H. unfold Str.trim. rewrite includes_rev.
  apply includes_trimStart. rewrite includes_rev.
  now apply includes_trimStart.
Qed.


(** What passes the first tests of a folder-name prompt is, once trimmed,
    a non-empty name without slash or backslash. *)
Lemma validName_trim (typed : string) :
  validName typed = true ->
  Str.isEmpty (Str.trim typed) = false /\
  Str.includes "/" (Str.trim typed) = false /\
  Str.includes "\" (Str.trim typed) = false.
Proof.
  unfold validName. intros H.
  apply andb_true_iff in H. destruct H as [H Hb].
  apply andb_true_iff in H. destruct H as [He Hs].
  apply negb_true_iff in He, Hs, Hb.
  split; [exact He|]. split; now apply includes_trim.
Qed.

(** * Sorted folder names *)





Lemma length_insert (x : string) (l : list string) :
  List.length (Str.insert x l) = S (List.length l).
Proof.
  induction l as [|y l IH]; [reflexivity|]. cbn.
  destruct (String.leb x y); cbn; [reflexivity | now rewrite IH].
Qed.

Lemma length_sort (l : list string) :
  List.length (Str.sort l) = List.length l.
Proof.
  unfold Str.sort. induction l as [|x l IH]; [reflexivity|].
  cbn [fold_right]. now rewrite length_insert, IH.
Qed.

(** * What stays the same during a run *)

Lemma sameProcess_refl (w : world) : sameProcess w w.
Proof. unfold sameProcess. tauto. Qed.

Lemma sameProcess_trans (a b c : world) :
  sameProcess a b -> sameProcess b c -> sameProcess a c.
Proof.
  unfold sameProcess. intros H1 H2.
  decompose [and] H1. decompose [and] H2.
  repeat split; congruence.
Qed.

Lemma sameProcess_emit (e : event) (w : world) : sameProcess w (emit e w).
Proof. unfold sameProcess. cbn. tauto. Qed.

Lemma sameProcess_setFiles (f : FS.node) (w : world) :
  sameProcess w (setFiles f w).
Proof. unfold sameProcess. cbn. tauto. Qed.

Lemma sameProcess_setInput (i : list answer) (w : world) :
  sameProcess w (setInput i w).
Proof. unfold sameProcess. cbn. tauto. Qed.

Ltac steady_prim :=
  let w := fresh "w" in let o := fresh "o" in let w' := fresh "w'" in
  let H := fresh "H" in
  intros w o w' H;
  cbv beta iota zeta delta [ret get throw exit log stdoutWrite existsSync mkdirSync
                  readFileSync writeFileSync unlinkSync readdirSync resolve
                  promptConfirm promptList spawnSync onKeypress bind] in H;
  repeat match type of H with
         | context [match ?x with _ => _ end] => destruct x
         | context [if ?x then _ else _] => destruct x
         | context [let (_, _) := ?x in _] => destruct x
         end;
  injection H as <- <-;
  unfold sameProcess; cbn; tauto.

Lemma steady_ret {A} (a : A) : steady (ret a).
Proof. steady_prim. Qed.

Lemma steady_get {A} (f : world -> A) : steady (get f).
Proof. steady_prim. Qed.

Lemma steady_throw {A} (e : exn) : steady (@throw A e).
Proof. steady_prim. Qed.

Lemma steady_exit {A} (c : Z) : steady (@exit A c).
Proof. steady_prim. Qed.

Lemma steady_bind {A B} (m : M A) (k : A -> M B) :
  steady m -> (forall a, steady (k a)) -> steady (bind m k).
Proof.
  intros Hm Hk w o w' H. unfold bind in H.
  destruct (m w) as [[a|e|c|] w1] eqn:E; pose proof (Hm _ _ _ E) as S1;
    try (injection H as <- <-; exact S1).
  exact (sameProcess_trans _ _ _ S1 (Hk a _ _ _ H)).
Qed.

Lemma steady_tryCatch {A} (m : M A) (h : exn -> M A) :
  steady m -> (forall e, steady (h e)) -> steady (tryCatch m h).
Proof.
  intros Hm Hh w o w' H. unfold tryCatch in H.
  destruct (m w) as [[a|e|c|] w1] eqn:E; pose proof (Hm _ _ _ E) as S1;
    try (injection H as <- <-; exact S1).
  exact (sameProcess_trans _ _ _ S1 (Hh e _ _ _ H)).
Qed.

Lemma steady_when (b : bool) (m : M unit) : steady m -> steady (when b m).
Proof. destruct b; [trivial | intros _; apply steady_ret]. Qed.

Lemma steady_log (msg : string) (type : level) : steady (log msg type).
Proof. steady_prim. Qed.

Lemma steady_error {A} (msg : string) : steady (@error A msg).
Proof. apply steady_bind; [apply steady_log | intros; apply steady_exit]. Qed.

Lemma steady_success (msg : string) : steady (success msg).
Proof. apply steady_log. Qed.

Lemma steady_stdoutWrite (text : string) : steady (stdoutWrite text).
Proof. steady_prim. Qed.

Lemma steady_existsSync (p : string) : steady (existsSync p).
Proof. steady_prim. Qed.

Lemma steady_mkdirSync (p : string) : steady (mkdirSync p).
Proof. steady_prim. Qed.

Lemma steady_readFileSync (p : string) : steady (readFileSync p).
Proof. steady_prim. Qed.

Lemma steady_writeFileSync (p data : string) : steady (writeFileSync p data).
Proof. steady_prim. Qed.

Lemma steady_unlinkSync (p : string) : steady (unlinkSync p).
Proof. steady_prim. Qed.

Lemma steady_readdirSync (p : string) : steady (readdirSync p).
Proof. steady_prim. Qed.

Lemma steady_resolve (p : string) : steady (resolve p).
Proof. steady_prim. Qed.

Lemma steady_spawnSync (command : string) (args : list string)
      (options : spawnOptions) :
  steady (spawnSync command args options).
Proof. steady_prim. Qed.

Lemma steady_inputLoop (default : string)
      (validate : string -> world -> option string)
      (answers : list answer) (w : world) (o : outcome string) (w' : world) :
  inputLoop default validate answers w = (o, w') -> sameProcess w w'.
Proof.
  revert w. induction answers as [|a answers IH]; intros w H.
  - injection H as <- <-. apply sameProcess_setInput.
  - destruct a as [text| | |]; simpl in H;
      try (injection H as <- <-; apply sameProcess_setInput).
    destruct (validate _ w) as [msg|].
    + exact (sameProcess_trans _ _ _ (sameProcess_emit _ _) (IH _ H)).
    + injection H as <- <-. apply sameProcess_setInput.
Qed.

Lemma steady_promptInput (msg default : string)
      (validate : string -> world -> option string) :
  steady (promptInput msg default validate).
Proof.
  intros w o w' H. unfold promptInput in H.
  exact (sameProcess_trans _ _ _ (sameProcess_emit _ _)
                           (steady_inputLoop _ _ _ _ _ _ H)).
Qed.

Lemma steady_promptConfirm (msg : string) (default : bool) :
  steady (promptConfirm msg default).
Proof. steady_prim. Qed.

Lemma steady_promptList (msg : string) (choices : list (string * string)) :
  steady (promptList msg choices).
Proof. steady_prim. Qed.

Lemma steady_onKeypress : steady onKeypress.
Proof. steady_prim. Qed.

(** One step along the structure of a block. *)
Ltac steady_step :=
  first
    [ apply steady_ret | apply steady_get | apply steady_throw
    | apply steady_exit | apply steady_log | apply steady_error
    | apply steady_success | apply steady_stdoutWrite
    | apply steady_existsSync | apply steady_mkdirSync
    | apply steady_readFileSync | apply steady_writeFileSync
    | apply steady_unlinkSync | apply steady_readdirSync | apply steady_resolve
    | apply steady_spawnSync | apply steady_promptInput
    | apply steady_promptConfirm | apply steady_promptList
    | apply steady_onKeypress
    | apply steady_when
    | apply steady_bind; [|intros]
    | apply steady_tryCatch; [|intros]
    | match goal with
      | |- steady (if ?b then _ else _) => destruct b
      | |- steady (match ?x with _ => _ end) => destruct x
      | |- steady (let (_, _) := ?x in _) => destruct x
      end ].

Ltac steady_auto := repeat steady_step.

Lemma steady_getConfigPath : steady getConfigPath.
Proof. unfold getConfigPath. steady_auto. Qed.

Lemma steady_saveConfig (dir : string) : steady (saveConfig dir).
Proof. unfold saveConfig, getConfigPath. steady_auto. Qed.

Lemma steady_offerToCreate (dir : string) : steady (offerToCreate dir).
Proof. unfold offerToCreate. steady_auto. Qed.









Lemma steady_cloneRepository (url target root : string) :
  steady (cloneRepository url target root).
Proof. unfold cloneRepository. steady_auto. Qed.

Lemma steady_openInCursor (p : string) : steady (openInCursor p).
Proof. unfold openInCursor. steady_auto. Qed.

Lemma steady_promptOpenInCursor (p : string) : steady (promptOpenInCursor p).
Proof. unfold promptOpenInCursor. steady_auto. Qed.

Lemma steady_cloneAndOpen (url target root : string) :
  steady (cloneAndOpen url target root).
Proof.
  unfold cloneAndOpen. steady_auto.
Qed.

(** * Saving and setting up the configuration *)

Lemma saveConfig_true (dir : string) (w w' : world) :
  saveConfig dir w = (Ret true, w') ->
  trace w' = trace w /\
  configNode w' = Some (FS.File (stringifyConfig dir (now w))).
Proof.
  unfold saveConfig. run_monad.
  destruct (FS.lookup _ (files w)) as [x|]; cbn [negb].
  - destruct (FS.write _ _ (files w)) as [f|] eqn:E; [|discriminate].
    intros H. injection H as <-. split; [reflexivity|].
    exact (lookup_write _ _ _ _ E).
  - destruct (FS.mkdirp _ (files w)) as [f0|]; [|discriminate].
    destruct (FS.write _ _ (files (setFiles f0 w))) as [f|] eqn:E;
      [|discriminate].
    intros H. injection H as <-. split; [reflexivity|].
    exact (lookup_write _ _ _ _ E).
Qed.

(** X9: [saveConfig] never throws and never ends the process, and it asks
    nothing: it answers [true] once the configuration file holds the
    directory and the time of the call, and [false] after reporting what
    went wrong. *)
Theorem saveConfig_reports (dir : string) (w : world) :
  exists saved w',
    saveConfig dir w = (Ret saved, w') /\
    input w' = input w /\
    if saved
    then trace w' = trace w /\
         configNode w' = Some (FS.File (stringifyConfig dir (now w)))
    else exists msg,
           trace w' =
           (trace w ++ [Logged ERROR ("Error saving config: " ++ msg)])%list.
Proof.
  unfold saveConfig. run_monad.
  destruct (FS.lookup _ (files w)) as [x|]; cbn [negb].
  - destruct (FS.write _ _ (files w)) as [f|] eqn:E.
    + exists true. eexists. split; [reflexivity|].
      split; [reflexivity|]. split; [reflexivity|].
      exact (lookup_write _ _ _ _ E).
    + exists false. eexists. split; [reflexivity|].
      split; [reflexivity|]. eexists. reflexivity.
  - destruct (FS.mkdirp _ (files w)) as [f0|].
    + destruct (FS.write _ _ (files (setFiles f0 w))) as [f|] eqn:E.
      * exists true. eexists. split; [reflexivity|].
        split; [reflexivity|]. split; [reflexivity|].
        exact (lookup_write _ _ _ _ E).
      * exists false. eexists. split; [reflexivity|].
        split; [reflexivity|]. eexists. reflexivity.
    + exists false. eexists. split; [reflexivity|].
      split; [reflexivity|]. eexists. reflexivity.
Qed.

Lemma validateProjectsDir_below_home (w : world) (segs more : list string)
      (s t : string) :
  homedir w = absPath segs ->
  forallb plain (segs ++ more ++ [s]) = true ->
  Str.rev s = String "s" t ->
  validateProjectsDir (absPath (segs ++ more ++ [s])) w = None.
Proof.
  intros Hhome Hplain Hrev. unfold validateProjectsDir.
  replace (segs ++ more ++ [s])%list with ((segs ++ more) ++ [s])%list in *
    by (now rewrite <- app_assoc).
  rewrite (trim_absPath_snoc _ _ _ Hrev).
  change (Str.isEmpty (absPath ((segs ++ more) ++ [s]))) with false.
  cbn [orb]. rewrite resolve_abs by exact Hplain.
  rewrite Hhome, <- app_assoc, absPath_prefix. reflexivity.
Qed.

(** X10: with a home directory given as a normalized absolute path, the default
    that first-run setup proposes is [Projects] or [Developer/Projects]
    below it (never the latter on Windows, and only where [Developer]
    exists), and the validator of the prompt accepts it: pressing Enter is
    always a valid answer. *)
Theorem default_projects_dir_accepted (w : world) (segs : list string) :
  homedir w = absPath segs ->
  forallb plain segs = true ->
  exists d,
    getDefaultProjectsDir w = (Ret d, w) /\
    (d = absPath (segs ++ ["Projects"]) \/
     d = absPath (segs ++ ["Developer"; "Projects"]) /\
     platform w <> "win32" /\
     fileExists w (absPath (segs ++ ["Developer"])) = true) /\
    validateProjectsDir d w = None.
Proof.
  intros Hhome Hplain.
  assert (J1 : Path.join [homedir w; "Projects"] = absPath (segs ++ ["Projects"])).
  { rewrite join_abs_plain by (rewrite ?Hhome; reflexivity).
    now rewrite Hhome, normalize_absPath. }
  assert (J2 : Path.join [homedir w; "Developer"; "Projects"] =
               absPath (segs ++ ["Developer"; "Projects"])).
  { rewrite join_abs_plain2 by (rewrite ?Hhome; reflexivity).
    now rewrite Hhome, normalize_absPath. }
  assert (J3 : Path.join [homedir w; "Developer"] = absPath (segs ++ ["Developer"])).
  { rewrite join_abs_plain by (rewrite ?Hhome; reflexivity).
    now rewrite Hhome, normalize_absPath. }
  assert (V1 : validateProjectsDir (absPath (segs ++ ["Projects"])) w = None).
  { apply (validateProjectsDir_below_home w segs [] "Projects" "tcejorP");
      [exact Hhome | | reflexivity].
    apply forallb_plain_app; [exact Hplain | reflexivity]. }
  assert (V2 : validateProjectsDir
                 (absPath (segs ++ ["Developer"; "Projects"])) w = None).
  { apply (validateProjectsDir_below_home w segs ["Developer"] "Projects"
                                          "tcejorP");
      [exact Hhome | | reflexivity].
    apply forallb_plain_app; [exact Hplain | reflexivity]. }
  unfold getDefaultProjectsDir. run_monad. rewrite J1, J2, J3.
  destruct (String.eqb_spec (platform w) "win32") as [Ew|Nw].
  - eexists. split; [reflexivity|]. split; [now left | exact V1].
  - unfold fileExists.
    destruct (FS.lookup _ (files w)) as [x|].
    + eexists. split; [reflexivity|]. split; [right; now repeat split | exact V2].
    + eexists. split; [reflexivity|]. split; [now left | exact V1].
Qed.


(** After the offer to create a missing directory, the directory is
    there: the user who declines does not get past it. *)
Lemma offerToCreate_ret (dir : string) (w w' : world) :
  offerToCreate dir w = (Ret tt, w') -> fileExists w' dir = true.
Proof.
  unfold offerToCreate, promptConfirm, fileExists. run_monad.
  destruct (FS.lookup (segmentsOf w dir) (files w)) as [x|] eqn:L; cbn [negb].
  - intros H. injection H as <-. now rewrite L.
  - destruct (input w) as [|[t|[[|]|]|i|s n c] more]; try discriminate.
    + destruct (FS.mkdirp _ _) as [f|] eqn:E; [|discriminate].
      intros H. injection H as <-.
      destruct (lookup_mkdirp _ _ _ E) as [es Les].
      unfold segmentsOf in *. cbn [files cwd emit setFiles setInput] in *.
      now rewrite Les.
    + destruct (FS.mkdirp _ _) as [f|] eqn:E; [|discriminate].
      intros H. injection H as <-.
      destruct (lookup_mkdirp _ _ _ E) as [es Les].
      unfold segmentsOf in *. cbn [files cwd emit setFiles setInput] in *.
      now rewrite Les.
Qed.

(** Saving the configuration makes nothing disappear. *)
Lemma saveConfig_keeps (dir p : string) (w : world) (saved : bool)
      (w' : world) :
  saveConfig dir w = (Ret saved, w') ->
  fileExists w p = true -> fileExists w' p = true.
Proof.
  unfold saveConfig, fileExists. run_monad.
  destruct (FS.lookup (segmentsOf w p) (files w)) as [x|] eqn:L;
    [|discriminate].
  intros H _.
  destruct (FS.lookup _ (files w)) as [y|] in H; cbn [negb] in H.
  - destruct (FS.write _ _ (files w)) as [f|] eqn:E in H.
    + injection H as _ <-. destruct (write_keeps _ _ _ _ _ _ E L) as [z Lz].
      unfold segmentsOf in *. cbn [files cwd emit setFiles setInput] in *.
      now rewrite Lz.
    + injection H as _ <-. unfold segmentsOf in *.
      cbn [files cwd emit setFiles setInput] in *. now rewrite L.
  - destruct (FS.mkdirp _ (files w)) as [f0|] eqn:E0 in H.
    + destruct (mkdirp_keeps _ _ _ _ _ E0 L) as (y & Ly & _).
      destruct (FS.write _ _ (files (setFiles f0 w))) as [f|] eqn:E in H.
      * injection H as _ <-.
        destruct (write_keeps _ _ _ _ _ _ E Ly) as [z Lz].
        unfold segmentsOf in *. cbn [files cwd emit setFiles setInput] in *.
        now rewrite Lz.
      * injection H as _ <-. unfold segmentsOf in *.
        cbn [files cwd emit setFiles setInput] in *. now rewrite Ly.
    + injection H as _ <-. unfold segmentsOf in *.
      cbn [files cwd emit setFiles setInput] in *. now rewrite L.
Qed.




Lemma setConfig_ret (p : string) (w w' : world) :
  setConfig p w = (Ret tt, w') ->
  Str.startsWith (Path.resolve (cwd w) [p]) (homedir w) = true /\
  fileExists w' (Path.resolve (cwd w) [p]) = true /\
  configNode w' =
    Some (FS.File (stringifyConfig (Path.resolve (cwd w) [p]) (now w))).
Proof.
  unfold setConfig. intros H.
  step H E1. step H E2. step H E3. step H E4. step H E5.
  injection E1 as <- <-. injection E2 as <- <-.
  destruct (Str.startsWith (Path.resolve (cwd w) [p]) (homedir w)) eqn:S;
    [|discriminate]. cbn in E3. injection E3 as <- <-.
  repeat match goal with u : unit |- _ => destruct u end.
  match type of E5 with _ = (Ret ?b, _) => destruct b; [|discriminate] end.
  pose proof (steady_offerToCreate _ _ _ _ E4) as S4.
  destruct S4 as (_ & _ & _ & _ & _ & _ & Hn & _).
  destruct (saveConfig_true _ _ _ E5) as [_ Hnode].
  injection H as <-.
  split; [reflexivity|]. split.
  - exact (saveConfig_keeps _ _ _ _ _ E5 (offerToCreate_ret _ _ _ E4)).
  - rewrite <- Hn. exact Hnode.
Qed.

Lemma setConfig_exit (p : string) (w : world) (o : outcome unit) (w' : world) :
  setConfig p w = (o, w') ->
  match o with
  | Ret _ | Hang => True
  | Exit c => c = 1%Z
  | Throw _ => False
  end.
Proof.
  unfold setConfig, offerToCreate, saveConfig, promptConfirm. run_monad.
  intros H. repeat split_run H.
  all: injection H as <- <-; try exact I; reflexivity.
Qed.

(** * The folders of the projects directory *)



(** * Choosing the folder *)







(** X14: in the list of parent locations the projects directory goes by the
    value [root], and a folder by its name: a folder that is itself called
    [root] is taken for the projects directory, and the new folder is
    created beside it, not inside it. *)
Theorem parent_named_root (root : string) (folders : list string)
        (name typed : string) (i : nat) (more : list answer) (w : world) :
  nth_error folders i = Some "root" ->
  input w = Picked 0 :: Picked (S i) :: Typed typed :: more ->
  validateNewFolderName root "root" typed w = None ->
  Str.isEmpty typed = false ->
  exists w',
    chooseTargetFolder root folders name w = (Ret (Str.trim typed, false), w') /\
    input w' = more /\ files w' = files w.
Proof.
  intros Hi Hin Hv Ht. unfold chooseTargetFolder.
  destruct folders as [|f folders]; [destruct i; discriminate|].
  cbn [isNil]. unfold bind at 1. unfold promptList at 1. rewrite Hin.
  cbn [nth_error]. cbn [String.eqb Ascii.eqb Bool.eqb andb].
  cbv beta iota.
  unfold bind at 1. unfold promptList at 1. cbn [input setInput emit].
  cbn [nth_error].
  assert (Hn : nth_error
                 (map (fun folder : string => ("📂 " ++ folder ++ "/", folder))
                      (f :: folders)) i =
               Some ("📂 " ++ "root" ++ "/", "root")).
  { now rewrite nth_error_map, Hi. }
  rewrite Hn. cbv beta iota.
  unfold bind at 1. unfold promptInput. cbn [input setInput emit inputLoop].
  rewrite Ht.
  change (validateNewFolderName root "root" typed _)
    with (validateNewFolderName root "root" typed w).
  rewrite Hv. cbv beta iota. cbn [String.eqb Ascii.eqb Bool.eqb andb].
  eexists. split; [reflexivity|]. now split.
Qed.

(** ** The target of a new folder *)

Lemma plain_not_absolute (s : string) :
  plain s = true -> Path.isAbsolute s = false.
Proof.
  intros H. pose proof (plain_noSlash _ H) as Hn. unfold noSlash in Hn.
  destruct s as [|c s]; [reflexivity|]. cbn in *.
  apply negb_true_iff, orb_false_iff in Hn. tauto.
Qed.

(** [path.join] of two plain names puts a slash between them. *)
Lemma join_rel_plain (a b : string) :
  plain a = true -> plain b = true -> Path.join [a; b] = a ++ "/" ++ b.
Proof.
  intros Ha Hb. unfold Path.join.
  assert (Hae : Str.isEmpty a = false) by (now destruct a).
  assert (Hbe : Str.isEmpty b = false) by (now destruct b).
  cbn [filter]. rewrite Hae, Hbe. cbn [negb String.concat].
  unfold Path.normalize.
  assert (Hc : Str.isEmpty (a ++ "/" ++ b) = false) by (now destruct a).
  assert (Habs : Path.isAbsolute (a ++ "/" ++ b) = false).
  { pose proof (plain_not_absolute _ Ha) as N. destruct a; [discriminate|exact N]. }
  rewrite Hc, Habs. cbn [negb]. unfold Path.normalizeString, Path.sep.
  assert (Hn : Path.normalizeSegments true (Path.split (a ++ "/" ++ b)) = [a; b]).
  { unfold Path.normalizeSegments.
    change (a ++ "/" ++ b) with (a ++ String "/" b).
    rewrite split_app, !split_noSlash by (now apply plain_noSlash).
    cbn [app fold_left].
    now rewrite (pushSegment_plain _ _ _ Ha), (pushSegment_plain _ _ _ Hb). }
  rewrite Hn. cbn [String.concat]. rewrite Hc.
  rewrite <- (append_assoc a "/" b), (hasTrailingSep_plain _ b Hb).
  now rewrite append_assoc.
Qed.

(** Joining a root with [parent/name] is joining it with both. *)
Lemma join_root_nested (root parent name : string) :
  plain parent = true -> plain name = true ->
  Path.join [root; Path.join [parent; name]] = Path.join [root; parent; name].
Proof.
  intros Hp Hn. rewrite (join_rel_plain _ _ Hp Hn). unfold Path.join.
  assert (Hpe : Str.isEmpty parent = false) by (now destruct parent).
  assert (Hne : Str.isEmpty name = false) by (now destruct name).
  assert (Hx : Str.isEmpty (parent ++ "/" ++ name) = false)
    by (now destruct parent).
  cbn [filter]. rewrite Hpe, Hne, Hx. cbn [negb].
  destruct (Str.isEmpty root); reflexivity.
Qed.

Lemma includes_slash_nested (parent name : string) :
  Str.includes Str.slash (parent ++ "/" ++ name) = true.
Proof.
  rewrite includes_append. cbn. now rewrite orb_true_r.
Qed.

Lemma confirmIfNotEmpty_files (dir msg : string) (w : world)
      (o : outcome unit) (w' : world) :
  confirmIfNotEmpty dir msg w = (o, w') -> files w' = files w.
Proof.
  unfold confirmIfNotEmpty, promptConfirm. run_monad.
  intros H. repeat split_run H. all: now injection H as <- <-.
Qed.

(** X15: for a new folder with a plain name, the clone target is that name
    directly below the projects directory, or below the chosen parent
    folder inside it; determining it changes no file. *)
Theorem determineTargetDir_new_folder (root parent name repo : string)
        (w w' : world) (target : string) :
  Path.isAbsolute root = true -> plain name = true ->
  (determineTargetDir root name false repo w = (Ret target, w') ->
   target = absPath (Path.normalizeSegments false (Path.split root) ++ [name]) /\
   files w' = files w) /\
  (plain parent = true ->
   determineTargetDir root (Path.join [parent; name]) true repo w =
     (Ret target, w') ->
   target = absPath (Path.normalizeSegments false (Path.split root)
                       ++ [parent; name]) /\
   files w' = files w).
Proof.
  intros Hroot Hn. split.
  - unfold determineTargetDir. rewrite (join_abs_plain _ _ Hroot Hn).
    intros H. step_as H E u w1. injection H as <- <-.
    split; [reflexivity|]. exact (confirmIfNotEmpty_files _ _ _ _ _ E).
  - intros Hp. unfold determineTargetDir.
    rewrite (join_root_nested root _ _ Hp Hn), (join_rel_plain _ _ Hp Hn).
    rewrite includes_slash_nested.
    rewrite (join_abs_plain2 _ _ _ Hroot Hp Hn).
    intros H. step_as H E u w1. injection H as <- <-.
    split; [reflexivity|]. exact (confirmIfNotEmpty_files _ _ _ _ _ E).
Qed.

(** X30: for an existing folder with a plain name and a link whose default
    name is not a dot segment, the clone target is the repository name
    nested inside that folder below the projects directory; determining it
    changes no file. *)
Theorem determineTargetDir_existing_folder (root folder url : string)
        (w w' : world) (target : string) :
  Path.isAbsolute root = true -> plain folder = true ->
  defaultRepoName url <> "." -> defaultRepoName url <> ".." ->
  determineTargetDir root folder true (defaultRepoName url) w =
    (Ret target, w') ->
  target = absPath (Path.normalizeSegments false (Path.split root)
                      ++ [folder; defaultRepoName url]) /\
  files w' = files w.
Proof.
  intros Hroot Hf H1 H2 H.
  pose proof (defaultRepoName_plain url H1 H2) as Hr.
  destruct (determineTargetDir_nested _ _ _ _ _ _ Hroot Hf Hr H)
    as (Et & _ & Fs).
  split; [|exact Fs]. subst target.
  rewrite (join_abs_plain _ _ Hroot Hf).
  set (R := Path.normalizeSegments false (Path.split root)).
  replace (R ++ [folder; defaultRepoName url])%list
    with ((R ++ [folder]) ++ [defaultRepoName url])%list
    by (now rewrite <- app_assoc).
  symmetry. apply absPath_snoc. now destruct R.
Qed.

(** * The clone step, process by process *)




(** ** The contract of [cloneRepository] *)

(** X16: [cloneRepository] returns its target or ends the process with status
    1, never anything else.  It starts [git] at most once, and then in a
    file system where the parent directory of the target exists, created
    by the function itself when it was missing; it returns exactly when
    that [git clone] ended with status 0.  When no [git] was started, the
    files are as they were. *)
Theorem cloneRepository_prepares_parent (url target root : string) (w : world)
        (o : outcome string) (w' : world) :
  cloneRepository url target root w = (o, w') ->
  exists shown,
    trace w' = (trace w ++ shown)%list /\
    (o = Ret target \/ o = Exit 1%Z) /\
    ((filter isRan shown = [] /\ files w' = files w /\ o = Exit 1%Z) \/
     exists prepared out,
       filter isRan shown = [gitClone url target root out] /\
       (prepared = files w \/
        FS.mkdirp (segmentsOf w (Path.dirname target)) (files w) = Some prepared) /\
       fileExists (setFiles prepared w) (Path.dirname target) = true /\
       spawn w "git" ["clone"; url; target] (gitOptions root) prepared =
         (out, files w') /\
       (o = Ret target <-> cloneFailed out = false)).
Proof.
  unfold cloneRepository, spawnSync, fileExists, gitClone, gitOptions.
  run_monad. intros H.
  destruct (FS.lookup (segmentsOf w (Path.dirname target)) (files w))
    as [x|] eqn:L; cbn [negb] in H; cbv beta iota zeta in H.
  - cbn [files emit spawn] in H.
    destruct (spawn w "git" ["clone"; url; target]
                    (SpawnOptions "inherit" (Some root) false) (files w))
      as [out f] eqn:S.
    destruct out as [[[e|] [z|]]|e]; cbn in H;
      try (destruct (Z.eqb_spec z 0) as [->|Nz]; cbn in H);
      injection H as <- <-;
      (eexists; split;
       [cbn [trace emit setFiles]; rewrite <- ?app_assoc; reflexivity|]);
      (split; [auto|]); right; exists (files w); eexists;
      (split; [reflexivity|]); (split; [now left|]);
      (split; [unfold segmentsOf in *; cbn [files setFiles cwd] in *;
               now rewrite L|]);
      (split; [exact S|]); cbn;
      try (destruct (Z.eqb_spec z 0); try contradiction);
      cbn; split; intros X; first [discriminate X | reflexivity].
  - destruct (FS.mkdirp (segmentsOf w (Path.dirname target)) (files w))
      as [prepared|] eqn:M.
    + cbn [files emit spawn setFiles] in H.
      destruct (lookup_mkdirp _ _ _ M) as [es Les].
      destruct (spawn w "git" ["clone"; url; target]
                      (SpawnOptions "inherit" (Some root) false) prepared)
        as [out f] eqn:S.
      destruct out as [[[e|] [z|]]|e]; cbn in H;
        try (destruct (Z.eqb_spec z 0) as [->|Nz]; cbn in H);
        injection H as <- <-;
        (eexists; split;
         [cbn [trace emit setFiles]; rewrite <- ?app_assoc; reflexivity|]);
        (split; [auto|]); right; exists prepared; eexists;
        (split; [reflexivity|]); (split; [now right|]);
        (split; [unfold segmentsOf in *; cbn [files setFiles cwd] in *;
                 now rewrite Les|]);
        (split; [exact S|]); cbn;
        try (destruct (Z.eqb_spec z 0); try contradiction);
        cbn; split; intros X; first [discriminate X | reflexivity].
    + injection H as <- <-. eexists. split; [reflexivity|].
      split; [now right|]. left. now repeat split.
Qed.

(** ** The editor launch *)

(** X17: [openInCursor] always returns.  It starts [cursor] on the directory
    and, whenever [spawnSync] returns, announces the editor, whatever the
    result says; [code] is started only when [spawnSync] threw for
    [cursor], and the advice to open the directory by hand is shown only
    when it threw for both. *)
Theorem openInCursor_attempts (p : string) (w : world) :
  exists w',
    openInCursor p w = (Ret tt, w') /\
    match spawn w "cursor" [p] detachedIgnore (files w) with
    | (Spawned r, f) =>
        files w' = f /\
        trace w' =
        (trace w ++ [editorRun "cursor" p (Spawned r);
                     Logged SUCCESS "Opening in Cursor..."])%list
    | (SpawnRefused e, f) =>
        match spawn w "code" [p] detachedIgnore f with
        | (Spawned r2, f2) =>
            files w' = f2 /\
            trace w' =
            (trace w ++ [editorRun "cursor" p (SpawnRefused e);
                         editorRun "code" p (Spawned r2);
                         Logged SUCCESS "Opening in editor..."])%list
        | (SpawnRefused e2, f2) =>
            files w' = f2 /\
            trace w' =
            (trace w ++ [editorRun "cursor" p (SpawnRefused e);
                         editorRun "code" p (SpawnRefused e2);
                         Logged WARNING
                           "Could not open in Cursor automatically. Please open manually."])%list
        end
    end.
Proof.
  unfold openInCursor, spawnSync, editorRun, detachedIgnore. run_monad.
  destruct (spawn w "cursor" [p] _ (files w)) as [[r|e] f] eqn:S1;
    cbv beta iota zeta.
  - eexists. split; [reflexivity|]. cbn [files trace emit setFiles].
    rewrite <- !app_assoc. now split.
  - cbn [files spawn emit setFiles].
    destruct (spawn w "code" [p] _ f) as [[r2|e2] f2] eqn:S2;
      cbv beta iota zeta.
    + eexists. split; [reflexivity|]. cbn [files trace emit setFiles].
      rewrite <- !app_assoc. now split.
    + eexists. split; [reflexivity|]. cbn [files trace emit setFiles].
      rewrite <- !app_assoc. now split.
Qed.

(** * The theorems above, at concrete inputs *)



Lemma validateGitUrl_accepts_hosted_witness :
  isName "user" = true /\ isName "repo" = true /\
  forallb (fun prefix =>
             validateGitUrl (prefix ++ "user" ++ "/" ++ "repo" ++ "/tree/main"))
          hostedPrefixes = true.
Proof.
  split; [reflexivity|]. split; [reflexivity|].
  exact (validateGitUrl_accepts_hosted "user" "repo" "/tree/main"
                                       eq_refl eq_refl).
Defined.

Lemma validateGitUrl_shape_witness :
  validateGitUrl "git@github.com:user/repo.git" = true /\
  Str.endsWith "git@github.com:user/repo.git" ".git" &&
    (Str.startsWith "git@github.com:user/repo.git" "http://" ||
     Str.startsWith "git@github.com:user/repo.git" "https://" ||
     Str.startsWith "git@github.com:user/repo.git" "git@") ||
  existsb (Str.startsWith "git@github.com:user/repo.git") hostedPrefixes = true.
Proof.
  split; [reflexivity|].
  exact (validateGitUrl_shape "git@github.com:user/repo.git" eq_refl).
Defined.

Lemma validatePath_sound_witness :
  Path.isAbsolute "/home/u" = true /\
  validatePathWithinProjectsDir "/home/u" "Projects/work/../repo"
                                "/home/u/Projects" =
    Some "/home/u/Projects/repo" /\
  "/home/u/Projects/repo" = Path.resolve "/home/u" ["Projects/work/../repo"] /\
  Path.isAbsolute "/home/u/Projects/repo" = true /\
  isWithin "/home/u" "Projects/work/../repo" "/home/u/Projects" = true.
Proof.
  split; [reflexivity|]. split; [reflexivity|].
  exact (validatePath_sound "/home/u" "Projects/work/../repo"
                            "/home/u/Projects" "/home/u/Projects/repo"
                            eq_refl eq_refl).
Defined.

Lemma validatePath_exact_witness :
  Path.isAbsolute "/" = true /\
  Path.resolve "/" ["/a/proj"] <> "/" /\
  isWithin "/" "/a/proj2" "/a/proj" = false /\
  validatePathWithinProjectsDir "/" "/a/proj2" "/a/proj" = None.
Proof.
  assert (N : Path.resolve "/" ["/a/proj"] <> "/") by discriminate.
  split; [reflexivity|]. split; [exact N|]. split; [reflexivity|].
  exact (proj2 (validatePath_exact "/" "/a/proj2" "/a/proj" eq_refl N)
               eq_refl).
Defined.

Lemma validatePath_stable_witness :
  Path.isAbsolute "/home/u" = true /\
  validatePathWithinProjectsDir "/home/u" "Projects/work/../repo"
                                "/home/u/Projects" =
    Some "/home/u/Projects/repo" /\
  validatePathWithinProjectsDir "/home/u" "/home/u/Projects/repo"
                                "/home/u/Projects" =
    Some "/home/u/Projects/repo".
Proof.
  split; [reflexivity|]. split; [reflexivity|].
  exact (validatePath_stable "/home/u" "Projects/work/../repo"
                             "/home/u/Projects" "/home/u/Projects/repo"
                             eq_refl eq_refl).
Defined.

Lemma default_projects_dir_accepted_witness :
  homedir (sampleWorld [] None sampleFiles []) = absPath ["home"; "u"] /\
  forallb plain ["home"; "u"] = true /\
  exists d,
    getDefaultProjectsDir (sampleWorld [] None sampleFiles []) =
      (Ret d, sampleWorld [] None sampleFiles []) /\
    validateProjectsDir d (sampleWorld [] None sampleFiles []) = None.
Proof.
  split; [reflexivity|]. split; [reflexivity|].
  destruct (default_projects_dir_accepted
              (sampleWorld [] None sampleFiles []) ["home"; "u"]
              eq_refl eq_refl) as (d & Hd & _ & Hv).
  exists d. split; [exact Hd | exact Hv].
Defined.



Lemma parent_named_root_witness :
  nth_error ["root"; "work"] 0 = Some "root" /\
  validateNewFolderName "/home/u/Projects" "root" "tool"
    (sampleWorld [] None sampleFiles [Picked 0; Picked 1; Typed "tool"]) = None /\
  exists w',
    chooseTargetFolder "/home/u/Projects" ["root"; "work"] "repo"
      (sampleWorld [] None sampleFiles [Picked 0; Picked 1; Typed "tool"]) =
    (Ret ("tool", false), w').
Proof.
  split; [reflexivity|]. split; [reflexivity|].
  destruct (parent_named_root "/home/u/Projects" ["root"; "work"] "repo" "tool"
              0 []
              (sampleWorld [] None sampleFiles [Picked 0; Picked 1; Typed "tool"])
              eq_refl eq_refl eq_refl eq_refl) as (w' & H & _).
  exists w'. exact H.
Defined.

Lemma cloneRepository_prepares_parent_witness :
  exists w' prepared out,
    cloneRepository "https://github.com/user/repo.git"
                    "/home/u/Projects/new/repo" "/home/u/Projects"
                    (sampleWorld [] None sampleFiles []) =
      (Ret "/home/u/Projects/new/repo", w') /\
    fileExists (setFiles prepared (sampleWorld [] None sampleFiles []))
               (Path.dirname "/home/u/Projects/new/repo") = true /\
    allSucceed "git"
               ["clone"; "https://github.com/user/repo.git";
                "/home/u/Projects/new/repo"]
               (gitOptions "/home/u/Projects") prepared = (out, files w').
Proof.
  pose (w := sampleWorld [] None sampleFiles []).
  pose (r := cloneRepository "https://github.com/user/repo.git"
                             "/home/u/Projects/new/repo" "/home/u/Projects" w).
  assert (E : r = (Ret "/home/u/Projects/new/repo", snd r))
    by (vm_compute; reflexivity).
  destruct (cloneRepository_prepares_parent _ _ _ _ _ _ E)
    as (shown & _ & _ & [(_ & _ & X) | (prepared & out & _ & _ & P & S & _)]);
    [discriminate X|].
  exists (snd r), prepared, out. split; [exact E|].
  split; [exact P | exact S].
Defined.

Lemma determineTargetDir_new_folder_witness :
  Path.isAbsolute "/home/u/Projects" = true /\ plain "tool" = true /\
  plain "work" = true /\
  exists w',
    determineTargetDir "/home/u/Projects" (Path.join ["work"; "tool"]) true
                       "repo" (sampleWorld [] None sampleFiles []) =
      (Ret "/home/u/Projects/work/tool", w') /\
    "/home/u/Projects/work/tool" =
      absPath (Path.normalizeSegments false (Path.split "/home/u/Projects")
                 ++ ["work"; "tool"]).
Proof.
  split; [reflexivity|]. split; [reflexivity|]. split; [reflexivity|].
  pose (w := sampleWorld [] None sampleFiles []).
  pose (r := determineTargetDir "/home/u/Projects" (Path.join ["work"; "tool"])
                                true "repo" w).
  assert (E : r = (Ret "/home/u/Projects/work/tool", snd r))
    by (vm_compute; reflexivity).
  exists (snd r). split; [exact E|].
  exact (proj1 (proj2 (determineTargetDir_new_folder
                         "/home/u/Projects" "work" "tool" "repo" w (snd r)
                         "/home/u/Projects/work/tool" eq_refl eq_refl)
                      eq_refl E)).
Defined.

Lemma determineTargetDir_existing_folder_witness :
  Path.isAbsolute "/home/u/Projects" = true /\ plain "work" = true /\
  defaultRepoName "https://github.com/u/tool.git" = "tool" /\
  exists w',
    determineTargetDir "/home/u/Projects" "work" true
                       (defaultRepoName "https://github.com/u/tool.git")
                       cloneIntoWork =
      (Ret "/home/u/Projects/work/tool", w') /\
    "/home/u/Projects/work/tool" =
      absPath (Path.normalizeSegments false (Path.split "/home/u/Projects")
                 ++ ["work"; defaultRepoName "https://github.com/u/tool.git"]).
Proof.
  split; [reflexivity|]. split; [reflexivity|]. split; [reflexivity|].
  pose (r := determineTargetDir "/home/u/Projects" "work" true
               (defaultRepoName "https://github.com/u/tool.git") cloneIntoWork).
  assert (E : r = (Ret "/home/u/Projects/work/tool", snd r))
    by (vm_compute; reflexivity).
  exists (snd r). split; [exact E|].
  refine (proj1 (determineTargetDir_existing_folder
                   "/home/u/Projects" "work" "https://github.com/u/tool.git"
                   cloneIntoWork (snd r) "/home/u/Projects/work/tool"
                   eq_refl eq_refl _ _ E)); discriminate.
Defined.

(** * The script, for any JavaScript runtime

    Everything in this section holds for any JavaScript number type and any
    [JSON.parse]. *)

Section Runtime.

Variable number : Type.
Variable numberIsTruthy : number -> bool.
Variable numberToString : number -> string.
Variable JSON_parse : string -> exn + value number.

Abbreviation loadConfig' := (loadConfig numberIsTruthy numberToString JSON_parse).
Abbreviation script' := (script numberIsTruthy numberToString JSON_parse).

(** ** Loading the configuration *)

Lemma envSet_truthy (w : world) :
  truthy numberIsTruthy (envValue number w) = envSet w.
Proof. unfold envValue, envSet. destruct (envProjectsDir w); reflexivity. Qed.


Lemma loadConfig_spec (w : world) :
  loadConfig' w =
  (Ret (effectiveRoot numberIsTruthy JSON_parse w), afterLoad JSON_parse w).
Proof.
  unfold loadConfig, afterLoad, effectiveRoot, persistedRoot, configFailure.
  cbn [bind get]. rewrite envSet_truthy.
  unfold envValue.
  destruct (envSet w) eqn:Hset; unfold envSet in Hset;
    destruct (envProjectsDir w) as [dir|] eqn:Henv;
    try discriminate; try reflexivity.
  all: unfold configNode, configFileOf; run_monad.
  all: destruct (FS.lookup _ (files w)) as [[text|es]|] eqn:Hnode;
       rewrite ?Hnode; cbv beta iota; try reflexivity.
  all: match goal with |- context [JSON_parse ?t] =>
         destruct (JSON_parse t) as [e|[]] end; try reflexivity.
  all: destruct (truthy numberIsTruthy _); reflexivity.
Qed.

(** C4, amended: the effective root is the environment variable when it is
    set to a non-empty string, else the [projectsDir] field of the persisted
    configuration file, else absent ([null]); [loadConfig] always returns
    normally, and a configuration file that cannot be parsed makes it log a
    warning and report absent. *)
Theorem loadConfig_precedence (w : world) :
  (exists v w', loadConfig' w = (Ret v, w')) /\
  (forall dir, envProjectsDir w = Some dir -> Str.isEmpty dir = false ->
     loadConfig' w = (Ret (VString dir), w)) /\
  (forall text ms,
     envSet w = false -> configNode w = Some (FS.File text) ->
     JSON_parse text = inr (VObject ms) ->
     truthy numberIsTruthy (member "projectsDir" ms) = true ->
     loadConfig' w = (Ret (member "projectsDir" ms), w)) /\
  (envSet w = false ->
   (forall text ms,
      configNode w = Some (FS.File text) ->
      JSON_parse text = inr (VObject ms) ->
      truthy numberIsTruthy (member "projectsDir" ms) = false) ->
   fst (loadConfig' w) = Ret VNull) /\
  (forall text e,
     envSet w = false -> configNode w = Some (FS.File text) ->
     JSON_parse text = inl e ->
     loadConfig' w =
     (Ret VNull,
      emit (Logged WARNING
              ("Warning: Could not read config file: " ++ message e)) w)).
Proof.
  rewrite loadConfig_spec.
  unfold effectiveRoot, afterLoad, persistedRoot, configFailure.
  repeat split.
  - eauto.
  - intros dir Henv Hdir. unfold envSet. rewrite Henv, Hdir. reflexivity.
  - intros text ms Hset -> Hparse Htruthy.
    destruct (envProjectsDir w); rewrite Hset, Hparse, Htruthy; reflexivity.
  - intros Hset Hnone. cbn [fst].
    assert (Hp : match configNode w with
                 | Some (FS.File text) =>
                     match JSON_parse text with
                     | inr (VObject ms) =>
                         if truthy numberIsTruthy (member "projectsDir" ms)
                         then member "projectsDir" ms else VNull
                     | _ => VNull
                     end
                 | _ => VNull
                 end = VNull).
    { destruct (configNode w) as [[text|es]|]; try reflexivity.
      specialize (Hnone text).
      destruct (JSON_parse text) as [e|[]]; try reflexivity.
      now rewrite (Hnone _ eq_refl eq_refl). }
    destruct (envProjectsDir w); rewrite ?Hset, Hp; reflexivity.
  - intros text e Hset -> Hparse.
    destruct (envProjectsDir w); rewrite Hset, Hparse; reflexivity.
Qed.

(** C10: when [GIT_CLONE_PROJECTS_DIR] holds a non-empty string,
    [loadConfig] returns that very string and leaves the world untouched: it
    is neither resolved nor normalized nor checked, so there are values for
    which the effective root is a relative, unnormalized path outside the
    home directory. *)
Theorem loadConfig_env_verbatim :
  (forall (w : world) (dir : string),
     envProjectsDir w = Some dir -> Str.isEmpty dir = false ->
     loadConfig' w = (Ret (VString dir), w)) /\
  (exists (w : world) (dir : string),
     envProjectsDir w = Some dir /\
     loadConfig' w = (Ret (VString dir), w) /\
     isWithin (cwd w) dir (homedir w) = false /\
     Path.isAbsolute dir = false /\
     Path.resolve (cwd w) [dir] <> dir).
Proof.
  split.
  - intros w dir Henv Hdir.
    rewrite loadConfig_spec. unfold effectiveRoot, afterLoad, envSet.
    rewrite Henv, Hdir. reflexivity.
  - exists (sampleWorld [] (Some "../../srv//repos/") sampleFiles []).
    exists "../../srv//repos/".
    split; [reflexivity|]. split; [now rewrite loadConfig_spec|].
    split; [reflexivity|]. split; [reflexivity | discriminate].
Qed.


(** ** [--reset-config] *)



Lemma reset_absent (w : world) (more : list string) :
  argv w = "--reset-config" :: more ->
  configNode w = None ->
  script' w = (Exit 0%Z, emit guidance w).
Proof.
  intros Hargs Hnode. unfold configNode, configFileOf in Hnode.
  unfold script, main, resetConfigCommand. run_monad.
  rewrite Hargs. cbn. rewrite Hnode. reflexivity.
Qed.

Lemma reset_present (w : world) (more : list string) (text : string) :
  argv w = "--reset-config" :: more ->
  FS.isDirectory (files w) = true ->
  configNode w = Some (FS.File text) ->
  exists f,
    FS.unlink (segmentsOf w (configFileOf w)) (files w) = Some f /\
    script' w =
    (Exit 0%Z,
     emit guidance (emit (Logged SUCCESS "Configuration reset.") (setFiles f w))).
Proof.
  intros Hargs Hroot Hnode. unfold configNode in Hnode.
  destruct (unlink_file _ _ _ Hroot Hnode) as [f Hf].
  exists f. split; [exact Hf|].
  unfold configFileOf in Hnode, Hf.
  unfold script, main, resetConfigCommand. run_monad.
  rewrite Hargs. cbn. rewrite Hnode, Hf. reflexivity.
Qed.

(** C7: [--reset-config] deletes the configuration file when there is one
    and succeeds all the same when there is none: in both cases the process
    prints the guidance and exits with 0, no configuration file is left,
    and running the command again changes nothing but the output. *)
Theorem reset_config_idempotent (w : world) (more : list string) :
  argv w = "--reset-config" :: more ->
  FS.isDirectory (files w) = true ->
  (configNode w = None \/ exists text, configNode w = Some (FS.File text)) ->
  exists w',
    script' w = (Exit 0%Z, w') /\
    configNode w' = None /\
    (exists shown, trace w' = (trace w ++ shown ++ [guidance])%list) /\
    (configNode w = None -> w' = emit guidance w) /\
    (forall text, configNode w = Some (FS.File text) ->
       FS.unlink (segmentsOf w (configFileOf w)) (files w) = Some (files w') /\
       trace w' =
       (trace w ++ [Logged SUCCESS "Configuration reset."; guidance])%list) /\
    script' w' = (Exit 0%Z, emit guidance w').
Proof.
  intros Hargs Hroot [Habsent | [text Hfile]].
  - exists (emit guidance w).
    assert (Hnode' : configNode (emit guidance w) = None) by exact Habsent.
    split; [exact (reset_absent w more Hargs Habsent)|].
    split; [exact Hnode'|].
    split; [exists []; reflexivity|].
    split; [reflexivity|].
    split; [intros text E; rewrite E in Habsent; discriminate|].
    exact (reset_absent (emit guidance w) more Hargs Hnode').
  - destruct (reset_present w more text Hargs Hroot Hfile) as (f & Hf & Hrun).
    set (w' := emit guidance
                 (emit (Logged SUCCESS "Configuration reset.") (setFiles f w))).
    assert (Hnode' : configNode w' = None).
    { unfold configNode. exact (lookup_unlink _ _ _ Hf). }
    exists w'.
    split; [exact Hrun|].
    split; [exact Hnode'|].
    split.
    { exists [Logged SUCCESS "Configuration reset."]. unfold w'. cbn.
      now rewrite <- app_assoc. }
    split; [intros E; rewrite E in Hfile; discriminate|].
    split.
    { intros text' _. split; [exact Hf|]. unfold w'. cbn.
      now rewrite <- app_assoc. }
    exact (reset_absent w' more Hargs Hnode').
Qed.

(** ** Computations that only log and ask *)

Lemma quiet_ret {A} (a : A) : quiet (ret a).
Proof.
  intros w o w' H. injection H as <- <-. exists []. now rewrite app_nil_r.
Qed.

Lemma quiet_get {A} (f : world -> A) : quiet (get f).
Proof.
  intros w o w' H. injection H as <- <-. exists []. now rewrite app_nil_r.
Qed.

Lemma quiet_throw {A} (e : exn) : quiet (@throw A e).
Proof.
  intros w o w' H. injection H as <- <-. exists []. now rewrite app_nil_r.
Qed.

Lemma quiet_exit {A} (c : Z) : quiet (@exit A c).
Proof.
  intros w o w' H. injection H as <- <-. exists []. now rewrite app_nil_r.
Qed.

Lemma quiet_bind {A B} (m : M A) (k : A -> M B) :
  quiet m -> (forall a, quiet (k a)) -> quiet (bind m k).
Proof.
  intros Hm Hk w o w' H. unfold bind in H.
  destruct (m w) as [[a|e|c|] w1] eqn:E; destruct (Hm _ _ _ E) as (s1 & T1 & D1).
  - destruct (Hk a _ _ _ H) as (s2 & T2 & D2).
    exists (s1 ++ s2)%list. rewrite T2, T1, app_assoc. split; [reflexivity|].
    rewrite forallb_app, D1, D2. reflexivity.
  - injection H as <- <-. eauto.
  - injection H as <- <-. eauto.
  - injection H as <- <-. eauto.
Qed.

Lemma quiet_tryCatch {A} (m : M A) (h : exn -> M A) :
  quiet m -> (forall e, quiet (h e)) -> quiet (tryCatch m h).
Proof.
  intros Hm Hh w o w' H. unfold tryCatch in H.
  destruct (m w) as [[a|e|c|] w1] eqn:E; destruct (Hm _ _ _ E) as (s1 & T1 & D1).
  - injection H as <- <-. eauto.
  - destruct (Hh e _ _ _ H) as (s2 & T2 & D2).
    exists (s1 ++ s2)%list. rewrite T2, T1, app_assoc. split; [reflexivity|].
    rewrite forallb_app, D1, D2. reflexivity.
  - injection H as <- <-. eauto.
  - injection H as <- <-. eauto.
Qed.

Lemma quiet_when (b : bool) (m : M unit) : quiet m -> quiet (when b m).
Proof. destruct b; [trivial | intros _; apply quiet_ret]. Qed.

Lemma quiet_log (msg : string) (type : level) : quiet (log msg type).
Proof.
  intros w o w' H. injection H as <- <-. exists [Logged type msg]. now split.
Qed.

Lemma quiet_error {A} (msg : string) : quiet (@error A msg).
Proof. apply quiet_bind; [apply quiet_log | intros; apply quiet_exit]. Qed.

Lemma quiet_success (msg : string) : quiet (success msg).
Proof. apply quiet_log. Qed.

Lemma quiet_existsSync (p : string) : quiet (existsSync p).
Proof. quiet_fs. Qed.

Lemma quiet_mkdirSync (p : string) : quiet (mkdirSync p).
Proof. quiet_fs. Qed.

Lemma quiet_readFileSync (p : string) : quiet (readFileSync p).
Proof. quiet_fs. Qed.

Lemma quiet_writeFileSync (p data : string) : quiet (writeFileSync p data).
Proof. quiet_fs. Qed.

Lemma quiet_unlinkSync (p : string) : quiet (unlinkSync p).
Proof. quiet_fs. Qed.

Lemma quiet_readdirSync (p : string) : quiet (readdirSync p).
Proof. quiet_fs. Qed.

Lemma quiet_resolve (p : string) : quiet (resolve p).
Proof. quiet_fs. Qed.

Lemma quiet_parseJSON (text : string) : quiet (parseJSON JSON_parse text).
Proof.
  unfold parseJSON. destruct (JSON_parse text);
    [apply quiet_throw | apply quiet_ret].
Qed.

Lemma quiet_getProperty (v : value number) (name : string) :
  quiet (getProperty numberToString v name).
Proof.
  unfold getProperty. destruct v; try apply quiet_ret; apply quiet_throw.
Qed.

Lemma quiet_inputLoop (default : string)
      (validate : string -> world -> option string)
      (answers : list answer) (w : world) (o : outcome string) (w' : world) :
  inputLoop default validate answers w = (o, w') ->
  exists shown, trace w' = (trace w ++ shown)%list /\
                forallb isDialog shown = true.
Proof.
  revert w. induction answers as [|a answers IH]; intros w H.
  - injection H as <- <-. exists []. now rewrite app_nil_r.
  - destruct a as [text| | |]; simpl in H;
      try (injection H as <- <-; exists []; now rewrite app_nil_r).
    destruct (validate _ w) as [msg|].
    + destruct (IH _ H) as (s & T & D).
      exists (Rejected msg :: s). rewrite T. cbn. rewrite <- app_assoc.
      now split.
    + injection H as <- <-. exists []. now rewrite app_nil_r.
Qed.

Lemma quiet_promptInput (msg default : string)
      (validate : string -> world -> option string) :
  quiet (promptInput msg default validate).
Proof.
  intros w o w' H. unfold promptInput in H.
  destruct (quiet_inputLoop _ _ _ _ _ _ H) as (s & T & D).
  exists (Asked (AskInput msg default) :: s). rewrite T. cbn.
  rewrite <- app_assoc. now split.
Qed.

Lemma quiet_promptConfirm (msg : string) (default : bool) :
  quiet (promptConfirm msg default).
Proof.
  intros w o w' H. unfold promptConfirm in H.
  exists [Asked (AskConfirm msg default)].
  destruct (input w) as [|[] ?]; injection H as <- <-; now split.
Qed.

Lemma quiet_promptList (msg : string) (choices : list (string * string)) :
  quiet (promptList msg choices).
Proof.
  intros w o w' H. unfold promptList in H.
  exists [Asked (AskList msg (map fst choices))].
  destruct (input w) as [|[| |i|] ?]; try (injection H as <- <-; now split).
  destruct (nth_error choices i) as [[]|]; injection H as <- <-; now split.
Qed.

(** Chain the lemmas above along the structure of a block. *)
Ltac quiet_auto :=
  repeat first
    [ apply quiet_ret | apply quiet_get | apply quiet_throw | apply quiet_exit
    | apply quiet_log | apply quiet_error | apply quiet_success
    | apply quiet_existsSync | apply quiet_mkdirSync | apply quiet_readFileSync
    | apply quiet_writeFileSync | apply quiet_unlinkSync
    | apply quiet_readdirSync | apply quiet_resolve
    | apply quiet_parseJSON | apply quiet_getProperty
    | apply quiet_promptInput | apply quiet_promptConfirm
    | apply quiet_promptList
    | apply quiet_when
    | apply quiet_bind; [|intros]
    | apply quiet_tryCatch; [|intros]
    | match goal with
      | |- quiet (if ?b then _ else _) => destruct b
      | |- quiet (match ?x with _ => _ end) => destruct x
      | |- quiet (let (_, _) := ?x in _) => destruct x
      end ].

Lemma quiet_getConfigPath : quiet getConfigPath.
Proof. unfold getConfigPath. quiet_auto. Qed.

Lemma quiet_loadConfig : quiet loadConfig'.
Proof. unfold loadConfig. quiet_auto. Qed.

Lemma quiet_saveConfig (dir : string) : quiet (saveConfig dir).
Proof. unfold saveConfig. quiet_auto. Qed.

Lemma quiet_offerToCreate (dir : string) : quiet (offerToCreate dir).
Proof. unfold offerToCreate. quiet_auto. Qed.

Lemma quiet_getDefaultProjectsDir : quiet getDefaultProjectsDir.
Proof. unfold getDefaultProjectsDir. quiet_auto. Qed.

Lemma quiet_setupConfig : quiet setupConfig.
Proof.
  unfold setupConfig. quiet_auto.
Qed.

Lemma quiet_getExistingFolders (dir : string) : quiet (getExistingFolders dir).
Proof. unfold getExistingFolders. quiet_auto. Qed.

Lemma quiet_confirmIfNotEmpty (dir msg : string) :
  quiet (confirmIfNotEmpty dir msg).
Proof. unfold confirmIfNotEmpty. quiet_auto. Qed.

Lemma quiet_chooseTargetFolder (root : string) (folders : list string)
      (name : string) :
  quiet (chooseTargetFolder root folders name).
Proof. unfold chooseTargetFolder. quiet_auto. Qed.

Lemma quiet_determineTargetDir (root folder : string) (existing : bool)
      (name : string) :
  quiet (determineTargetDir root folder existing name).
Proof.
  unfold determineTargetDir.
  destruct existing; [destruct (Str.includes Str.slash folder)|];
    (apply quiet_bind; [apply quiet_confirmIfNotEmpty | intros; apply quiet_ret]).
Qed.

Lemma quiet_checkedTarget (target root : string) :
  quiet (checkedTarget target root).
Proof. unfold checkedTarget. quiet_auto. Qed.

Lemma quiet_urlGate (url : string) : quiet (urlGate url).
Proof. unfold urlGate. quiet_auto. Qed.

Lemma quiet_ensureProjectsDir (v : value number) :
  quiet (ensureProjectsDir numberToString v).
Proof.
  unfold ensureProjectsDir, existsSyncValue, mkdirSyncValue. quiet_auto.
Qed.

Lemma quiet_showHelp : quiet showHelp.
Proof. unfold showHelp. quiet_auto. Qed.

Lemma quiet_showVersion : quiet (showVersion numberToString JSON_parse).
Proof. unfold showVersion. quiet_auto. Qed.

Lemma quiet_showConfig :
  quiet (showConfig numberIsTruthy numberToString JSON_parse).
Proof.
  unfold showConfig, getProjectsDir.
  apply quiet_bind; [apply quiet_loadConfig | intros]. quiet_auto.
Qed.

Lemma quiet_setConfig (p : string) : quiet (setConfig p).
Proof.
  unfold setConfig.
  quiet_auto.
Qed.

Lemma quiet_setConfigCommand (args : list string) : quiet (setConfigCommand args).
Proof.
  unfold setConfigCommand.
  destruct (nth_error args 1) as [p|]; [|apply quiet_error].
  destruct (Str.isEmpty p); [apply quiet_error|].
  apply quiet_bind; [apply quiet_setConfig | intros; apply quiet_exit].
Qed.

Lemma quiet_resetConfigCommand : quiet resetConfigCommand.
Proof. unfold resetConfigCommand. quiet_auto. Qed.

(** ** The clone step *)

Lemma cloneRepository_trace (url target root : string) (w : world)
      (o : outcome string) (w' : world) :
  cloneRepository url target root w = (o, w') ->
  exists shown,
    trace w' = (trace w ++ shown)%list /\
    existsb isWrote shown = false /\
    match o with
    | Ret p =>
        p = target /\ existsb isFailedGitRun shown = false /\
        existsb isGoodGitRun shown = true
    | Exit c =>
        c = 1%Z /\ existsb isGoodGitRun shown = false /\
        isErrorReport (last shown (Logged INFO "")) = true
    | _ => False
    end.
Proof.
  unfold cloneRepository, spawnSync. run_monad.
  intros H. repeat split_run H.
  all: injection H as <- <-.
  all: try (cbn in *; congruence).
  all: eexists; split;
    [cbn [trace emit setFiles]; rewrite <- ?app_assoc; reflexivity|].
  all: cbn [existsb isWrote isFailedGitRun isGoodGitRun app orb cloneFailed
            String.eqb Ascii.eqb Bool.eqb andb negb last].
  all: repeat match goal with
              | E : ?x = _ |- context [?x] => rewrite E
              end.
  all: cbn; rewrite ?prefix_nil; repeat split; reflexivity.
Qed.

Lemma openInCursor_trace (p : string) (w : world) (o : outcome unit)
      (w' : world) :
  openInCursor p w = (o, w') ->
  o = Ret tt /\
  exists shown, trace w' = (trace w ++ shown)%list /\
                existsb isGitRun shown = false.
Proof.
  unfold openInCursor, spawnSync. run_monad.
  intros H. repeat split_run H.
  all: injection H as <- <-.
  all: split; [reflexivity|].
  all: eexists; split;
    [cbn [trace emit setFiles]; rewrite <- ?app_assoc; reflexivity|].
  all: reflexivity.
Qed.

Lemma promptOpenInCursor_trace (p : string) (w : world) (o : outcome bool)
      (w' : world) :
  promptOpenInCursor p w = (o, w') ->
  (match o with Throw _ => False | _ => True end) /\
  exists shown, trace w' = (trace w ++ shown)%list /\
                existsb isGitRun shown = false.
Proof.
  unfold promptOpenInCursor, onKeypress. run_monad.
  intros H. repeat split_run H.
  all: injection H as <- <-.
  all: split; [exact I|].
  all: eexists; split;
    [cbn [trace emit setFiles setInput]; rewrite <- ?app_assoc; reflexivity|].
  all: reflexivity.
Qed.

(** The editor question is the first thing [promptOpenInCursor] writes to
    the terminal: a run that wrote nothing never asked it. *)
Lemma promptOpenInCursor_asks (p : string) (w : world) (o : outcome bool)
      (w' : world) :
  promptOpenInCursor p w = (o, w') ->
  exists shown, trace w' = (trace w ++ editorQuestion p :: shown)%list.
Proof.
  unfold promptOpenInCursor, onKeypress, editorQuestion. run_monad.
  intros H. repeat split_run H.
  all: injection H as <- <-.
  all: eexists; cbn [trace emit setFiles setInput];
    rewrite <- ?app_assoc; reflexivity.
Qed.

Lemma existsb_failed_git (l : list event) :
  existsb isGitRun l = false -> existsb isFailedGitRun l = false.
Proof.
  induction l as [|e l IH]; [reflexivity|]. cbn.
  intros H. apply orb_false_iff in H. destruct H as [He Hl].
  rewrite (IH Hl), orb_false_r.
  destruct e; try reflexivity. cbn in *. now rewrite He.
Qed.

Lemma wrote_after (l1 l2 before after : list event) (text : string) :
  existsb isWrote l1 = false ->
  (l1 ++ l2 = before ++ Wrote text :: after)%list ->
  exists mid, before = (l1 ++ mid)%list /\
              l2 = (mid ++ Wrote text :: after)%list.
Proof.
  revert before. induction l1 as [|e l1 IH]; intros before H E.
  - exists before. now split.
  - cbn in H. apply orb_false_iff in H. destruct H as [He Hl].
    destruct before as [|b before]; cbn in E.
    + injection E as -> _. discriminate.
    + injection E as <- E. destruct (IH _ Hl E) as (mid & -> & ->).
      exists mid. now split.
Qed.

(** The clone step: a failed [git clone] ends the process with status 1
    right after the error report, before anything is written to the
    terminal; the editor question comes only after a [git clone] that ended
    with status 0. *)
Lemma cloneAndOpen_trace (url target root : string) (w : world)
      (o : outcome unit) (w' : world) :
  cloneAndOpen url target root w = (o, w') ->
  (match o with Throw _ => False | _ => True end) /\
  exists shown,
    trace w' = (trace w ++ shown)%list /\
    (existsb isFailedGitRun shown = true ->
       o = Exit 1%Z /\ existsb isWrote shown = false /\
       isErrorReport (last shown (Logged INFO "")) = true) /\
    (forall before text after,
       shown = (before ++ Wrote text :: after)%list ->
       existsb isGoodGitRun before = true).
Proof.
  unfold cloneAndOpen. intros H. unfold bind at 1 in H.
  destruct (cloneRepository url target root w) as [o1 w1] eqn:E.
  destruct (cloneRepository_trace _ _ _ _ _ _ E) as (s1 & T1 & W1 & P1).
  destruct o1 as [p|e|c|]; try contradiction.
  - destruct P1 as (-> & F1 & G1).
    assert (Htail : (match o with Throw _ => False | _ => True end) /\
                    exists s2, trace w' = (trace w1 ++ s2)%list /\
                               existsb isGitRun s2 = false).
    { unfold when in H. destruct (negb (Str.isEmpty target)).
      - unfold bind in H.
        destruct (promptOpenInCursor target w1) as [o2 w2] eqn:E2.
        destruct (promptOpenInCursor_trace _ _ _ _ E2) as (N2 & s2 & T2 & G2).
        destruct o2 as [b|e|c|]; try contradiction.
        + destruct b.
          * destruct (openInCursor_trace _ _ _ _ H) as (-> & s3 & T3 & G3).
            split; [exact I|]. exists (s2 ++ s3)%list.
            rewrite T3, T2, app_assoc, existsb_app, G2, G3. now split.
          * injection H as <- <-. split; [exact I|].
            eexists (s2 ++ [_])%list. cbn [trace emit].
            rewrite T2, app_assoc, existsb_app, G2. now split.
        + injection H as <- <-. split; [exact I|]. eauto.
        + injection H as <- <-. split; [exact I|]. eauto.
      - injection H as <- <-. split; [exact I|]. exists []. now rewrite app_nil_r. }
    destruct Htail as (N & s2 & T2 & G2). split; [exact N|].
    exists (s1 ++ s2)%list. rewrite T2, T1, app_assoc.
    split; [reflexivity|]. split.
    + rewrite existsb_app, F1, (existsb_failed_git _ G2). discriminate.
    + intros before text after Eq.
      destruct (wrote_after _ _ _ _ _ W1 Eq) as (mid & -> & _).
      rewrite existsb_app, G1. reflexivity.
  - injection H as <- <-. destruct P1 as (-> & G1 & R1).
    split; [exact I|]. exists s1. split; [exact T1|]. split.
    + intros _. now repeat split.
    + intros before text after Eq. rewrite Eq, existsb_app in W1.
      cbn in W1. rewrite orb_true_r in W1. discriminate.
Qed.

(** ** The whole script *)

Lemma endsInClone_quiet (m : M unit) : quiet m -> endsInClone m.
Proof. intros Hm w o w' H. left. exact (Hm _ _ _ H). Qed.

Lemma endsInClone_cloneAndOpen (url target root : string) :
  endsInClone (cloneAndOpen url target root).
Proof.
  intros w o w' H. right. exists w, [], url, target, root.
  rewrite app_nil_r. now repeat split.
Qed.

Lemma endsInClone_bind {A} (m : M A) (k : A -> M unit) :
  quiet m -> (forall a, endsInClone (k a)) -> endsInClone (bind m k).
Proof.
  intros Hm Hk w o w' H. unfold bind in H.
  destruct (m w) as [[a|e|c|] w1] eqn:E; destruct (Hm _ _ _ E) as (s1 & T1 & D1).
  - destruct (Hk a _ _ _ H) as [(s2 & T2 & D2) | (w2 & s2 & u & t & r & T2 & D2 & R)].
    + left. exists (s1 ++ s2)%list. rewrite T2, T1, app_assoc.
      split; [reflexivity|]. now rewrite forallb_app, D1, D2.
    + right. exists w2, (s1 ++ s2)%list, u, t, r. rewrite T2, T1, app_assoc.
      split; [reflexivity|]. split; [|exact R]. now rewrite forallb_app, D1, D2.
  - injection H as <- <-. left. eauto.
  - injection H as <- <-. left. eauto.
  - injection H as <- <-. left. eauto.
Qed.

Lemma endsInClone_cloneFlow (url root : string) :
  endsInClone (cloneFlow url root).
Proof.
  unfold cloneFlow.
  apply endsInClone_bind; [apply quiet_getExistingFolders | intros folders].
  apply endsInClone_bind; [apply quiet_chooseTargetFolder | intros [folder existing]].
  apply endsInClone_bind; [apply quiet_determineTargetDir | intros target].
  apply endsInClone_bind; [apply quiet_checkedTarget | intros checked].
  apply endsInClone_bind; [apply quiet_get | intros wd].
  apply endsInClone_bind; [apply quiet_confirmIfNotEmpty | intros _].
  apply endsInClone_cloneAndOpen.
Qed.

Lemma endsInClone_cloneCommand (args : list string) (root : string) :
  endsInClone (cloneCommand args root).
Proof.
  unfold cloneCommand.
  destruct (nth_error args 0) as [url|];
    [|apply endsInClone_quiet, quiet_error].
  destruct (Str.isEmpty url); [apply endsInClone_quiet, quiet_error|].
  apply endsInClone_bind; [apply quiet_urlGate | intros _].
  apply endsInClone_cloneFlow.
Qed.

Lemma endsInClone_main :
  endsInClone (main numberIsTruthy numberToString JSON_parse).
Proof.
  unfold main.
  apply endsInClone_bind; [apply quiet_get | intros args].
  apply endsInClone_bind;
    [apply quiet_when, quiet_bind; [apply quiet_showHelp | intros; apply quiet_exit] | intros _].
  apply endsInClone_bind;
    [apply quiet_when, quiet_bind; [apply quiet_showVersion | intros; apply quiet_exit] | intros _].
  apply endsInClone_bind;
    [apply quiet_when, quiet_bind; [apply quiet_showConfig | intros; apply quiet_exit] | intros _].
  apply endsInClone_bind; [apply quiet_when, quiet_setConfigCommand | intros _].
  apply endsInClone_bind; [apply quiet_when, quiet_resetConfigCommand | intros _].
  apply endsInClone_bind; [apply quiet_get | intros git].
  apply endsInClone_bind; [apply quiet_when, quiet_error | intros _].
  apply endsInClone_bind; [apply quiet_loadConfig | intros loaded].
  apply endsInClone_bind.
  { destruct (negb (truthy numberIsTruthy loaded)); [|apply quiet_ret].
    apply quiet_bind; [apply quiet_setupConfig | intros; apply quiet_ret]. }
  intros dir.
  apply endsInClone_bind; [apply quiet_ensureProjectsDir | intros _].
  destruct dir; try apply endsInClone_quiet, quiet_throw.
  apply endsInClone_cloneCommand.
Qed.

Lemma last_app_cons {A} (l : list A) (e : A) (l' : list A) (d : A) :
  last (l ++ e :: l') d = last (e :: l') d.
Proof.
  induction l as [|x l IH]; [reflexivity|].
  cbn [app]. rewrite <- IH. destruct (l ++ e :: l')%list eqn:E; [|reflexivity].
  now destruct l.
Qed.

Lemma forallb_dialog_no_run (l : list event) :
  forallb isDialog l = true ->
  existsb isFailedGitRun l = false /\ existsb isWrote l = false.
Proof.
  induction l as [|e l IH]; [now split|]. cbn.
  intros H. apply andb_true_iff in H. destruct H as [He Hl].
  destruct (IH Hl) as [-> ->]. destruct e; try discriminate; now split.
Qed.

(** C3: whenever the clone subprocess does not end with status 0 (it could
    not be started, or it exited with another status), the script exits
    with status 1, the last thing it shows is the report of the failure,
    and nothing was written to the terminal: the editor question was not
    asked.  Whatever is written to the terminal comes after a [git clone]
    that ended with status 0. *)
Theorem clone_failure_aborts (w : world) (o : outcome unit) (w' : world) :
  script' w = (o, w') ->
  exists shown,
    trace w' = (trace w ++ shown)%list /\
    (existsb isFailedGitRun shown = true ->
       o = Exit 1%Z /\ exitStatus o = Some 1%Z /\
       existsb isWrote shown = false /\
       isErrorReport (last shown (Logged INFO "")) = true) /\
    (forall before text after,
       shown = (before ++ Wrote text :: after)%list ->
       existsb isGoodGitRun before = true).
Proof.
  intros H. unfold script, tryCatch in H.
  destruct (main numberIsTruthy numberToString JSON_parse w) as [o1 w1] eqn:E.
  destruct (endsInClone_main _ _ _ E)
    as [(s & T & D) | (w2 & s & url & target & root & T & D & R)].
  - (* the run ended before the clone step *)
    assert (Hq : exists s', trace w' = (trace w ++ s')%list /\
                            forallb isDialog s' = true).
    { destruct o1 as [a|e|c|]; try (injection H as <- <-; solve [eauto]).
      destruct (@quiet_error unit _ _ _ _ H) as (s2 & T2 & D2).
      exists (s ++ s2)%list. rewrite T2, T, app_assoc.
      split; [reflexivity|]. now rewrite forallb_app, D, D2. }
    destruct Hq as (s' & T' & D').
    destruct (forallb_dialog_no_run _ D') as [F W].
    exists s'. split; [exact T'|]. rewrite F. split; [discriminate|].
    intros before text after Eq. rewrite Eq, existsb_app in W.
    cbn in W. rewrite orb_true_r in W. discriminate.
  - (* the run reached the clone step *)
    destruct (cloneAndOpen_trace _ _ _ _ _ _ R) as (N & s2 & T2 & Hfail & Hwrote).
    assert (Ho : o = o1 /\ w' = w1).
    { destruct o1; try contradiction; injection H as <- <-; now split. }
    destruct Ho as [-> ->].
    destruct (forallb_dialog_no_run _ D) as [F W].
    exists (s ++ s2)%list. rewrite T2, T, app_assoc.
    split; [reflexivity|]. rewrite !existsb_app, F. cbn [orb].
    split.
    + intros Hf. destruct (Hfail Hf) as (-> & W2 & R2).
      split; [reflexivity|]. split; [reflexivity|].
      split; [now rewrite W, W2|].
      destruct s2 as [|e s2]; [discriminate|].
      now rewrite last_app_cons.
    + intros before text after Eq.
      destruct (wrote_after _ _ _ _ _ W Eq) as (mid & -> & E2).
      rewrite existsb_app, (Hwrote _ _ _ E2). apply orb_true_r.
Qed.

(** ** The URL gate *)

Lemma urlGate_accepts (url : string) (w : world) :
  validateGitUrl url = true -> urlGate url w = (Ret tt, w).
Proof. intros H. unfold urlGate. now rewrite H. Qed.


Lemma isOption_false (url flag : string) :
  isOption url = false ->
  In flag ["--help"; "-h"; "--version"; "-v"; "--config"; "-c";
           "--set-config"; "--reset-config"] ->
  String.eqb url flag = false.
Proof.
  unfold isOption. intros H Hin.
  destruct (String.eqb url flag) eqn:E; [|reflexivity].
  rewrite <- H. symmetry. apply existsb_exists. exists flag. now split.
Qed.


(** ** What stays the same, with the runtime *)






(** ** The processes the script starts *)











(** ** The configuration, with the runtime *)

(** X20: what [saveConfig] has written, [loadConfig] reads back: provided
    [JSON.parse] undoes [JSON.stringify] on the saved object, and the
    environment variable does not take over. *)
Theorem save_then_load (dir : string) (w w' : world) :
  envSet w = false ->
  Str.isEmpty dir = false ->
  JSON_parse (stringifyConfig dir (now w)) =
    inr (VObject [("projectsDir", VString dir);
                  ("createdAt", VString (now w))]) ->
  saveConfig dir w = (Ret true, w') ->
  loadConfig' w' = (Ret (VString dir), w').
Proof.
  intros Henv Hdir Hparse Hsave.
  destruct (saveConfig_true _ _ _ Hsave) as [_ Hnode].
  assert (Henv' : envSet w' = false).
  { destruct (steady_saveConfig _ _ _ _ Hsave) as (_ & He & _).
    unfold envSet in *. now rewrite He. }
  rewrite loadConfig_spec. f_equal.
  - f_equal. unfold effectiveRoot, persistedRoot.
    rewrite Henv', Hnode, Hparse. cbn. rewrite Hdir.
    now destruct (envProjectsDir w').
  - unfold afterLoad, configFailure. now rewrite Henv', Hnode, Hparse.
Qed.

(** X21: [--set-config <path>] ends with status 0 only after the resolved path,
    which starts with the home directory, exists and has been written to
    the configuration file. *)
Theorem set_config_saves (w w' : world) (p : string) (more : list string) :
  argv w = "--set-config" :: p :: more ->
  script' w = (Exit 0%Z, w') ->
  Str.startsWith (Path.resolve (cwd w) [p]) (homedir w) = true /\
  fileExists w' (Path.resolve (cwd w) [p]) = true /\
  configNode w' =
    Some (FS.File (stringifyConfig (Path.resolve (cwd w) [p]) (now w))).
Proof.
  intros Hargv H.
  unfold script, main, setConfigCommand in H.
  unfold tryCatch, bind at 1, get at 1 in H.
  rewrite Hargv in H. cbn -[setConfig] in H.
  unfold bind at 1 in H.
  destruct (Str.isEmpty p); [discriminate|].
  unfold bind at 1 in H.
  destruct (setConfig p w) as [[u|e|c|] w1] eqn:E;
    pose proof (setConfig_exit _ _ _ _ E) as X; cbn in X.
  - destruct u. injection H as <-. exact (setConfig_ret _ _ _ E).
  - contradiction.
  - subst c. discriminate.
  - discriminate.
Qed.



(** ** The options of the command line *)

(** X23: without arguments, or with [--help] or [-h] first, the script prints
    the eleven lines of the usage and ends with status 0; it looks neither
    for [git] nor for a configuration. *)
Theorem help_exits (w : world) :
  argv w = [] \/ nth_error (argv w) 0 = Some "--help" \/
  nth_error (argv w) 0 = Some "-h" ->
  exists lines,
    script' w =
    (Exit 0%Z,
     fold_left (fun w0 line => emit (Logged INFO line) w0) lines w) /\
    List.length lines = 11 /\
    nth_error lines 0 = Some (Str.nl ++ "Usage: git-clone [options] <git-url>").
Proof.
  intros H.
  assert (Hh : isNil (argv w) || argIs (nth_error (argv w) 0) "--help" ||
               argIs (nth_error (argv w) 0) "-h" = true).
  { destruct H as [->|[->| ->]]; [reflexivity| |]; cbn;
      now rewrite ?orb_true_r. }
  unfold script, main, tryCatch. unfold bind at 1, get at 1. rewrite Hh.
  unfold showHelp. run_monad.
  eexists [_; _; _; _; _; _; _; _; _; _; _]. split; [reflexivity|].
  split; reflexivity.
Qed.



Lemma isOption_args (url : string) (more : list string) (w : world) :
  argv w = url :: more -> isOption url = false ->
  (isNil (argv w) || argIs (nth_error (argv w) 0) "--help" ||
   argIs (nth_error (argv w) 0) "-h" = false) /\
  (argIs (nth_error (argv w) 0) "--version" ||
   argIs (nth_error (argv w) 0) "-v" = false) /\
  (argIs (nth_error (argv w) 0) "--config" ||
   argIs (nth_error (argv w) 0) "-c" = false) /\
  argIs (nth_error (argv w) 0) "--set-config" = false /\
  argIs (nth_error (argv w) 0) "--reset-config" = false.
Proof.
  intros -> H. cbn [nth_error argIs isNil orb].
  rewrite !(isOption_false url _ H) by (cbn; tauto).
  now repeat split.
Qed.

(** X26: when [git --version] fails, a clone request ends with status 1 right
    after the error message: no configuration is read, no question asked. *)
Theorem git_missing_is_fatal (w : world) (url : string) (more : list string) :
  argv w = url :: more ->
  isOption url = false ->
  gitVersionWorks w = false ->
  script' w = (Exit 1%Z, emit gitMissing w).
Proof.
  intros Hargv Hopt Hgit.
  destruct (isOption_args _ _ _ Hargv Hopt) as (H1 & H2 & H3 & H4 & H5).
  unfold script, main, tryCatch. unfold bind at 1, get at 1.
  rewrite H1, H2, H3, H4, H5. unfold checkGitInstalled. run_monad.
  now rewrite Hgit.
Qed.

(** X27: [--set-config] without a path, or with an empty one, ends with status
    1 after the usage line. *)
Theorem set_config_needs_a_path (w : world) :
  argv w = ["--set-config"] \/
  (exists more, argv w = "--set-config" :: "" :: more) ->
  script' w = (Exit 1%Z, emit setConfigUsage w).
Proof.
  intros [H|[more H]];
    unfold script, main, tryCatch, setConfigCommand;
    unfold bind at 1, get at 1; rewrite H; reflexivity.
Qed.

(** ** The status of the process *)




























(** ** Cancelling *)



















Lemma not_cancelled_dialog (e : event) :
  (forall t m, e <> Logged t m) -> e <> cancelled.
Proof. intros H. apply H. Qed.










End Runtime.

(** * Runs in concrete worlds

    The runtime is instantiated with integers for numbers and a parser
    that knows the sample configuration file. *)

(** ** An environment variable set to the empty string *)

(** C4, as stated, fails when [GIT_CLONE_PROJECTS_DIR] is set to the empty
    string: the variable is set, yet the root comes from the configuration
    file. *)
Lemma loadConfig_empty_env_counterexample :
  envProjectsDir (sampleWorld [] (Some "") sampleFiles []) = Some "" /\
  loadConfig zIsTruthy Str.ofZ sampleParse (sampleWorld [] (Some "") sampleFiles [])
    = (Ret (VString "/home/u/Projects"), sampleWorld [] (Some "") sampleFiles []) /\
  loadConfig zIsTruthy Str.ofZ sampleParse (sampleWorld [] (Some "") sampleFiles [])
    <> (Ret (VString ""), sampleWorld [] (Some "") sampleFiles []).
Proof.
  split; [reflexivity|]. split; [reflexivity|].
  intros H. vm_compute in H. discriminate.
Qed.

(** ** Where the code departs from the specification *)

(** *** Containment below the root directory *)

(** C1, at the root directory: [/tmp/repo] lies below [/], yet the
    validator rejects it, because [projectsResolved + path.sep] is [//].
    With [GIT_CLONE_PROJECTS_DIR=/] the script therefore refuses the target
    [/tmp/repo] it has computed itself and exits with status 1. *)
Theorem validatePath_rejects_below_root :
  isWithin "/home/u" "/tmp/repo" "/" = true /\
  Path.resolve "/home/u" ["/"] = "/" /\
  Path.resolve "/home/u" ["/tmp/repo"] = "/tmp/repo" /\
  validatePathWithinProjectsDir "/home/u" "/tmp/repo" "/" = None /\
  exists w',
    script zIsTruthy Str.ofZ sampleParse
           (sampleWorld ["https://github.com/user/repo.git"] (Some "/")
                        sampleFiles [Picked 1; Picked 1]) = (Exit 1%Z, w') /\
    trace w' =
      [Asked (AskList "Choose an option:"
                      ["Create a new folder"; "Use an existing folder"]);
       Asked (AskList "Select an existing folder:" ["home"; "tmp"]);
       Logged ERROR ("Invalid path: target directory is outside Projects folder." ++
                     " This is not allowed.")].
Proof.
  split; [reflexivity|]. split; [reflexivity|]. split; [reflexivity|].
  split; [reflexivity|].
  eexists. split; [vm_compute; reflexivity | reflexivity].
Qed.

(** A sibling that shares a string prefix with the root is rejected, a
    descendant and the root itself are accepted. *)
Example validatePath_sibling :
  validatePathWithinProjectsDir "/" "/a/proj2" "/a/proj" = None /\
  validatePathWithinProjectsDir "/" "/a/proj/x/../y" "/a/proj" = Some "/a/proj/y" /\
  validatePathWithinProjectsDir "/" "/a/proj/" "/a/proj" = Some "/a/proj" /\
  validatePathWithinProjectsDir "/" "/a/proj/../other" "/a/proj" = None.
Proof. repeat split. Qed.

(** *** The editor launch *)

(** Whatever [spawnSync] reports about [cursor], [openInCursor] announces
    success: the fallback runs only when [spawnSync] itself throws. *)
Lemma openInCursor_spawned (p : string) (w : world) (r : spawnResult)
      (f : FS.node) :
  spawn w "cursor" [p] detachedIgnore (files w) = (Spawned r, f) ->
  openInCursor p w =
  (Ret tt,
   emit (Logged SUCCESS "Opening in Cursor...")
        (setFiles f (emit (Ran "cursor" [p] detachedIgnore (Spawned r)) w))).
Proof.
  intros H. unfold openInCursor, spawnSync. run_monad.
  unfold detachedIgnore in H. rewrite H. reflexivity.
Qed.

(** The editor launch always returns normally. *)
Lemma openInCursor_returns (p : string) (w : world) :
  exists w', openInCursor p w = (Ret tt, w').
Proof.
  destruct (openInCursor p w) as [o w'] eqn:E.
  destruct (openInCursor_trace _ _ _ _ E) as [-> _]. eauto.
Qed.

(** C9, on a machine without [cursor]: the primary command cannot be
    started, yet no fallback command is tried and no guidance is printed;
    the script reports that the editor is opening. *)
Theorem openInCursor_no_fallback :
  openInCursor "/home/u/Projects/repo"
    (editorlessWorld 0 [] None sampleFiles []) =
  (Ret tt,
   World [] None "linux" "/home/u" "/home/u"
         "/usr/lib/node_modules/git-clone-select/bin" sampleStamp true
         (noEditor 0) sampleFiles []
         [Ran "cursor" ["/home/u/Projects/repo"] detachedIgnore (enoent "cursor");
          Logged SUCCESS "Opening in Cursor..."]).
Proof. reflexivity. Qed.

(** *** The home-directory check of [--set-config] *)

(** A path whose resolved form does not start with the home directory is
    refused, and nothing is written. *)
Lemma setConfig_rejects (p : string) (w : world) :
  Str.startsWith (Path.resolve (cwd w) [p]) (homedir w) = false ->
  setConfig p w =
  (Exit 1%Z,
   emit (Logged ERROR "Projects directory must be within your home directory") w).
Proof.
  intros H. unfold setConfig. run_monad. rewrite H. reflexivity.
Qed.

(** The same from the command line: [--set-config p] with such a path ends
    with status 1, the file system as it was. *)
Lemma setConfigCommand_rejects (p : string) (more : list string) (w : world) :
  argv w = "--set-config" :: p :: more ->
  p <> "" ->
  Str.startsWith (Path.resolve (cwd w) [p]) (homedir w) = false ->
  exists w',
    script zIsTruthy Str.ofZ sampleParse w = (Exit 1%Z, w') /\
    files w' = files w /\
    trace w' =
      (trace w ++
       [Logged ERROR "Projects directory must be within your home directory"])%list.
Proof.
  intros Hargv Hp H.
  eexists. split; [|split].
  - unfold script, main, setConfigCommand. run_monad. rewrite Hargv.
    cbn. destruct p as [|c p]; [congruence|].
    cbn. run_monad. rewrite H. reflexivity.
  - reflexivity.
  - reflexivity.
Qed.

(** C5, for a sibling of the home directory whose name starts like it:
    [/home/u2/projects] is not within [/home/u], yet [--set-config] accepts
    it, creates it and writes it to the configuration file. *)
Theorem setConfig_accepts_sibling_of_home :
  isWithin "/home/u" "/home/u2/projects" "/home/u" = false /\
  configNode (sampleWorld ["--set-config"; "/home/u2/projects"] None
                          (sampleTree []) [YesNo (Some true)]) = None /\
  exists w',
    script zIsTruthy Str.ofZ sampleParse
           (sampleWorld ["--set-config"; "/home/u2/projects"] None
                        (sampleTree []) [YesNo (Some true)]) = (Exit 0%Z, w') /\
    configNode w' =
      Some (FS.File (stringifyConfig "/home/u2/projects" sampleStamp)) /\
    trace w' =
      [Asked (AskConfirm ("Directory " ++ Str.dq ++ "/home/u2/projects" ++ Str.dq ++
                          " doesn't exist. Create it?") true);
       Logged SUCCESS "Created directory: /home/u2/projects";
       Logged SUCCESS
         "Configuration updated! Projects directory: /home/u2/projects"].
Proof.
  split; [reflexivity|]. split; [reflexivity|].
  eexists. split; [vm_compute; reflexivity|]. split; reflexivity.
Qed.

(** *** Cloning into an existing folder *)

(** C6, for a URL whose last segment is a dot: the URL passes the shape
    check, its repository name is [.], and with the existing folder [work]
    selected the clone target is [<root>/work] itself. *)
Theorem existing_folder_dot_repo :
  validateGitUrl "https://github.com/owner/." = true /\
  defaultRepoName "https://github.com/owner/." = "." /\
  Path.join [Path.join ["/home/u/Projects"; "work"]; "."] =
    "/home/u/Projects/work" /\
  fst (determineTargetDir "/home/u/Projects" "work" true "."
         (sampleWorld [] None sampleFiles [])) = Ret "/home/u/Projects/work" /\
  exists w',
    script zIsTruthy Str.ofZ sampleParse
           (sampleWorld ["https://github.com/owner/."] (Some "/home/u/Projects")
                        sampleFiles
                        [Picked 1; Picked 0; Keypress (Some "q") "q" false])
    = (Ret tt, w') /\
    nth_error (trace w') 3 =
      Some (Ran "git"
                ["clone"; "https://github.com/owner/."; "/home/u/Projects/work"]
                (SpawnOptions "inherit" (Some "/home/u/Projects") false)
                (Spawned (SpawnResult None (Some 0%Z)))).
Proof.
  split; [reflexivity|]. split; [reflexivity|]. split; [reflexivity|].
  split; [reflexivity|].
  eexists. split; [vm_compute; reflexivity|]. reflexivity.
Qed.

(** * The theorems of the script, at concrete inputs *)


Lemma loadConfig_precedence_witness :
  envSet (sampleWorld [] None sampleFiles []) = false /\
  loadConfig zIsTruthy Str.ofZ sampleParse (sampleWorld [] None sampleFiles []) =
  (Ret (VString "/home/u/Projects"), sampleWorld [] None sampleFiles []).
Proof.
  split; [reflexivity|].
  apply (proj1 (proj2 (proj2
           (loadConfig_precedence Z zIsTruthy Str.ofZ sampleParse
              (sampleWorld [] None sampleFiles []))))
           sampleConfigText
           [("projectsDir", VString "/home/u/Projects");
            ("createdAt", VString sampleStamp)]);
    reflexivity.
Defined.

Lemma loadConfig_env_verbatim_witness :
  envProjectsDir (sampleWorld [] (Some "/srv/repos") sampleFiles []) =
    Some "/srv/repos" /\
  Str.isEmpty "/srv/repos" = false /\
  loadConfig zIsTruthy Str.ofZ sampleParse
             (sampleWorld [] (Some "/srv/repos") sampleFiles []) =
  (Ret (VString "/srv/repos"), sampleWorld [] (Some "/srv/repos") sampleFiles []).
Proof.
  split; [reflexivity|]. split; [reflexivity|].
  apply (proj1 (loadConfig_env_verbatim Z zIsTruthy Str.ofZ sampleParse));
    reflexivity.
Defined.

Lemma reset_config_idempotent_witness :
  argv (sampleWorld ["--reset-config"] None sampleFiles []) = ["--reset-config"] /\
  FS.isDirectory (files (sampleWorld ["--reset-config"] None sampleFiles [])) = true /\
  configNode (sampleWorld ["--reset-config"] None sampleFiles []) =
    Some (FS.File sampleConfigText) /\
  exists w',
    script zIsTruthy Str.ofZ sampleParse
           (sampleWorld ["--reset-config"] None sampleFiles []) = (Exit 0%Z, w') /\
    configNode w' = None.
Proof.
  split; [reflexivity|]. split; [reflexivity|]. split; [reflexivity|].
  destruct (reset_config_idempotent Z zIsTruthy Str.ofZ sampleParse
              (sampleWorld ["--reset-config"] None sampleFiles [])
              [] eq_refl eq_refl
              (or_intror (ex_intro _ sampleConfigText eq_refl)))
    as (w' & Hrun & Hnode & _).
  exists w'. split; [exact Hrun | exact Hnode].
Defined.

Lemma clone_failure_aborts_witness :
  exists w',
    script zIsTruthy Str.ofZ sampleParse failingCloneWorld = (Exit 1%Z, w') /\
    existsb isFailedGitRun (trace w') = true /\
    existsb isWrote (trace w') = false /\
    isErrorReport (last (trace w') (Logged INFO "")) = true.
Proof.
  pose (r := script zIsTruthy Str.ofZ sampleParse failingCloneWorld).
  assert (E : r = (Exit 1%Z, snd r)) by (vm_compute; reflexivity).
  exists (snd r). split; [exact E|].
  destruct (clone_failure_aborts Z zIsTruthy Str.ofZ sampleParse
              failingCloneWorld _ _ E) as (shown & T & Hfail & _).
  assert (Hs : trace (snd r) = shown) by exact T.
  assert (Hf : existsb isFailedGitRun shown = true)
    by (rewrite <- Hs; vm_compute; reflexivity).
  destruct (Hfail Hf) as (_ & _ & W & R).
  rewrite Hs. split; [exact Hf|]. split; [exact W | exact R].
Defined.


(** * The theorems on whole runs, at concrete inputs *)



Lemma save_then_load_witness :
  envSet (sampleWorld [] None (sampleTree []) []) = false /\
  sampleParse (stringifyConfig "/home/u/Projects" sampleStamp) =
    inr (VObject [("projectsDir", VString "/home/u/Projects");
                  ("createdAt", VString sampleStamp)]) /\
  exists w',
    saveConfig "/home/u/Projects" (sampleWorld [] None (sampleTree []) []) =
      (Ret true, w') /\
    loadConfig zIsTruthy Str.ofZ sampleParse w' =
      (Ret (VString "/home/u/Projects"), w').
Proof.
  split; [reflexivity|]. split; [reflexivity|].
  pose (w := sampleWorld [] None (sampleTree []) []).
  pose (r := saveConfig "/home/u/Projects" w).
  assert (E : r = (Ret true, snd r)) by (vm_compute; reflexivity).
  exists (snd r). split; [exact E|].
  exact (save_then_load Z zIsTruthy Str.ofZ sampleParse "/home/u/Projects"
                        w (snd r) eq_refl eq_refl eq_refl E).
Defined.

Lemma set_config_saves_witness :
  exists w',
    script zIsTruthy Str.ofZ sampleParse
           (sampleWorld ["--set-config"; "Projects"] None (sampleTree []) []) =
      (Exit 0%Z, w') /\
    fileExists w' "/home/u/Projects" = true /\
    configNode w' =
      Some (FS.File (stringifyConfig "/home/u/Projects" sampleStamp)).
Proof.
  pose (w := sampleWorld ["--set-config"; "Projects"] None (sampleTree []) []).
  pose (r := script zIsTruthy Str.ofZ sampleParse w).
  assert (E : r = (Exit 0%Z, snd r)) by (vm_compute; reflexivity).
  exists (snd r). split; [exact E|].
  exact (proj2 (set_config_saves Z zIsTruthy Str.ofZ sampleParse
                  w (snd r) "Projects" [] eq_refl E)).
Defined.


Lemma help_exits_witness :
  argv (sampleWorld [] None sampleFiles []) = [] /\
  exists lines,
    script zIsTruthy Str.ofZ sampleParse (sampleWorld [] None sampleFiles []) =
    (Exit 0%Z,
     fold_left (fun w0 line => emit (Logged INFO line) w0) lines
               (sampleWorld [] None sampleFiles [])) /\
    List.length lines = 11.
Proof.
  split; [reflexivity|].
  destruct (help_exits Z zIsTruthy Str.ofZ sampleParse
              (sampleWorld [] None sampleFiles []) (or_introl eq_refl))
    as (lines & H & L & _).
  exists lines. split; [exact H | exact L].
Defined.



Lemma git_missing_is_fatal_witness :
  argv gitlessWorld = ["https://github.com/user/repo.git"] /\
  isOption "https://github.com/user/repo.git" = false /\
  gitVersionWorks gitlessWorld = false /\
  script zIsTruthy Str.ofZ sampleParse gitlessWorld =
    (Exit 1%Z, emit gitMissing gitlessWorld).
Proof.
  split; [reflexivity|]. split; [reflexivity|]. split; [reflexivity|].
  exact (git_missing_is_fatal Z zIsTruthy Str.ofZ sampleParse gitlessWorld
           "https://github.com/user/repo.git" [] eq_refl eq_refl eq_refl).
Defined.

Lemma set_config_needs_a_path_witness :
  argv (sampleWorld ["--set-config"] None sampleFiles []) = ["--set-config"] /\
  script zIsTruthy Str.ofZ sampleParse
         (sampleWorld ["--set-config"] None sampleFiles []) =
  (Exit 1%Z, emit setConfigUsage (sampleWorld ["--set-config"] None sampleFiles [])).
Proof.
  split; [reflexivity|].
  exact (set_config_needs_a_path Z zIsTruthy Str.ofZ sampleParse
           (sampleWorld ["--set-config"] None sampleFiles [])
           (or_introl eq_refl)).
Defined.


